(** * LaTeX document generator: table buffer, width negotiation, escaping

    A shallow embedding of the table handling of
    [gramps/plugins/docgen/latexdoc.py] and of the helpers and TeX macros of
    [gramps/plugins/docgen/latexbasedoc.py].

    Conventions.
    - A Python [str] is a Rocq [string]; a non-ASCII character is kept as its
      UTF-8 bytes, so every operation below that searches for ASCII text acts
      on the same positions as the Python one.  The operations that look at
      the characters themselves ([strip], [ord], [chr]) read and write the
      bytes of a character together.
    - A Python [int] is a [Z].
    - A raised exception is a value of [exn]; a method of [LaTeXDoc] is a
      function from the document state to an outcome and the state in which
      the method stopped, so what was written or appended before an exception
      stays visible.
    - Every [self._backend.write(...)] appends one element to the backend's
      output; the elements are the typed instructions of [Instr], and
      [render] gives the text each one stands for. *)

From Stdlib Require Import ZArith NArith List String Ascii Bool Lia Arith.
From Stdlib Require Import DecimalString.
Import ListNotations.

Local Open Scope string_scope.
Local Open Scope Z_scope.

(** ** Exceptions and outcomes *)

Inductive exn : Type :=
| ValueError (msg : string)
| TypeError
| IndexError
| AttributeError
| ZeroDivisionError
| OverflowError
| StopIteration.

Inductive result (A : Type) : Type :=
| Ok (a : A)
| Raise (e : exn).
Arguments Ok {A} a.
Arguments Raise {A} e.

Definition is_ok {A} (r : result A) : bool :=
  match r with Ok _ => true | Raise _ => false end.

Definition is_value_error {A} (r : result A) : bool :=
  match r with Raise (ValueError _) => true | _ => false end.

Definition rbind {A B} (r : result A) (k : A -> result B) : result B :=
  match r with Ok a => k a | Raise e => Raise e end.

(** ** Python string primitives *)

Module PyStr.

Local Open Scope nat_scope.

Definition char_str (c : ascii) : string := String c "".

(** [''.join(parts)] *)
Definition join0 (parts : list string) : string :=
  fold_right append "" parts.

(** [sep.join(parts)] *)
Fixpoint join (sep : string) (parts : list string) : string :=
  match parts with
  | [] => ""
  | [p] => p
  | p :: ps => p ++ sep ++ join sep ps
  end.

(** [s.startswith(p)] *)
Definition startswith (s p : string) : bool := prefix p s.

(** [s.find(sub) != -1] *)
Fixpoint contains (s sub : string) : bool :=
  prefix sub s ||
  match s with
  | "" => false
  | String _ rest => contains rest sub
  end.

(** One left-to-right pass that replaces the non-overlapping occurrences of
    a non-empty [old]; [skip] counts the characters of the occurrence just
    replaced that are still to be passed over. *)
Fixpoint replace_go (old new s : string) (skip : nat) : string :=
  match s with
  | "" => ""
  | String c rest =>
      match skip with
      | S k => replace_go old new rest k
      | O => if prefix old s
             then new ++ replace_go old new rest (length old - 1)
             else String c (replace_go old new rest 0)
      end
  end.

(** The empty pattern matches before every character and at the end. *)
Fixpoint intersperse (new s : string) : string :=
  match s with
  | "" => new
  | String c rest => new ++ String c (intersperse new rest)
  end.

(** [s.replace(old, new)] *)
Definition replace (s old new : string) : string :=
  match old with
  | "" => intersperse new s
  | _ => replace_go old new s 0
  end.

(** [s.split(sep)] for a non-empty [sep]: [cur] is the piece being read. *)
Fixpoint split_go (sep s : string) (skip : nat) (cur : string) : list string :=
  match s with
  | "" => [cur]
  | String c rest =>
      match skip with
      | S k => split_go sep rest k cur
      | O => if prefix sep s
             then cur :: split_go sep rest (length sep - 1) ""
             else split_go sep rest 0 (cur ++ char_str c)
      end
  end.

(** [s.split(sep)]; Python raises [ValueError] on an empty separator. *)
Definition split (s sep : string) : result (list string) :=
  match sep with
  | "" => Raise (ValueError "empty separator")
  | _ => Ok (split_go sep s 0 "")
  end.

Fixpoint mem_char (c : ascii) (chars : string) : bool :=
  match chars with
  | "" => false
  | String d rest => Ascii.eqb c d || mem_char c rest
  end.

Fixpoint lstrip_by (p : ascii -> bool) (s : string) : string :=
  match s with
  | "" => ""
  | String c rest => if p c then lstrip_by p rest else s
  end.

Fixpoint rstrip_by (p : ascii -> bool) (s : string) : string :=
  match s with
  | "" => ""
  | String c rest =>
      match rstrip_by p rest with
      | "" => if p c then "" else char_str c
      | r => String c r
      end
  end.

(** [s.strip(chars)]: [chars] is a set of characters, not a substring. *)
Definition strip_chars (s chars : string) : string :=
  rstrip_by (fun c => mem_char c chars) (lstrip_by (fun c => mem_char c chars) s).

(** The ASCII characters for which [str.isspace] holds: tab, line feed,
    vertical tab, form feed, carriage return, the separators 28..31 and the
    space. *)
Definition isspace (c : ascii) : bool :=
  let n := nat_of_ascii c in
  ((9 <=? n) && (n <=? 13)) || ((28 <=? n) && (n <=? 32)).

(** The characters beyond ASCII for which [str.isspace] holds, by the
    bytes of their UTF-8 codes: U+0085 and U+00A0 (two bytes), and U+1680,
    U+2000..U+200A, U+2028, U+2029, U+202F, U+205F and U+3000 (three
    bytes). *)
Definition isspace2 (b0 b1 : ascii) : bool :=
  let n0 := nat_of_ascii b0 in
  let n1 := nat_of_ascii b1 in
  (n0 =? 194) && ((n1 =? 133) || (n1 =? 160)).

Definition isspace3 (b0 b1 b2 : ascii) : bool :=
  let n0 := nat_of_ascii b0 in
  let n1 := nat_of_ascii b1 in
  let n2 := nat_of_ascii b2 in
  ((n0 =? 225) && (n1 =? 154) && (n2 =? 128))
  || ((n0 =? 226) && (n1 =? 128)
      && (((128 <=? n2) && (n2 <=? 138)) || (n2 =? 168) || (n2 =? 169)
          || (n2 =? 175)))
  || ((n0 =? 226) && (n1 =? 129) && (n2 =? 159))
  || ((n0 =? 227) && (n1 =? 128) && (n2 =? 128)).

(** What is left of [s] behind its first character, when that character
    is white space. *)
Definition behind_space (s : string) : option string :=
  match s with
  | String b0 rest =>
      if isspace b0 then Some rest
      else match rest with
           | String b1 rest1 =>
               if isspace2 b0 b1 then Some rest1
               else match rest1 with
                    | String b2 rest2 =>
                        if isspace3 b0 b1 b2 then Some rest2 else None
                    | "" => None
                    end
           | "" => None
           end
  | "" => None
  end.

(** The same for a text that is read from its end: the bytes of a
    character come last byte first. *)
Definition before_space (s : string) : option string :=
  match s with
  | String b0 rest =>
      if isspace b0 then Some rest
      else match rest with
           | String b1 rest1 =>
               if isspace2 b1 b0 then Some rest1
               else match rest1 with
                    | String b2 rest2 =>
                        if isspace3 b2 b1 b0 then Some rest2 else None
                    | "" => None
                    end
           | "" => None
           end
  | "" => None
  end.

(** The white space taken from the beginning; [fuel] bounds the number of
    characters taken. *)
Fixpoint strip_go (next : string -> option string) (fuel : nat) (s : string)
  : string :=
  match fuel with
  | O => s
  | S k => match next s with
           | Some rest => strip_go next k rest
           | None => s
           end
  end.

Fixpoint rev_go (s acc : string) : string :=
  match s with
  | "" => acc
  | String c rest => rev_go rest (String c acc)
  end.

Definition rev (s : string) : string := rev_go s "".

Definition lstrip (s : string) : string :=
  strip_go behind_space (String.length s) s.

Definition rstrip (s : string) : string :=
  rev (strip_go before_space (String.length s) (rev s)).

(** [s.strip()]: the white space of Unicode is taken from both ends. *)
Definition strip (s : string) : string := rstrip (lstrip s).

(** [repr(n)] and ['%d' % n] of an integer *)
Definition repr_int (n : Z) : string :=
  NilZero.string_of_int (Z.to_int n).

(** A byte that continues a character in UTF-8. *)
Definition is_cont (n : Z) : bool := ((128 <=? n) && (n <=? 191))%Z.

Definition byte (c : ascii) : Z := Z.of_nat (nat_of_ascii c).

(** [ord(s)]: the argument has to be a string of length one, which is one
    to four bytes here; the result is the code point of the character.  A
    Python string may hold a surrogate code point, which has three bytes
    like its neighbours. *)
Definition ord (s : string) : result Z :=
  (match s with
   | String b0 "" =>
       if byte b0 <? 128 then Ok (byte b0) else Raise TypeError
   | String b0 (String b1 "") =>
       let n0 := byte b0 in
       let n1 := byte b1 in
       if (194 <=? n0) && (n0 <=? 223) && is_cont n1
       then Ok ((n0 - 192) * 64 + (n1 - 128))
       else Raise TypeError
   | String b0 (String b1 (String b2 "")) =>
       let n0 := byte b0 in
       let n1 := byte b1 in
       let n2 := byte b2 in
       if (224 <=? n0) && (n0 <=? 239) && is_cont n1 && is_cont n2
          && negb ((n0 =? 224) && (n1 <? 160))       (* no longer form *)
       then Ok ((n0 - 224) * 4096 + (n1 - 128) * 64 + (n2 - 128))
       else Raise TypeError
   | String b0 (String b1 (String b2 (String b3 ""))) =>
       let n0 := byte b0 in
       let n1 := byte b1 in
       let n2 := byte b2 in
       let n3 := byte b3 in
       if (240 <=? n0) && (n0 <=? 244) && is_cont n1 && is_cont n2 && is_cont n3
          && negb ((n0 =? 240) && (n1 <? 144))       (* no longer form *)
          && negb ((n0 =? 244) && (144 <=? n1))      (* at most 0x10FFFF *)
       then Ok ((n0 - 240) * 262144 + (n1 - 128) * 4096
                + (n2 - 128) * 64 + (n3 - 128))
       else Raise TypeError
   | _ => Raise TypeError
   end)%Z.

Definition of_byte (n : Z) : ascii := ascii_of_nat (Z.to_nat n).

(** [chr(n)]: the character with the code point [n], which is one to four
    bytes here. *)
Definition chr (n : Z) : result string :=
  (if (n <? 0) || (1114111 <? n)
   then Raise (ValueError "chr() arg not in range(0x110000)")
   else if n <? 128 then Ok (char_str (of_byte n))
   else if n <? 2048
   then Ok (String (of_byte (192 + Z.div n 64)) (char_str (of_byte (128 + Z.modulo n 64))))
   else if n <? 65536
   then Ok (String (of_byte (224 + Z.div n 4096))
             (String (of_byte (128 + Z.modulo (Z.div n 64) 64))
                (char_str (of_byte (128 + Z.modulo n 64)))))
   else Ok (String (of_byte (240 + Z.div n 262144))
             (String (of_byte (128 + Z.modulo (Z.div n 4096) 64))
                (String (of_byte (128 + Z.modulo (Z.div n 64) 64))
                   (char_str (of_byte (128 + Z.modulo n 64)))))))%Z.

End PyStr.

(** ** Auxiliaries of the table construction *)

Definition SEPARATION_PAT : string := "&&".

Definition ord_a : Z := 97.
Definition ord_z : Z := 122.

(** [get_charform]: column number to column letter, limited to a..z. *)
Definition get_charform (col_num : Z) : result string :=
  if col_num >? ord_z - ord_a
  then Raise (ValueError (PyStr.join0
         [String "010" " number of table columns is "; PyStr.repr_int col_num;
          String "010" "                     should be <= ";
          PyStr.repr_int (ord_z - ord_a)]))
  else PyStr.chr (ord_a + col_num).

(** [get_numform]: column letter to column number. *)
Definition get_numform (col_char : string) : result Z :=
  rbind (PyStr.ord col_char) (fun n => Ok (n - ord_a)).

Definition MULTCOL_COUNT_BASE : string := "aaa".

(** *** The generator [str_incr]

    A generator object is its control point and its local list [lili]:
    not started, suspended at the [yield], or finished. *)

Inductive str_incr_gen : Type :=
| GenNew (lili : list ascii)
| GenYield (lili : list ascii)
| GenDone.

Definition str_incr (str_counter : string) : str_incr_gen :=
  GenNew (list_ascii_of_string str_counter).

Definition lt_z (c : ascii) : bool := (nat_of_ascii c <? 122)%nat.
Definition is_z (c : ascii) : bool := (nat_of_ascii c =? 122)%nat.
Definition succ_char (c : ascii) : ascii := ascii_of_nat (S (nat_of_ascii c)).

(** The [for i in range(len(lili)-1, -1, -1)] loop: from the right, a
    character below ['z'] is stepped and the loop stops; any other one is
    set to ['a'] and the loop goes on.  The boolean tells whether the loop
    is still running when it reaches this position. *)
Fixpoint incr_lili (lili : list ascii) : list ascii * bool :=
  match lili with
  | [] => ([], true)
  | c :: rest =>
      let (rest', running) := incr_lili rest in
      if running
      then if lt_z c then (succ_char c :: rest', false)
           else ("a"%char :: rest', true)
      else (c :: rest', false)
  end.

(** [next(gen)] *)
Definition gen_next (g : str_incr_gen) : result string * str_incr_gen :=
  match g with
  | GenNew lili => (Ok (string_of_list_ascii lili), GenYield lili)
  | GenYield lili =>
      if forallb is_z lili
      then (Raise (ValueError (PyStr.join0
              [String "010" " can't increment string ";
               string_of_list_ascii lili; " of length ";
               PyStr.repr_int (Z.of_nat (List.length lili))])), GenDone)
      else let lili' := fst (incr_lili lili) in
           (Ok (string_of_list_ascii lili'), GenYield lili')
  | GenDone => (Raise StopIteration, GenDone)
  end.

(** [k] successive calls of [next]: the identifiers delivered, and the
    generator left behind; stops at the first exception. *)
Fixpoint gen_take (k : nat) (g : str_incr_gen) : result (list string) * str_incr_gen :=
  match k with
  | O => (Ok [], g)
  | S k' =>
      match gen_next g with
      | (Ok s, g') =>
          match gen_take k' g' with
          | (Ok l, g'') => (Ok (s :: l), g'')
          | (Raise e, g'') => (Raise e, g'')
          end
      | (Raise e, g') => (Raise e, g')
      end
  end.

(** ** Escaping ([latexbasedoc.py]) *)

Module Escape.

(** The character the source names as unknown to LaTeX, as it stands in the
    source file (three characters, eight bytes of UTF-8). *)
Definition ARROW : string :=
  String (ascii_of_nat 195) (String (ascii_of_nat 162)
  (String (ascii_of_nat 226) (String (ascii_of_nat 128) (String (ascii_of_nat 160)
  (String (ascii_of_nat 226) (String (ascii_of_nat 128) (String (ascii_of_nat 153) ""))))))).

(** [latexescape]: eight [str.replace] calls in sequence. *)
Definition latexescape (text : string) : string :=
  let text := PyStr.replace text "&" "\&" in
  let text := PyStr.replace text "$" "\$" in
  let text := PyStr.replace text "%" "\%" in
  let text := PyStr.replace text "#" "\#" in
  let text := PyStr.replace text "_" "\_" in
  let text := PyStr.replace text "{" "\{" in
  let text := PyStr.replace text "}" "\}" in
  let text := PyStr.replace text ARROW "$\longrightarrow$" in
  text.

(** The dictionary [lookup] of [escape]. *)
Definition lookup : list (ascii * string) :=
  [ ("&"%char, "\&"); ("%"%char, "\%"); ("$"%char, "\$"); ("#"%char, "\#");
    ("_"%char, "\_"); ("{"%char, "\{"); ("}"%char, "\}");
    ("~"%char, "\~{}"); ("^"%char, "\^{}"); ("\"%char, "\textbackslash{}") ].

Fixpoint lookup_get (d : list (ascii * string)) (c : ascii) : option string :=
  match d with
  | [] => None
  | (k, v) :: rest => if Ascii.eqb c k then Some v else lookup_get rest c
  end.

(** [pattern.sub(lambda match: lookup[match.group(0)], text)] where
    [pattern] is the alternation of the keys of the dictionary, each a
    single character: every character that is a key is a match. *)
Fixpoint pattern_sub (d : list (ascii * string)) (text : string) : string :=
  match text with
  | "" => ""
  | String c rest =>
      match lookup_get d c with
      | Some v => v ++ pattern_sub d rest
      | None => String c (pattern_sub d rest)
      end
  end.

(** [escape] *)
Definition escape (text : string) : string := pattern_sub lookup text.

(** [latexescapeverbatim] *)
Definition latexescapeverbatim (text : string) : string :=
  let text := latexescape text in
  let text := PyStr.replace text " " "\ " in
  let text := PyStr.replace text (String "010" "") (String.append "~\newline " (String "010" "")) in
  let text := PyStr.replace text (String.append "\newline" (String "010" "\ "))
                (String.append "\newline" (String "010" "\hspace*{0.1\grbaseindent}\ ")) in
  text.

(** *** What the specification calls an unescaped reserved character

    The reserved set, and a scanner that accepts a text when it is a
    sequence of characters outside the reserved set and of the safe
    representations that [lookup] lists. *)

Definition reserved (c : ascii) : bool := PyStr.mem_char c "&$%#_{}~^\".

Inductive scan_state : Type :=
| Plain                      (* between tokens *)
| AfterBackslash             (* just read the backslash of a representation *)
| Expect (pending : string). (* the rest of a representation, to be read *)

Definition scan_step (q : scan_state) (c : ascii) : option scan_state :=
  match q with
  | Plain =>
      if Ascii.eqb c "\" then Some AfterBackslash
      else if reserved c then None else Some Plain
  | AfterBackslash =>
      if PyStr.mem_char c "&$%#_{}" then Some Plain
      else if PyStr.mem_char c "~^" then Some (Expect "{}")
      else if Ascii.eqb c "t" then Some (Expect "extbackslash{}")
      else None
  | Expect "" => None
  | Expect (String d "") => if Ascii.eqb c d then Some Plain else None
  | Expect (String d rest) => if Ascii.eqb c d then Some (Expect rest) else None
  end.

Fixpoint scan (q : scan_state) (s : string) : bool :=
  match s with
  | "" => match q with Plain => true | _ => false end
  | String c rest =>
      match scan_step q c with
      | Some q' => scan q' rest
      | None => false
      end
  end.

(** No reserved character stands unescaped in [s]. *)
Definition well_escaped (s : string) : bool := scan Plain s.

End Escape.

(** ** Structure of the table memory *)

Record TabCell : Type := mkCell {
  c_colchar : string;
  c_span : Z;
  c_head : string;
  c_content : string
}.

Record TabRow : Type := mkRow {
  r_cells : list TabCell;
  r_tail : string;
  r_addit : string       (* for: \hline, \cline{} *)
}.

Record TabMem : Type := mkMem {
  m_head : string;
  m_tail : string;
  m_rows : list TabRow
}.

(** [TabRow()] and [TabMem(head)] *)
Definition new_TabRow : TabRow := mkRow [] "" "".
Definition new_TabMem (head : string) : TabMem := mkMem head "" [].

(** Constants for routing in table construction. *)
Inductive tab_event : Type :=
| CELL_BEG | CELL_TEXT | CELL_END | ROW_BEG | ROW_END | TAB_BEG | TAB_END.

(** A value that is a number or a string ([pict_width] is the number 0 of
    the class, the argument [x] of [add_media], or whatever the caller
    stored there). *)
Inductive pyval : Type :=
| PyInt (n : Z)
| PyStr (s : string).

(** ** What the backend receives

    One constructor per [self._backend.write] of the table code; [Raw] is a
    write whose text is not one of the width instructions. *)

Inductive Instr : Type :=
| Raw (text : string)
| GrInitTab (numcols : Z)
| AddToTabWidth (pict_width : pyval)
| SetPictSize (pict_width : string)
| GrTextNeedWidth (part : string)
| GrSetReqFull
| GrSetReqPart (beg_char : string)
| GrColsFirstFix (col_char : string)
| GrDivideLength
| GrColsSecondFix (col_char : string)
| GrColsThirdFix (col_char : string)
| GrColsFourthFix (col_char : string)
| GrGetSpanWidth (alph_id beg_char col_char : string).

(** ** The document object

    The attributes of [LaTeXDoc] that the table code reads or assigns.
    [tabcell], [tabrow] and [tabmem] exist only once a cell, a row or a
    table was begun; the scalar attributes are those of a document on which
    [open], [start_table] and [start_row] have run before.

    Cells and rows are held by value.  In the source they are objects:
    [self.tabcell] is the cell that [CELL_END] puts into the row and
    [self.tabrow] the row that [ROW_END] puts into the table, so each is
    shared with the buffer from then on.  The record agrees with the
    source on the table memory as long as the events come in the order of
    a table: every row begins with [ROW_BEG] and ends once, every cell
    begins with [CELL_BEG] inside its row and ends once there, so that
    no two places of the buffer hold one object and nothing is put into
    a row that is in the table already.  What an assignment to a buffered
    cell does to [self.tabcell] and [self.tabrow] is not modelled: see
    [assign_content]. *)

Record LaTeXDoc : Type := mkDoc {
  in_table : bool;
  in_multrow_cell : bool;
  pict : string;
  pict_in_table : bool;
  pict_width : pyval;
  textmem : list string;
  head_line : bool;
  numcols : Z;
  currow : Z;
  curcol : Z;
  colspan : Z;
  doline : bool;
  skipfirst : bool;
  curcol_char : string;
  tabcell : option TabCell;
  tabrow : option TabRow;
  tabmem : option TabMem;
  multcol_alph_counter : str_incr_gen;
  backend : list Instr
}.

(** Assignment to one attribute. *)

Definition set_in_table (v : bool) (d : LaTeXDoc) : LaTeXDoc :=
  {| in_table := v; in_multrow_cell := in_multrow_cell d; pict := pict d;
     pict_in_table := pict_in_table d; pict_width := pict_width d; textmem :=
     textmem d; head_line := head_line d; numcols := numcols d; currow := currow
     d; curcol := curcol d; colspan := colspan d; doline := doline d; skipfirst
     := skipfirst d; curcol_char := curcol_char d; tabcell := tabcell d; tabrow
     := tabrow d; tabmem := tabmem d; multcol_alph_counter :=
     multcol_alph_counter d; backend := backend d |}.

Definition set_in_multrow_cell (v : bool) (d : LaTeXDoc) : LaTeXDoc :=
  {| in_table := in_table d; in_multrow_cell := v; pict := pict d;
     pict_in_table := pict_in_table d; pict_width := pict_width d; textmem :=
     textmem d; head_line := head_line d; numcols := numcols d; currow := currow
     d; curcol := curcol d; colspan := colspan d; doline := doline d; skipfirst
     := skipfirst d; curcol_char := curcol_char d; tabcell := tabcell d; tabrow
     := tabrow d; tabmem := tabmem d; multcol_alph_counter :=
     multcol_alph_counter d; backend := backend d |}.

Definition set_pict (v : string) (d : LaTeXDoc) : LaTeXDoc :=
  {| in_table := in_table d; in_multrow_cell := in_multrow_cell d; pict := v;
     pict_in_table := pict_in_table d; pict_width := pict_width d; textmem :=
     textmem d; head_line := head_line d; numcols := numcols d; currow := currow
     d; curcol := curcol d; colspan := colspan d; doline := doline d; skipfirst
     := skipfirst d; curcol_char := curcol_char d; tabcell := tabcell d; tabrow
     := tabrow d; tabmem := tabmem d; multcol_alph_counter :=
     multcol_alph_counter d; backend := backend d |}.

Definition set_pict_in_table (v : bool) (d : LaTeXDoc) : LaTeXDoc :=
  {| in_table := in_table d; in_multrow_cell := in_multrow_cell d; pict :=
     pict d; pict_in_table := v; pict_width := pict_width d; textmem := textmem
     d; head_line := head_line d; numcols := numcols d; currow := currow d;
     curcol := curcol d; colspan := colspan d; doline := doline d; skipfirst :=
     skipfirst d; curcol_char := curcol_char d; tabcell := tabcell d; tabrow :=
     tabrow d; tabmem := tabmem d; multcol_alph_counter := multcol_alph_counter
     d; backend := backend d |}.

Definition set_pict_width (v : pyval) (d : LaTeXDoc) : LaTeXDoc :=
  {| in_table := in_table d; in_multrow_cell := in_multrow_cell d; pict :=
     pict d; pict_in_table := pict_in_table d; pict_width := v; textmem :=
     textmem d; head_line := head_line d; numcols := numcols d; currow := currow
     d; curcol := curcol d; colspan := colspan d; doline := doline d; skipfirst
     := skipfirst d; curcol_char := curcol_char d; tabcell := tabcell d; tabrow
     := tabrow d; tabmem := tabmem d; multcol_alph_counter :=
     multcol_alph_counter d; backend := backend d |}.

Definition set_textmem (v : list string) (d : LaTeXDoc) : LaTeXDoc :=
  {| in_table := in_table d; in_multrow_cell := in_multrow_cell d; pict :=
     pict d; pict_in_table := pict_in_table d; pict_width := pict_width d;
     textmem := v; head_line := head_line d; numcols := numcols d; currow :=
     currow d; curcol := curcol d; colspan := colspan d; doline := doline d;
     skipfirst := skipfirst d; curcol_char := curcol_char d; tabcell := tabcell
     d; tabrow := tabrow d; tabmem := tabmem d; multcol_alph_counter :=
     multcol_alph_counter d; backend := backend d |}.

Definition set_head_line (v : bool) (d : LaTeXDoc) : LaTeXDoc :=
  {| in_table := in_table d; in_multrow_cell := in_multrow_cell d; pict :=
     pict d; pict_in_table := pict_in_table d; pict_width := pict_width d;
     textmem := textmem d; head_line := v; numcols := numcols d; currow := currow
     d; curcol := curcol d; colspan := colspan d; doline := doline d; skipfirst
     := skipfirst d; curcol_char := curcol_char d; tabcell := tabcell d; tabrow
     := tabrow d; tabmem := tabmem d; multcol_alph_counter :=
     multcol_alph_counter d; backend := backend d |}.

Definition set_numcols (v : Z) (d : LaTeXDoc) : LaTeXDoc :=
  {| in_table := in_table d; in_multrow_cell := in_multrow_cell d; pict :=
     pict d; pict_in_table := pict_in_table d; pict_width := pict_width d;
     textmem := textmem d; head_line := head_line d; numcols := v; currow :=
     currow d; curcol := curcol d; colspan := colspan d; doline := doline d;
     skipfirst := skipfirst d; curcol_char := curcol_char d; tabcell := tabcell
     d; tabrow := tabrow d; tabmem := tabmem d; multcol_alph_counter :=
     multcol_alph_counter d; backend := backend d |}.

Definition set_currow (v : Z) (d : LaTeXDoc) : LaTeXDoc :=
  {| in_table := in_table d; in_multrow_cell := in_multrow_cell d; pict :=
     pict d; pict_in_table := pict_in_table d; pict_width := pict_width d;
     textmem := textmem d; head_line := head_line d; numcols := numcols d; currow
     := v; curcol := curcol d; colspan := colspan d; doline := doline d;
     skipfirst := skipfirst d; curcol_char := curcol_char d; tabcell := tabcell
     d; tabrow := tabrow d; tabmem := tabmem d; multcol_alph_counter :=
     multcol_alph_counter d; backend := backend d |}.

Definition set_curcol (v : Z) (d : LaTeXDoc) : LaTeXDoc :=
  {| in_table := in_table d; in_multrow_cell := in_multrow_cell d; pict :=
     pict d; pict_in_table := pict_in_table d; pict_width := pict_width d;
     textmem := textmem d; head_line := head_line d; numcols := numcols d; currow
     := currow d; curcol := v; colspan := colspan d; doline := doline d;
     skipfirst := skipfirst d; curcol_char := curcol_char d; tabcell := tabcell
     d; tabrow := tabrow d; tabmem := tabmem d; multcol_alph_counter :=
     multcol_alph_counter d; backend := backend d |}.

Definition set_colspan (v : Z) (d : LaTeXDoc) : LaTeXDoc :=
  {| in_table := in_table d; in_multrow_cell := in_multrow_cell d; pict :=
     pict d; pict_in_table := pict_in_table d; pict_width := pict_width d;
     textmem := textmem d; head_line := head_line d; numcols := numcols d; currow
     := currow d; curcol := curcol d; colspan := v; doline := doline d; skipfirst
     := skipfirst d; curcol_char := curcol_char d; tabcell := tabcell d; tabrow
     := tabrow d; tabmem := tabmem d; multcol_alph_counter :=
     multcol_alph_counter d; backend := backend d |}.

Definition set_doline (v : bool) (d : LaTeXDoc) : LaTeXDoc :=
  {| in_table := in_table d; in_multrow_cell := in_multrow_cell d; pict :=
     pict d; pict_in_table := pict_in_table d; pict_width := pict_width d;
     textmem := textmem d; head_line := head_line d; numcols := numcols d; currow
     := currow d; curcol := curcol d; colspan := colspan d; doline := v;
     skipfirst := skipfirst d; curcol_char := curcol_char d; tabcell := tabcell
     d; tabrow := tabrow d; tabmem := tabmem d; multcol_alph_counter :=
     multcol_alph_counter d; backend := backend d |}.

Definition set_skipfirst (v : bool) (d : LaTeXDoc) : LaTeXDoc :=
  {| in_table := in_table d; in_multrow_cell := in_multrow_cell d; pict :=
     pict d; pict_in_table := pict_in_table d; pict_width := pict_width d;
     textmem := textmem d; head_line := head_line d; numcols := numcols d; currow
     := currow d; curcol := curcol d; colspan := colspan d; doline := doline d;
     skipfirst := v; curcol_char := curcol_char d; tabcell := tabcell d; tabrow
     := tabrow d; tabmem := tabmem d; multcol_alph_counter :=
     multcol_alph_counter d; backend := backend d |}.

Definition set_curcol_char (v : string) (d : LaTeXDoc) : LaTeXDoc :=
  {| in_table := in_table d; in_multrow_cell := in_multrow_cell d; pict :=
     pict d; pict_in_table := pict_in_table d; pict_width := pict_width d;
     textmem := textmem d; head_line := head_line d; numcols := numcols d; currow
     := currow d; curcol := curcol d; colspan := colspan d; doline := doline d;
     skipfirst := skipfirst d; curcol_char := v; tabcell := tabcell d; tabrow :=
     tabrow d; tabmem := tabmem d; multcol_alph_counter := multcol_alph_counter
     d; backend := backend d |}.

Definition set_tabcell (v : option TabCell) (d : LaTeXDoc) : LaTeXDoc :=
  {| in_table := in_table d; in_multrow_cell := in_multrow_cell d; pict :=
     pict d; pict_in_table := pict_in_table d; pict_width := pict_width d;
     textmem := textmem d; head_line := head_line d; numcols := numcols d; currow
     := currow d; curcol := curcol d; colspan := colspan d; doline := doline d;
     skipfirst := skipfirst d; curcol_char := curcol_char d; tabcell := v; tabrow
     := tabrow d; tabmem := tabmem d; multcol_alph_counter :=
     multcol_alph_counter d; backend := backend d |}.

Definition set_tabrow (v : option TabRow) (d : LaTeXDoc) : LaTeXDoc :=
  {| in_table := in_table d; in_multrow_cell := in_multrow_cell d; pict :=
     pict d; pict_in_table := pict_in_table d; pict_width := pict_width d;
     textmem := textmem d; head_line := head_line d; numcols := numcols d; currow
     := currow d; curcol := curcol d; colspan := colspan d; doline := doline d;
     skipfirst := skipfirst d; curcol_char := curcol_char d; tabcell := tabcell
     d; tabrow := v; tabmem := tabmem d; multcol_alph_counter :=
     multcol_alph_counter d; backend := backend d |}.

Definition set_tabmem (v : option TabMem) (d : LaTeXDoc) : LaTeXDoc :=
  {| in_table := in_table d; in_multrow_cell := in_multrow_cell d; pict :=
     pict d; pict_in_table := pict_in_table d; pict_width := pict_width d;
     textmem := textmem d; head_line := head_line d; numcols := numcols d; currow
     := currow d; curcol := curcol d; colspan := colspan d; doline := doline d;
     skipfirst := skipfirst d; curcol_char := curcol_char d; tabcell := tabcell
     d; tabrow := tabrow d; tabmem := v; multcol_alph_counter :=
     multcol_alph_counter d; backend := backend d |}.

Definition set_multcol_alph_counter (v : str_incr_gen) (d : LaTeXDoc) : LaTeXDoc :=
  {| in_table := in_table d; in_multrow_cell := in_multrow_cell d; pict :=
     pict d; pict_in_table := pict_in_table d; pict_width := pict_width d;
     textmem := textmem d; head_line := head_line d; numcols := numcols d; currow
     := currow d; curcol := curcol d; colspan := colspan d; doline := doline d;
     skipfirst := skipfirst d; curcol_char := curcol_char d; tabcell := tabcell
     d; tabrow := tabrow d; tabmem := tabmem d; multcol_alph_counter := v;
     backend := backend d |}.

Definition set_backend (v : list Instr) (d : LaTeXDoc) : LaTeXDoc :=
  {| in_table := in_table d; in_multrow_cell := in_multrow_cell d; pict :=
     pict d; pict_in_table := pict_in_table d; pict_width := pict_width d;
     textmem := textmem d; head_line := head_line d; numcols := numcols d; currow
     := currow d; curcol := curcol d; colspan := colspan d; doline := doline d;
     skipfirst := skipfirst d; curcol_char := curcol_char d; tabcell := tabcell
     d; tabrow := tabrow d; tabmem := tabmem d; multcol_alph_counter :=
     multcol_alph_counter d; backend := v |}.

(** ** Methods as state transformers that may raise *)

Definition M (A : Type) : Type := LaTeXDoc -> result A * LaTeXDoc.

Definition ret {A} (a : A) : M A := fun d => (Ok a, d).

Definition bind {A B} (m : M A) (k : A -> M B) : M B :=
  fun d => match m d with
           | (Ok a, d') => k a d'
           | (Raise e, d') => (Raise e, d')
           end.

Definition raise {A} (e : exn) : M A := fun d => (Raise e, d).
Definition lift {A} (r : result A) : M A := fun d => (r, d).
Definition read {A} (f : LaTeXDoc -> A) : M A := fun d => (Ok (f d), d).
Definition modify (f : LaTeXDoc -> LaTeXDoc) : M unit := fun d => (Ok tt, f d).

(** Reading an attribute that was never assigned raises [AttributeError]. *)
Definition attr {A} (f : LaTeXDoc -> option A) : M A :=
  fun d => match f d with
           | Some a => (Ok a, d)
           | None => (Raise AttributeError, d)
           end.

(** [self._backend.write(...)] *)
Definition write (i : Instr) : M unit :=
  modify (fun d => set_backend (backend d ++ [i]) d).

Declare Scope py_scope.
Delimit Scope py_scope with py.
Notation "x <- m ;; k" := (bind m (fun x => k))
  (at level 61, m at next level, right associativity) : py_scope.
Notation "m ;; k" := (bind m (fun _ => k))
  (at level 61, right associativity) : py_scope.
Local Open Scope py_scope.

(** [for x in l: body] *)
Fixpoint foreach {A} (l : list A) (body : A -> M unit) : M unit :=
  match l with
  | [] => ret tt
  | x :: xs => body x ;; foreach xs body
  end.

(** A loop that carries local variables [s]. *)
Fixpoint foldM {A S} (l : list A) (s : S) (body : S -> A -> M S) : M S :=
  match l with
  | [] => ret s
  | x :: xs => s' <- body s x ;; foldM xs s' body
  end.

(** [range(lo, hi)] *)
Definition py_range (lo hi : Z) : list Z :=
  map (fun i => lo + Z.of_nat i) (seq 0 (Z.to_nat (hi - lo))).

(** [l[i]] with Python's negative indices. *)
Definition py_index {A} (l : list A) (i : Z) : result A :=
  let n := Z.of_nat (List.length l) in
  let j := if i <? 0 then i + n else i in
  if (j <? 0) || (n <=? j) then Raise IndexError
  else match nth_error l (Z.to_nat j) with
       | Some a => Ok a
       | None => Raise IndexError
       end.

(** [max(l)] of a list of numbers; the message of the exception is that
    of CPython up to 3.11. *)
Definition py_max (l : list Z) : result Z :=
  match l with
  | [] => Raise (ValueError "max() arg is an empty sequence")
  | x :: xs => Ok (fold_left Z.max xs x)
  end.

(** [zip( *cols )]: as many tuples as the shortest column has entries. *)
Definition zip_star (cols : list (list string)) : list (list string) :=
  match cols with
  | [] => []
  | c :: cs =>
      let n := fold_left Nat.min (map (@List.length string) cs) (List.length c) in
      map (fun i => map (fun col => nth i col "") cols) (seq 0 n)
  end.

Fixpoint list_update {A} (l : list A) (n : nat) (f : A -> A) : list A :=
  match l, n with
  | [], _ => []
  | x :: xs, O => f x :: xs
  | x :: xs, S n' => x :: list_update xs n' f
  end.

Definition NL : string := String "010" "".
Definition DQ : string := String (ascii_of_nat 34) "".

(** *** The text of an instruction

    The two numbers that Python formats as floating-point or by the [repr]
    of an arbitrary value are left to the caller: [repr_recip n] stands
    for [repr(1.0/n)] and [repr_val v] for [repr(v)]. *)

Section Render.

Variable repr_recip : Z -> string.
Variable repr_val : pyval -> string.

Definition render (i : Instr) : string :=
  match i with
  | Raw text => text
  | GrInitTab n =>
      PyStr.join0 ["\grinittab{\textwidth}{"; repr_recip n; "}%"; NL]
  | AddToTabWidth w =>
      PyStr.join0 ["\addtolength{\grtabwidth}{-"; repr_val w;
                   "\grbaseindent -2\tabcolsep}%"; NL]
  | SetPictSize w =>
      PyStr.join0 ["\setlength{\grpictsize}{"; w; "\grbaseindent}%"; NL]
  | GrTextNeedWidth part =>
      PyStr.join0 ["\grtextneedwidth{"; part; "}%"; NL]
  | GrSetReqFull => PyStr.join0 ["\grsetreqfull%"; NL]
  | GrSetReqPart b =>
      PyStr.join0 ["\grsetreqpart{\grcolbeg"; b; "}%"; NL]
  | GrColsFirstFix c =>
      PyStr.join0 ["\grcolsfirstfix"; " {\grcolbeg"; c; "}{\grtempwidth"; c;
                   "}{\grfinalwidth"; c; "}{\grpictreq"; c; "}{\grtextreq"; c;
                   "}%"; NL]
  | GrDivideLength => PyStr.join0 ["\grdividelength%"; NL]
  | GrColsSecondFix c =>
      PyStr.join0 ["\grcolssecondfix"; " {\grcolbeg"; c; "}{\grtempwidth"; c;
                   "}{\grfinalwidth"; c; "}{\grpictreq"; c; "}%"; NL]
  | GrColsThirdFix c =>
      PyStr.join0 ["\grcolsthirdfix"; " {\grcolbeg"; c; "}{\grtempwidth"; c;
                   "}{\grfinalwidth"; c; "}%"; NL]
  | GrColsFourthFix c =>
      PyStr.join0 ["\grcolsfourthfix"; " {\grcolbeg"; c; "}{\grtempwidth"; c;
                   "}{\grfinalwidth"; c; "}%"; NL]
  | GrGetSpanWidth id b c =>
      PyStr.join0 ["\grgetspanwidth{"; "\grspanwidth"; id; "}{\grcolbeg"; b;
                   "}{\grcolbeg"; c; "}{\grtempwidth"; c; "}%"; NL]
  end.

(** The whole text that the backend holds. *)
Definition backend_text (out : list Instr) : string :=
  PyStr.join0 (map render out).

End Render.

(** [next(self.multcol_alph_counter)] *)
Definition next_multcol_id : M string :=
  fun d => let (r, g) := gen_next (multcol_alph_counter d) in
           (r, set_multcol_alph_counter g d).

Definition set_content (v : string) (c : TabCell) : TabCell :=
  mkCell (c_colchar c) (c_span c) (c_head c) v.
Definition set_head (v : string) (c : TabCell) : TabCell :=
  mkCell (c_colchar c) (c_span c) v (c_content c).
Definition set_cells (v : list TabCell) (r : TabRow) : TabRow :=
  mkRow v (r_tail r) (r_addit r).
Definition set_tail (v : string) (r : TabRow) : TabRow :=
  mkRow (r_cells r) v (r_addit r).
Definition set_addit (v : string) (r : TabRow) : TabRow :=
  mkRow (r_cells r) (r_tail r) v.
Definition set_rows (v : list TabRow) (m : TabMem) : TabMem :=
  mkMem (m_head m) (m_tail m) v.
Definition set_mtail (v : string) (m : TabMem) : TabMem :=
  mkMem (m_head m) v (m_rows m).

(** [self.tabmem.rows.append(row)] *)
Definition append_row (row : TabRow) : M unit :=
  mem <- attr tabmem ;;
  modify (set_tabmem (Some (set_rows (m_rows mem ++ [row]) mem))).

(** [self.tabrow.cells.append(cell)] *)
Definition append_cell (cell : TabCell) : M unit :=
  row <- attr tabrow ;;
  modify (set_tabrow (Some (set_cells (r_cells row ++ [cell]) row))).

(** ** [LaTeXDoc.repack_row] *)

Definition PICT_MARK : string := "\grmkpicture".

(** [cell.content.strip(SEPARATION_PAT).replace('\n', '').split(SEPARATION_PAT)] *)
Definition bare_content (cell : TabCell) : result (list string) :=
  PyStr.split
    (PyStr.replace (PyStr.strip_chars (c_content cell) SEPARATION_PAT) NL "")
    SEPARATION_PAT.

Fixpoint map_result {A B} (f : A -> result B) (l : list A) : result (list B) :=
  match l with
  | [] => Ok []
  | x :: xs => rbind (f x) (fun y => rbind (map_result f xs) (fun ys => Ok (y :: ys)))
  end.

(** The body of [for i in range(first_cell, last_cell)]. *)
Definition repack_cell (transp_cont : list (list string)) (first_cell row : Z)
    (new_row : TabRow) (i : Z) : M TabRow :=
  col_char <- lift (get_charform (i + first_cell)) ;;
  old_row <- attr tabrow ;;
  old <- lift (py_index (r_cells old_row) i) ;;
  transp_row <- lift (py_index transp_cont row) ;;
  cont <- lift (py_index transp_row (i + first_cell)) ;;
  ret (set_cells (r_cells new_row ++
         [mkCell col_char (c_span old) (c_head old) cont]) new_row).

(** The body of [for row in range(num_new_rows)]. *)
Definition repack_new_row (transp_cont : list (list string))
    (first_cell last_cell : Z) (row : Z) : M unit :=
  new_row <- foldM (py_range first_cell last_cell) new_TabRow
               (repack_cell transp_cont first_cell row) ;;
  old_row <- attr tabrow ;;
  append_row (set_addit "" (set_tail (r_tail old_row) new_row)).

Definition repack_row : M unit :=
  (* if last col empty: delete *)
  row <- attr tabrow ;;
  last <- lift (py_index (r_cells row) (-1)) ;;
  (if String.eqb (c_content last) ""
   then modify (set_tabrow (Some (set_cells (removelast (r_cells row)) row))) ;;
        n <- read numcols ;;
        modify (set_numcols (n - 1))
   else ret tt) ;;
  (* extract cell.contents *)
  row <- attr tabrow ;;
  bare_contents <- lift (map_result bare_content (r_cells row)) ;;
  (* mk equal length & transpose *)
  num_new_rows <- lift (py_max (map (fun mrc => Z.of_nat (List.length mrc)) bare_contents)) ;;
  let cols_equ_len :=
    map (fun mrc : list string =>
           (mrc ++ repeat "" (Z.to_nat (num_new_rows - Z.of_nat (List.length mrc))))%list)
        bare_contents in
  let transp_cont := zip_star cols_equ_len in
  (* picts? extract *)
  let first_cell := 0 in
  last_cell <- read numcols ;;
  pit <- read pict_in_table ;;
  last_cell <-
    (if pit
     then row0 <- lift (py_index transp_cont 0) ;;
          cand <- lift (py_index row0 (-1)) ;;
          lc <- (if PyStr.startswith cand PICT_MARK
                 then modify (set_pict cand) ;;
                      n <- read numcols ;;
                      modify (set_numcols (n - 1)) ;;
                      pw <- read pict_width ;;
                      write (AddToTabWidth pw) ;;
                      ret (last_cell - 1)
                 else ret last_cell) ;;
          modify (set_pict_in_table false) ;;
          ret lc
     else ret last_cell) ;;
  (* new row-col structure *)
  foreach (py_range 0 num_new_rows) (repack_new_row transp_cont first_cell last_cell) ;;
  row <- attr tabrow ;;
  mem <- attr tabmem ;;
  last_row <- lift (py_index (m_rows mem) (-1)) ;;
  modify (set_tabmem (Some (set_rows
            (removelast (m_rows mem) ++ [set_addit (r_addit row) last_row]) mem))) ;;
  modify (set_in_multrow_cell false).

(** ** [LaTeXDoc.calc_latex_widths] *)

(** [row.cells[col_num].content = v] for the row at position [r] of
    [self.tabmem.rows].  The cell is changed in the table memory only; in
    the source, [self.tabcell] and the cells of [self.tabrow] change with
    it when they are the same object.  The attributes [tabcell] and
    [tabrow] of the record behind such an assignment therefore stand for
    nothing in the source, and no property is stated of them there. *)
Definition assign_content (r : nat) (col_num : Z) (v : string) : M unit :=
  mem <- attr tabmem ;;
  modify (set_tabmem (Some (set_rows
    (list_update (m_rows mem) r
       (fun row => set_cells
          (list_update (r_cells row) (Z.to_nat col_num) (set_content v)) row))
    mem))).

(** The column in which a cell that ends in column [colchar] and spans
    [span] columns begins:
    [get_charform(get_numform(cell.colchar) - cell.span + 1)]. *)
Definition span_beg_char (cell : TabCell) : result string :=
  rbind (get_numform (c_colchar cell))
        (fun k => get_charform (k - c_span cell + 1)).

(** The body of [for row in self.tabmem.rows], for the row at position [r]. *)
Definition measure_cell (col_num : Z) (r : nat) : M unit :=
  mem <- attr tabmem ;;
  row <- lift (py_index (m_rows mem) (Z.of_nat r)) ;;
  cell <- lift (py_index (r_cells row) col_num) ;;
  if c_span cell =? 0 then ret tt
  else
    (if PyStr.startswith (c_content cell) PICT_MARK
     then pw <- read pict_width ;;
          match pw with
          | PyStr w => write (SetPictSize w)
          | PyInt _ => raise TypeError
          end
     else parts <- lift (PyStr.split (c_content cell) SEPARATION_PAT) ;;
          foreach parts (fun part => write (GrTextNeedWidth part)) ;;
          assign_content r col_num
            (PyStr.replace (c_content cell) SEPARATION_PAT
               (String.append "~\newline " NL))) ;;
    (if c_span cell =? 1 then write GrSetReqFull
     else if c_span cell >? 1
          then beg <- lift (span_beg_char cell) ;;
               write (GrSetReqPart beg)
          else ret tt).

(** The body of [for col_num in range(self.numcols)]; the letter it returns
    is the one appended to [tabcol_chars]. *)
Definition measure_column (tabcol_chars : list string) (col_num : Z) : M (list string) :=
  col_char <- lift (get_charform col_num) ;;
  mem <- attr tabmem ;;
  foreach (seq 0 (List.length (m_rows mem))) (measure_cell col_num) ;;
  write (GrColsFirstFix col_char) ;;
  ret (tabcol_chars ++ [col_char])%list.

(** The body of the inner loop of the span pass. *)
Definition span_width (cell : TabCell) : M unit :=
  if c_span cell >? 1
  then multcol_alph_id <- next_multcol_id ;;
       beg <- lift (span_beg_char cell) ;;
       write (GrGetSpanWidth multcol_alph_id beg (c_colchar cell))
  else ret tt.

Definition calc_latex_widths : M unit :=
  n <- read numcols ;;
  tabcol_chars <- foldM (py_range 0 n) [] measure_column ;;
  write GrDivideLength ;;
  foreach tabcol_chars (fun col_char => write (GrColsSecondFix col_char)) ;;
  write GrDivideLength ;;
  foreach tabcol_chars (fun col_char => write (GrColsThirdFix col_char)) ;;
  write GrDivideLength ;;
  foreach tabcol_chars (fun col_char => write (GrColsFourthFix col_char)) ;;
  modify (set_multcol_alph_counter (str_incr MULTCOL_COUNT_BASE)) ;;
  mem <- attr tabmem ;;
  foreach (m_rows mem) (fun row => foreach (r_cells row) span_width).

(** ** [LaTeXDoc.write_table] and the two row renderings *)

Definition is_nil {A} (l : list A) : bool :=
  match l with [] => true | _ => false end.

(** The body of the loop of [mk_splitting_row]; the locals are
    [splitting] and [add_vdots]. *)
Definition splitting_cell (loc : list string * string) (cell : TabCell)
  : M (list string * string) :=
  let (splitting, add_vdots) := loc in
  if c_span cell =? 0 then ret loc
  else
    add_vdots <-
      (if is_nil splitting
       then k <- lift (get_numform (c_colchar cell)) ;;
            n <- read numcols ;;
            ret (if k =? n - 1 then "\graddvdots" else add_vdots)
       else ret add_vdots) ;;
    cell_width <-
      (if c_span cell =? 1
       then ret (PyStr.join0 ["\grtempwidth"; c_colchar cell])
       else id <- next_multcol_id ;;
            ret (PyStr.join0 ["\grspanwidth"; id])) ;;
    ret ((splitting ++
            [PyStr.join0 ["\grtabpgbreak{"; c_head cell; "}{"; cell_width;
                          "}{"; add_vdots; "}{+2ex}%"; NL]])%list,
         add_vdots).

Definition mk_splitting_row (row : TabRow) : M string :=
  loc <- foldM (r_cells row) ([], "\grempty") splitting_cell ;;
  ret (PyStr.join0 [PyStr.join " & " (fst loc); "%"; NL; r_tail row]).

Definition complete_cell (complete : list string) (cell : TabCell)
  : M (list string) :=
  if c_span cell =? 0 then ret complete
  else
    cell_width <-
      (if c_span cell =? 1
       then ret (PyStr.join0 ["\grtempwidth"; c_colchar cell])
       else id <- next_multcol_id ;;
            ret (PyStr.join0 ["\grspanwidth"; id])) ;;
    ret (complete ++
           [PyStr.join0 ["\grcolpart{%"; NL; "  "; c_head cell; "}{%"; NL;
                         cell_width; "}{%"; NL; "  "; c_content cell; "%"; NL;
                         "}%"; NL]])%list.

Definition mk_complete_row (row : TabRow) : M string :=
  complete <- foldM (r_cells row) [] complete_cell ;;
  ret (PyStr.join0 [PyStr.join " & " complete; "%"; NL; r_tail row; r_addit row]).

Definition write_table : M unit :=
  pict0 <- read pict ;;
  n <- read numcols ;;
  write (Raw (PyStr.join0
    ["%"; NL; pict0; "%"; NL; "%"; NL;
     "%  ==> Comment out one of the two lines ";
     "by a leading "; DQ; "%"; DQ; " (first position)"; NL;
     "{ \RaggedRight%      left align with hyphenation in table "; NL;
     "%{%                no left align in table "; NL; "%"; NL;
     "%  ==>  You may add pos or neg values ";
     "to the following "; PyStr.repr_int n; " column widths %"; NL])) ;;
  foreach (py_range 0 n) (fun col_num =>
    col_char <- lift (get_charform col_num) ;;
    write (Raw (PyStr.join0 ["\addtolength{\grtempwidth"; col_char;
                             "}{+0.0cm}%"; NL]))) ;;
  write (Raw (String.append "%  === %" NL)) ;;
  (* adjust & open table *)
  pict1 <- read pict ;;
  (if String.eqb pict1 "" then ret tt
   else write (Raw (PyStr.join0 ["%"; NL; "\vspace{\grtabprepos}%"; NL;
                                 "\setlength{\grtabprepos}{0ex}%"; NL])) ;;
        modify (set_pict "")) ;;
  mem <- attr tabmem ;;
  write (Raw (m_head mem)) ;;
  (* heading and closing at top and bottom of the table *)
  modify (set_multcol_alph_counter (str_incr MULTCOL_COUNT_BASE)) ;;
  first_row <- lift (py_index (m_rows mem) 0) ;;
  splitting_row <- mk_splitting_row first_row ;;
  modify (set_multcol_alph_counter (str_incr MULTCOL_COUNT_BASE)) ;;
  complete_row <- mk_complete_row first_row ;;
  write (Raw splitting_row) ;;
  write (Raw (String.append "\endhead%" NL)) ;;
  write (Raw (PyStr.replace splitting_row "{+2ex}" "{-2ex}")) ;;
  write (Raw (String.append "\endfoot%" NL)) ;;
  hl <- read head_line ;;
  (if hl
   then write (Raw (String.append "\hline%" NL)) ;; modify (set_head_line false)
   else write (Raw (String.append "%" NL))) ;;
  write (Raw complete_row) ;;
  write (Raw (String.append "\endfirsthead%" NL)) ;;
  write (Raw (String.append "\endlastfoot%" NL)) ;;
  (* hand over subsequent rows *)
  foreach (List.tl (m_rows mem)) (fun row =>
    text <- mk_complete_row row ;;
    write (Raw text)) ;;
  (* close table *)
  mem <- attr tabmem ;;
  write (Raw (PyStr.join0 [m_tail mem; "}%"; NL; NL])).

(** ** [LaTeXDoc.handle_table] and [LaTeXDoc.emit] *)

(** [re.sub(TBLFMT_PAT, '\\1c\\2', head)] with
    [TBLFMT_PAT = ({\|?)l(\|?})]: the pattern matches exactly the four
    texts listed, no two of them at one position. *)
Definition TBLFMT_ALTS : list (string * string) :=
  [ ("{|l|}", "{|c|}"); ("{|l}", "{|c}"); ("{l|}", "{c|}"); ("{l}", "{c}") ].

Fixpoint tblfmt_match (alts : list (string * string)) (s : string)
  : option (string * string) :=
  match alts with
  | [] => None
  | (pat, repl) :: rest =>
      if prefix pat s then Some (pat, repl) else tblfmt_match rest s
  end.

Fixpoint tblfmt_go (s : string) (skip : nat) : string :=
  match s with
  | "" => ""
  | String c rest =>
      match skip with
      | S k => tblfmt_go rest k
      | O => match tblfmt_match TBLFMT_ALTS s with
             | Some (pat, repl) =>
                 repl ++ tblfmt_go rest (String.length pat - 1)
             | None => String c (tblfmt_go rest 0)
             end
      end
  end.

Definition tblfmt_sub (head : string) : string := tblfmt_go head 0.

(** The integers from which [1.0/n] raises [OverflowError]: the conversion
    of [n] to a float rounds to the nearest double, and from
    [2**1024 - 2**970] on there is none. *)
Definition FLOAT_LIMIT : Z := 2 ^ 1024 - 2 ^ 970.

Definition handle_table (text : string) (tab_state : tab_event) (span : Z) : M unit :=
  match tab_state with
  | CELL_BEG =>
      (* here text is head *)
      modify (set_textmem []) ;;
      cc <- read curcol ;;
      curcol_char0 <- lift (get_charform (cc - 1)) ;;
      modify (set_curcol_char curcol_char0) ;;
      (if span >? 1             (* phantom columns prior to multicolumns *)
       then cc <- read curcol ;;
            foreach (py_range (cc - span) (cc - 1)) (fun col =>
              col_char <- lift (get_charform col) ;;
              append_cell (mkCell col_char 0 "" ""))
       else ret tt) ;;
      ch <- read curcol_char ;;
      modify (set_tabcell (Some (mkCell ch span text "")))
  | CELL_TEXT =>
      tm <- read textmem ;;
      modify (set_textmem (tm ++ [text])%list)
  | CELL_END =>                  (* text == '' *)
      cell <- attr tabcell ;;
      tm <- read textmem ;;
      let cell := set_content (PyStr.strip (PyStr.join0 tm)) cell in
      let cell :=
        if PyStr.contains (c_content cell) "\centering"
        then set_head (tblfmt_sub (c_head cell))
               (set_content (PyStr.replace (c_content cell) "\centering" "") cell)
        else cell in
      modify (set_tabcell (Some cell)) ;;
      append_cell cell ;;
      modify (set_textmem [])
  | ROW_BEG =>
      modify (set_tabrow (Some new_TabRow))
  | ROW_END =>
      row <- attr tabrow ;;
      modify (set_tabrow (Some (set_addit text row))) ;;   (* \hline, \cline{} *)
      tm <- read textmem ;;
      row <- attr tabrow ;;
      modify (set_tabrow (Some (set_tail (PyStr.join0 tm) row))) ;;
      mrc <- read in_multrow_cell ;;
      if mrc                     (* cols of rows: convert to rows of cols *)
      then repack_row
      else row <- attr tabrow ;; append_row row
  | TAB_BEG =>                   (* text: \begin{longtable}[l]{ *)
      n <- read numcols ;;
      (* 1.0/self.numcols *)
      (if n =? 0 then raise ZeroDivisionError
       else if FLOAT_LIMIT <=? Z.abs n then raise OverflowError
       else ret tt) ;;
      write (GrInitTab n) ;;
      modify (set_tabmem (Some (new_TabMem text)))
  | TAB_END =>                   (* text: \end{longtable} *)
      mem <- attr tabmem ;;
      modify (set_tabmem (Some (set_mtail text mem))) ;;
      (* table completed, calc widths and write out *)
      calc_latex_widths ;;
      write_table
  end.

(** [n * s] for a string [s] *)
Fixpoint str_times (n : nat) (s : string) : string :=
  match n with
  | O => ""
  | S k => s ++ str_times k s
  end.

(** [LaTeXBaseDoc.emit] *)
Definition base_emit (text : string) (level : Z) : M unit :=
  let text := if level =? 0 then text
              else str_times (Z.to_nat level) "  " ++ text in
  write (Raw text).

(** [LaTeXDoc.emit] *)
Definition emit (text : string) (level : Z) (tab_state : tab_event) (span : Z) : M unit :=
  let text := if level =? 0 then text
              else str_times (Z.to_nat level) "  " ++ text in
  it <- read in_table ;;
  if negb it                     (* all stuff but table *)
  then base_emit text level
  else handle_table text tab_state span.

(** ** The table part of the TextDoc interface

    The style sheet belongs to the host application; the methods take what
    they look up in it: the number of columns of the table style, and the
    four border attributes of the cell style.

    The signature is [emit(self, text, level=0, tab_state=CELL_TEXT,
    span=1)], and the methods below pass their arguments by position: the
    routing constant that a method writes behind the text is bound to
    [level], and [tab_state] keeps its default, except in [start_cell],
    whose third argument [span] is bound to [tab_state]. *)

(** The routing constants are [list(range(7))]. *)
Definition event_number (e : tab_event) : Z :=
  match e with
  | CELL_BEG => 0 | CELL_TEXT => 1 | CELL_END => 2 | ROW_BEG => 3
  | ROW_END => 4 | TAB_BEG => 5 | TAB_END => 6
  end.

(** The event that an integer is equal to, if there is one. *)
Definition event_of (n : Z) : option tab_event :=
  if n =? 0 then Some CELL_BEG
  else if n =? 1 then Some CELL_TEXT
  else if n =? 2 then Some CELL_END
  else if n =? 3 then Some ROW_BEG
  else if n =? 4 then Some ROW_END
  else if n =? 5 then Some TAB_BEG
  else if n =? 6 then Some TAB_END
  else None.

(** [emit] with any integer as [tab_state]: for an integer that is no
    routing constant, no comparison of [handle_table] holds and the call
    does nothing inside a table. *)
Definition emit_as (text : string) (level : Z) (tab_state : Z) (span : Z) : M unit :=
  match event_of tab_state with
  | Some e => emit text level e span
  | None =>
      let text := if level =? 0 then text
                  else str_times (Z.to_nat level) "  " ++ text in
      it <- read in_table ;;
      if negb it then base_emit text level else ret tt
  end.

Record CellStyle : Type := mkCellStyle {
  left_border : Z;
  right_border : Z;
  bottom_border : Z;
  top_border : Z
}.

(** [start_table]; the list [column_order] that it also builds is read
    nowhere in the table code and is left out.
    [self.emit('\\begin{longtable}[l]{%s}\n' % (tblfmt), TAB_BEG)] *)
Definition start_table (columns : Z) : M unit :=
  modify (set_in_table true) ;;
  modify (set_currow 0) ;;
  modify (set_numcols columns) ;;
  n <- read numcols ;;
  let tblfmt := PyStr.join0 ["*{"; PyStr.repr_int n; "}{l}"] in
  emit (PyStr.join0 ["\begin{longtable}[l]{"; tblfmt; "}"; NL])
       (event_number TAB_BEG) CELL_TEXT 1.

(** [self.emit('%\n\\end{longtable}%\n', TAB_END)] *)
Definition end_table : M unit :=
  emit (PyStr.join0 ["%"; NL; "\end{longtable}%"; NL])
       (event_number TAB_END) CELL_TEXT 1 ;;
  modify (set_in_table false).

(** [self.emit('', ROW_BEG)] *)
Definition start_row : M unit :=
  emit "" (event_number ROW_BEG) CELL_TEXT 1 ;;
  modify (set_doline false) ;;
  modify (set_skipfirst false) ;;
  modify (set_curcol 0) ;;
  r <- read currow ;;
  modify (set_currow (r + 1)).

(** [self.emit('\\\\ ')], then one of the three calls with [ROW_END] in
    the second place, then [self.emit('%\n')]. *)
Definition end_row : M unit :=
  emit "\\ " 0 CELL_TEXT 1 ;;
  dl <- read doline ;;
  (if dl
   then sf <- read skipfirst ;;
        if sf
        then n <- read numcols ;;
             emit (PyStr.join0 ["\cline{2-"; PyStr.repr_int n; "}"; "%"; NL])
                  (event_number ROW_END) CELL_TEXT 1
        else emit (String.append "\hline %" NL) (event_number ROW_END) CELL_TEXT 1
   else emit (String.append "%" NL) (event_number ROW_END) CELL_TEXT 1) ;;
  emit (String.append "%" NL) 0 CELL_TEXT 1.

(** [self.emit('\\multicolumn{%d}{%s}' % (span, cellfmt), CELL_BEG, span)] *)
Definition start_cell (cstyle : CellStyle) (span : Z) : M unit :=
  modify (set_colspan span) ;;
  cc <- read curcol ;;
  cs <- read colspan ;;
  modify (set_curcol (cc + cs)) ;;
  let lborder := left_border cstyle =? 1 in
  let rborder := right_border cstyle =? 1 in
  let bborder := bottom_border cstyle =? 1 in
  let tborder := negb (top_border cstyle =? 0) in
  let cellfmt := "l" in
  (* account for vertical rules *)
  let cellfmt := if lborder then "|" ++ cellfmt else cellfmt in
  let cellfmt := if rborder then cellfmt ++ "|" else cellfmt in
  (* and horizontal rules *)
  cc <- read curcol ;;
  (if bborder then modify (set_doline true)
   else if cc =? 1 then modify (set_skipfirst true) else ret tt) ;;
  (if tborder then modify (set_head_line true) else ret tt) ;;
  emit_as (PyStr.join0 ["\multicolumn{"; PyStr.repr_int span; "}{"; cellfmt; "}"])
          (event_number CELL_BEG) span 1.

(** [self.emit('', CELL_END)] *)
Definition end_cell : M unit :=
  emit "" (event_number CELL_END) CELL_TEXT 1.

(** A document on which [open] has run and nothing else. *)
Definition opened_doc : LaTeXDoc :=
  mkDoc false false "" false (PyInt 0) [] false 0 0 0 0 false false ""
        None None None (str_incr MULTCOL_COUNT_BASE) [].

(** ** The width macros of [_LATEX_TEMPLATE]

    The macros that the instructions of [calc_latex_widths] call, run on
    the length and counter registers they name.  A length is an integer
    number of scaled points. *)

Module TeX.

Inductive Reg : Type :=
(* \newlength *)
| grtabwidth | grreqwidth | grtempwd | grmaxwidth | grprorated | grxwd
| grwidthused | grreduce | grcurcolend | grpictsize | grmaxpictsize
| grtextsize | grmaxtextsize
(* \newcounter *)
| grtofixcnt | grxwdcolcnt
(* the lengths that \grinitlength creates per column letter or span id *)
| grcolbeg (c : string) | grtempwidth (c : string) | grfinalwidth (c : string)
| grpictreq (c : string) | grtextreq (c : string) | grspanwidth (id : string).

Definition Reg_eq_dec (a b : Reg) : {a = b} + {a <> b}.
Proof. decide equality; apply string_dec. Defined.

(** The register file; a length that was never set reads as 0. *)
Definition Regs : Type := Reg -> Z.

Definition wr (r : Reg) (v : Z) (s : Regs) : Regs :=
  fun r' => if Reg_eq_dec r r' then v else s r'.

(** What the typesetting engine contributes. *)
Record Engine : Type := mkEngine {
  textwidth : Z;                    (* \textwidth *)
  tabcolsep : Z;                    (* \tabcolsep *)
  settowidth : string -> Z;         (* the width \settowidth measures *)
  prorate : Z -> Z -> Z;            (* numcols, w: repr(1.0/numcols) times w *)
  baseindent_str : string -> Z;     (* the written factor times \grbaseindent *)
  baseindent_val : pyval -> Z       (* repr of the value times \grbaseindent *)
}.

(** A decimal fraction as TeX reads it: sixteen binary places. *)
Definition round_decimals (digits : list Z) : Z :=
  (fold_right (fun d a => (a + d * 131072) / 10) 0 digits + 1) / 2.

(** [0.ddd\len]: the fraction [0.ddd] of the length. *)
Definition scaled (digits : list Z) (len : Z) : Z :=
  Z.quot (len * round_decimals digits) 65536.

Section Macros.

Variable E : Engine.

(** \grinitlength{#1}{#2} *)
Definition grinitlength (r : Reg) (v : Z) (s : Regs) : Regs := wr r v s.

(** \grmaxvaltofirst{#1}{#2} *)
Definition grmaxvaltofirst (r : Reg) (v : Z) (s : Regs) : Regs :=
  if s r <? v then wr r v s else s.

(** \addtolength{#1}{#2} *)
Definition addtolength (r : Reg) (v : Z) (s : Regs) : Regs := wr r (s r + v) s.

(** \grinittab{#1}{#2} with #1 = \textwidth and #2 = 1.0/numcols *)
Definition grinittab (numcols : Z) (s : Regs) : Regs :=
  let s := wr grtabwidth (textwidth E) s in
  let s := wr grprorated (prorate E numcols (s grtabwidth)) s in
  let s := wr grwidthused 0 s in
  let s := wr grreqwidth 0 s in
  let s := wr grmaxwidth 0 s in
  let s := wr grxwd 0 s in
  let s := wr grtempwd 0 s in
  let s := wr grpictsize 0 s in
  let s := wr grmaxpictsize 0 s in
  let s := wr grtextsize 0 s in
  let s := wr grmaxtextsize 0 s in
  let s := wr grcurcolend 0 s in
  let s := wr grxwdcolcnt 0 s in
  let s := wr grtofixcnt 0 s in
  grinitlength (grcolbeg "a") 0 s.

(** \grsetreqfull *)
Definition grsetreqfull (s : Regs) : Regs :=
  let s := grmaxvaltofirst grmaxpictsize (s grpictsize) s in
  grmaxvaltofirst grmaxtextsize (s grtextsize) s.

(** \grsetreqpart{#1} *)
Definition grsetreqpart (r1 : Reg) (s : Regs) : Regs :=
  let s := addtolength grtextsize (s r1 - s grcurcolend) s in
  let s := addtolength grpictsize (s r1 - s grcurcolend) s in
  grsetreqfull s.

(** \grdividelength *)
Definition grdividelength (s : Regs) : Regs :=
  let s := wr grtempwd (s grtabwidth - s grwidthused) s in
  if s grtofixcnt >? 0
  then
    let n := s grtofixcnt in
    let s :=
      if n =? 1 then wr grxwd (s grtempwd) s
      else if n =? 2 then wr grxwd (scaled [5] (s grtempwd)) s
      else if n =? 3 then wr grxwd (scaled [3;3;3] (s grtempwd)) s
      else if n =? 4 then wr grxwd (scaled [2;5] (s grtempwd)) s
      else if n =? 5 then wr grxwd (scaled [2] (s grtempwd)) s
      else if n =? 6 then wr grxwd (scaled [1;6;6] (s grtempwd)) s
      else if n =? 7 then wr grxwd (scaled [1;4;3] (s grtempwd)) s
      else if n =? 8 then wr grxwd (scaled [1;2;5] (s grtempwd)) s
      else if n =? 9 then wr grxwd (scaled [1;1;1] (s grtempwd)) s
      else if n =? 10 then wr grxwd (scaled [1] (s grtempwd)) s
      else wr grxwd (s grprorated) s (* give up, take \grprorated *) in
    wr grreduce 0 s
  else wr grxwd 0 s.

(** \grtextneedwidth{#1} *)
Definition grtextneedwidth (part : string) (s : Regs) : Regs :=
  let s := wr grtempwd (settowidth E part) s in
  grmaxvaltofirst grtextsize (s grtempwd) s.

(** \grcolsfirstfix{#1}{#2}{#3}{#4}{#5} *)
Definition grcolsfirstfix (r1 r2 r3 r4 r5 : Reg) (s : Regs) : Regs :=
  let s := grinitlength r1 (s grcurcolend) s in
  let s := grinitlength r3 0 s in
  let s := grinitlength r4 (s grmaxpictsize) s in
  let s := grinitlength r5 (s grmaxtextsize) s in
  let s := grinitlength r2 (s r5) s in
  let s := grmaxvaltofirst r2 (s r4) s in
  let s := addtolength r2 (2 * tabcolsep E) s in
  let s := grmaxvaltofirst grmaxwidth (s r2) s in
  let s :=
    if (s r2 <? s r4) || (s r2 <? s grprorated)
    then let s := wr r3 (s r2) s in
         addtolength grwidthused (s r2) s
    else wr grtofixcnt (s grtofixcnt + 1) s in
  addtolength grcurcolend (s r2) s.

(** \grcolssecondfix{#1}{#2}{#3}{#4} *)
Definition grcolssecondfix (r1 r2 r3 r4 : Reg) (s : Regs) : Regs :=
  if s grcurcolend <? s grtabwidth
  then wr r3 (s r2) s
  else
    let s := addtolength r1 (- s grreduce) s in
    if s r2 =? s grmaxwidth
    then wr grxwdcolcnt (s grxwdcolcnt + 1) s
    else if (s r3 =? 0) && (s r4 >? 0)
         then
           let s := wr grtempwd (s r4) s in
           let s := grmaxvaltofirst grtempwd (s grxwd) s in
           let s := addtolength grreduce (s r2 - s grtempwd) s in
           let s := wr r2 (s grtempwd) s in
           let s := addtolength grwidthused (s r2) s in
           let s := wr grtofixcnt (s grtofixcnt + -1) s in
           wr r3 (s r2) s
         else s.

(** \grcolsthirdfix{#1}{#2}{#3} *)
Definition grcolsthirdfix (r1 r2 r3 : Reg) (s : Regs) : Regs :=
  if s grcurcolend <? s grtabwidth
  then s
  else
    let s := addtolength r1 (- s grreduce) s in
    if (s r3 =? 0) && (s r2 <? s grmaxwidth)
    then
      let s :=
        if s r2 <? scaled [5] (s grmaxwidth)
        then let s := wr grtempwd (scaled [5] (s grxwd)) s in
             grmaxvaltofirst grtempwd (scaled [7] (s grprorated)) s
        else wr grtempwd (s grxwd) s in
      let s := addtolength grreduce (s r2 - s grtempwd) s in
      let s := wr r2 (s grtempwd) s in
      let s := addtolength grwidthused (s r2) s in
      let s := wr grtofixcnt (s grtofixcnt + -1) s in
      wr r3 (s r2) s
    else s.

(** \grcolsfourthfix{#1}{#2}{#3} *)
Definition grcolsfourthfix (r1 r2 r3 : Reg) (s : Regs) : Regs :=
  if s grcurcolend <? s grtabwidth
  then s
  else
    let s := addtolength r1 (- s grreduce) s in
    if s r3 =? 0
    then
      let s := addtolength grreduce (s r2 - s grxwd) s in
      let s := wr r2 (s grxwd) s in
      wr r3 (s r2) s
    else s.

(** \grgetspanwidth{#1}{#2}{#3}{#4} *)
Definition grgetspanwidth (r1 r2 r3 r4 : Reg) (s : Regs) : Regs :=
  grinitlength r1 (s r3 - s r2 + s r4) s.

(** One written instruction, with the arguments the source writes.  The
    text of a [Raw] write is not a width macro and is not run here. *)
Definition exec (i : Instr) (s : Regs) : Regs :=
  match i with
  | Raw _ => s
  | GrInitTab n => grinittab n s
  | AddToTabWidth w =>
      addtolength grtabwidth (- baseindent_val E w - 2 * tabcolsep E) s
  | SetPictSize w => wr grpictsize (baseindent_str E w) s
  | GrTextNeedWidth part => grtextneedwidth part s
  | GrSetReqFull => grsetreqfull s
  | GrSetReqPart b => grsetreqpart (grcolbeg b) s
  | GrColsFirstFix c =>
      grcolsfirstfix (grcolbeg c) (grtempwidth c) (grfinalwidth c)
                     (grpictreq c) (grtextreq c) s
  | GrDivideLength => grdividelength s
  | GrColsSecondFix c =>
      grcolssecondfix (grcolbeg c) (grtempwidth c) (grfinalwidth c) (grpictreq c) s
  | GrColsThirdFix c =>
      grcolsthirdfix (grcolbeg c) (grtempwidth c) (grfinalwidth c) s
  | GrColsFourthFix c =>
      grcolsfourthfix (grcolbeg c) (grtempwidth c) (grfinalwidth c) s
  | GrGetSpanWidth id b c =>
      grgetspanwidth (grspanwidth id) (grcolbeg b) (grcolbeg c) (grtempwidth c) s
  end.

(** The instructions in the order in which they were written. *)
Definition run (prog : list Instr) (s : Regs) : Regs :=
  fold_left (fun s i => exec i s) prog s.

(** The sum of the final widths of the columns [cols]. *)
Definition sum_final (cols : list string) (s : Regs) : Z :=
  fold_right (fun c acc => s (grfinalwidth c) + acc) 0 cols.

End Macros.

End TeX.

(** ** Vocabulary of the statements *)

Definition ALPHABET : string := "abcdefghijklmnopqrstuvwxyz".

(** The letter of a zero-based column index. *)
Definition letter (i : Z) : string :=
  match String.get (Z.to_nat i) ALPHABET with
  | Some c => String c ""
  | None => ""
  end.

(** The number of identifiers of three letters. *)
Definition CAPACITY : nat := 26 * 26 * 26.

(** [start], [start + 1], ...: [n] numbers. *)
Fixpoint count_from (n : nat) (start : N) : list N :=
  match n with
  | O => []
  | S n' => start :: count_from n' (N.succ start)
  end.

(** The three-letter numeral of [k] in base 26, with the digits a..z. *)
Definition id_of (k : N) : string :=
  letter (Z.of_N (k / 676)) ++ letter (Z.of_N ((k / 26) mod 26))
  ++ letter (Z.of_N (k mod 26)).

Definition digit_of (c : ascii) : N := N_of_ascii c - 97.

Definition decode_id (s : string) : N :=
  match s with
  | String c2 (String c1 (String c0 "")) =>
      (676 * digit_of c2 + 26 * digit_of c1 + digit_of c0)%N
  | _ => 0%N
  end.

(** The dictionary of the seven characters that [latexescape] names. *)
Definition lookup7 : list (ascii * string) := firstn 7 Escape.lookup.

(** Every character of [s] satisfies [p]. *)
Fixpoint all_chars (p : ascii -> bool) (s : string) : bool :=
  match s with
  | "" => true
  | String c rest => p c && all_chars p rest
  end.

(** Each character replaced by a text of its own. *)
Fixpoint subst_chars (f : ascii -> string) (s : string) : string :=
  match s with
  | "" => ""
  | String c rest => f c ++ subst_chars f rest
  end.

Definition dict_fun (d : list (ascii * string)) (c : ascii) : string :=
  match Escape.lookup_get d c with
  | Some v => v
  | None => String c ""
  end.

(** The first seven statements of [latexescape]. *)
Definition seven_replaces (text : string) : string :=
  let text := PyStr.replace text "&" "\&" in
  let text := PyStr.replace text "$" "\$" in
  let text := PyStr.replace text "%" "\%" in
  let text := PyStr.replace text "#" "\#" in
  let text := PyStr.replace text "_" "\_" in
  let text := PyStr.replace text "{" "\{" in
  PyStr.replace text "}" "\}".


(** Not a tilde, a caret or a backslash. *)
Definition no_tilde_caret_backslash (c : ascii) : bool :=
  negb (PyStr.mem_char c "~^\").



(** A method that writes nothing, whatever its outcome. *)
Definition silent {A} (m : M A) : Prop :=
  forall d, backend (snd (m d)) = backend d.


(** *** Vocabulary of repacking *)

Definition no_cell : TabCell := mkCell "" 0 "" "".

(** The sub-values of a cell of a multi-row row: its content without the
    separators at its ends and without line feeds, cut at the separator. *)
Definition sub_values (cell : TabCell) : list string :=
  PyStr.split_go SEPARATION_PAT
    (PyStr.replace (PyStr.strip_chars (c_content cell) SEPARATION_PAT) NL "")
    0 "".




(** The largest number of sub-values of a cell. *)
Definition max_sub_values (cells : list TabCell) : nat :=
  list_max (map (fun c => List.length (sub_values c)) cells).

(** A sequence of sub-values filled up to [n] entries at its end. *)
Definition bottom_padded (n : nat) (subs : list string) : list string :=
  subs ++ repeat "" (n - List.length subs).










(** The padded columns, transposed. *)
Definition transposed_contents (cells : list TabCell) : list (list string) :=
  zip_star (map (fun c => bottom_padded (max_sub_values cells) (sub_values c)) cells).








(** *** Vocabulary of the width negotiation *)

(** The instructions of the four passes. *)
Definition is_fix (i : Instr) : bool :=
  match i with
  | GrColsFirstFix _ | GrDivideLength | GrColsSecondFix _
  | GrColsThirdFix _ | GrColsFourthFix _ => true
  | _ => false
  end.

(** The four passes over the columns [cols], each of the last three behind
    one \grdividelength. *)
Definition four_passes (cols : list string) : list Instr :=
  (map GrColsFirstFix cols ++ [GrDivideLength] ++
   map GrColsSecondFix cols ++ [GrDivideLength] ++
   map GrColsThirdFix cols ++ [GrDivideLength] ++
   map GrColsFourthFix cols)%list.

(** The letters of the columns 0 .. n-1. *)
Definition column_letters (n : Z) : list string := map letter (py_range 0 n).

Definition is_str (v : pyval) : bool :=
  match v with PyStr _ => true | PyInt _ => false end.

(** A cell that [calc_latex_widths] can handle: if it holds a picture,
    [pict_width] is a text; if it spans several columns, the column in
    which it begins has a letter. *)
Definition cell_ok (pw : pyval) (c : TabCell) : bool :=
  ((c_span c =? 0) || negb (PyStr.startswith (c_content c) PICT_MARK) || is_str pw)
  && ((c_span c <=? 1) || is_ok (span_beg_char c)).

Definition is_multicol (c : TabCell) : bool := c_span c >? 1.

(** The cells of the table that span several columns. *)
Definition multicols (rows : list TabRow) : list TabCell :=
  filter is_multicol (List.concat (map r_cells rows)).

Definition row_ok (n : Z) (pw : pyval) (row : TabRow) : bool :=
  (n <=? Z.of_nat (List.length (r_cells row))) && forallb (cell_ok pw) (r_cells row).

(** A buffered table that [calc_latex_widths] can handle: at most 26
    columns, every row with a cell for every column, every cell as above,
    and no more cells that span several columns than there are
    identifiers. *)
Definition table_ok (d : LaTeXDoc) : bool :=
  match tabmem d with
  | None => false
  | Some mem =>
      (numcols d <=? 26)
      && forallb (row_ok (numcols d) (pict_width d)) (m_rows mem)
      && (List.length (multicols (m_rows mem)) <=? CAPACITY)%nat
  end.

(** The generator after [j] identifiers were taken. *)
Definition gen_after (j : nat) : str_incr_gen :=
  snd (gen_take j (str_incr MULTCOL_COUNT_BASE)).

(** The table of two rows and two columns of the end-to-end scenario, at
    the moment the table-end event arrives. *)
Definition two_by_two : LaTeXDoc :=
  set_numcols 2 (set_in_table true (set_tabmem (Some (mkMem "" ""
    [mkRow [mkCell "a" 1 "{l}" "x1"; mkCell "b" 1 "{l}" "y1"] "\\ " "";
     mkRow [mkCell "a" 1 "{l}" "x2"; mkCell "b" 1 "{l}" "y2"] "\\ " ""]))
    opened_doc)).

Definition rows_count (d : LaTeXDoc) : nat :=
  match tabmem d with
  | Some mem => List.length (m_rows mem)
  | None => O
  end.

(** The instructions that measure the cells of a column. *)
Definition is_measure (i : Instr) : bool :=
  match i with
  | SetPictSize _ | GrTextNeedWidth _ | GrSetReqFull | GrSetReqPart _ => true
  | _ => false
  end.

(** The instructions of the first pass. *)
Definition is_pass1 (i : Instr) : bool :=
  match i with
  | GrColsFirstFix _ => true
  | _ => is_measure i
  end.

(** The instruction of the span pass. *)
Definition is_span (i : Instr) : bool :=
  match i with
  | GrGetSpanWidth _ _ _ => true
  | _ => false
  end.

(** From [d] to [d']: the table stays one that can be handled, with the
    same column count, picture width and number of rows; what was written
    are instructions of the kind [Q], and the instructions of the four
    passes among them are [fixes]. *)
Definition emits_fixes (Q : Instr -> bool) (d d' : LaTeXDoc) (fixes : list Instr)
  : Prop :=
  table_ok d' = true /\
  numcols d' = numcols d /\
  pict_width d' = pict_width d /\
  rows_count d' = rows_count d /\
  exists out,
    backend d' = (backend d ++ out)%list /\
    filter is_fix out = fixes /\
    forallb Q out = true.

(** The rows after [row.cells[col].content = v] on the row at position [r]. *)
Definition retouch (r : nat) (col : nat) (v : string) (rows : list TabRow) : list TabRow :=
  list_update rows r
    (fun row => set_cells (list_update (r_cells row) col (set_content v)) row).


(** The passes that follow the first one. *)
Definition later_passes (cols : list string) : list Instr :=
  ([GrDivideLength] ++ map GrColsSecondFix cols ++
   [GrDivideLength] ++ map GrColsThirdFix cols ++
   [GrDivideLength] ++ map GrColsFourthFix cols)%list.

(** *** Vocabulary of the macro runs *)

(** The registers that a measurement writes. *)
Definition measure_reg (r : TeX.Reg) : bool :=
  match r with
  | TeX.grtempwd | TeX.grtextsize | TeX.grpictsize
  | TeX.grmaxpictsize | TeX.grmaxtextsize => true
  | _ => false
  end.

(** The instructions behind the first pass. *)
Definition is_later (i : Instr) : bool :=
  match i with
  | GrDivideLength | GrColsSecondFix _ | GrColsThirdFix _
  | GrColsFourthFix _ | GrGetSpanWidth _ _ _ => true
  | _ => false
  end.

(** The instructions of the fourth pass and behind it. *)
Definition is_last (i : Instr) : bool :=
  match i with
  | GrColsFourthFix _ | GrGetSpanWidth _ _ _ => true
  | _ => false
  end.

(** The sum of the required widths of the columns [cols]. *)
Definition sum_temp (cols : list string) (s : TeX.Regs) : Z :=
  fold_right (fun c acc => s (TeX.grtempwidth c) + acc) 0 cols.

(** The requirements of the columns stay below the table width. *)
Definition fits (s : TeX.Regs) : Prop :=
  s TeX.grcurcolend < s TeX.grtabwidth.

(** The passes up to the third \grdividelength. *)
Definition three_passes (cols : list string) : list Instr :=
  ([GrDivideLength] ++ map GrColsSecondFix cols ++
   [GrDivideLength] ++ map GrColsThirdFix cols ++ [GrDivideLength])%list.

(** *** A sample engine and sample tables *)

(** One printer's point in scaled points. *)
Definition pt : Z := 65536.

(** The first [k] decimals of [num/den]. *)
Fixpoint decimals (k : nat) (num den : Z) : list Z :=
  match k with
  | O => []
  | S k' => (num * 10 / den) :: decimals k' (num * 10 mod den) den
  end.

(** An engine with a text width of 345pt, 6pt between columns and five
    points of width per character; [1.0/n] is the factor 1 for one column
    and is read from its first seventeen decimals otherwise. *)
Definition demo_engine : TeX.Engine :=
  TeX.mkEngine (345 * pt) (6 * pt)
    (fun text => 5 * pt * Z.of_nat (String.length text))
    (fun n w => if n =? 1 then w else TeX.scaled (decimals 17 1 n) w)
    (fun _ => 0) (fun _ => 0).

Definition plain_style : CellStyle := mkCellStyle 0 0 0 0.

(** A text of a hundred letters, 500pt wide for [demo_engine]. *)
Definition wide_text : string :=
  str_times 10 "xxxxxxxxxx".

(** The table events of one text cell, each sent with [emit] under the
    event's own name: the cell of column [col] (counted from 1) begins,
    takes [text] and ends.  [curcol] is set as [handle_table] reads it. *)
Definition cell_events (col : Z) (text : string) : M unit :=
  modify (set_curcol col) ;;
  emit "\multicolumn{1}{l}" 0 CELL_BEG 1 ;;
  emit text 0 CELL_TEXT 1 ;;
  emit "" 0 CELL_END 1.

Fixpoint cells_events (col : Z) (texts : list string) : M unit :=
  match texts with
  | [] => ret tt
  | text :: texts => cell_events col text ;; cells_events (col + 1) texts
  end.

(** The events of a table of one row, from [TAB_BEG] to [TAB_END], for a
    document in table mode with as many columns as there are texts. *)
Definition table_events (texts : list string) : M unit :=
  modify (set_in_table true) ;;
  modify (set_numcols (Z.of_nat (List.length texts))) ;;
  emit (String.append "\begin{longtable}[l]{l}" NL) 0 TAB_BEG 1 ;;
  emit "" 0 ROW_BEG 1 ;;
  cells_events 1 texts ;;
  emit "\\ " 0 CELL_TEXT 1 ;;
  emit (String.append "%" NL) 0 ROW_END 1 ;;
  emit (PyStr.join0 ["%"; NL; "\end{longtable}%"; NL]) 0 TAB_END 1.

(** The events of a table of one row whose cells all hold [wide_text]. *)
Definition wide_events (columns : nat) : M unit :=
  table_events (repeat wide_text columns).

(** The events of a table of one row with two short cells. *)
Definition narrow_events : M unit :=
  table_events ["x1"; "y1"].

(** All registers at zero. *)
Definition zero_regs : TeX.Regs := fun _ => 0.

(** ** Font size table and function ([latexbasedoc.py]) *)

Definition _FONT_SIZES : list Z := [6; 8; 10; 12; 14; 16; 18; 20; 22].
Definition _FONT_NAMES : list string :=
  ["tiny"; "scriptsize"; "footnotesize"; "small"; "";
   "large"; "Large"; "LARGE"; "huge"; "Huge"].

(** The loop of [bisect.bisect] (that is [bisect_right]) of the standard
    library: [while lo < hi: mid = (lo+hi)//2; if x < a[mid]: hi = mid;
    else: lo = mid+1].  The distance [hi - lo] shrinks in every round, so
    [hi - lo] rounds are enough; [mid] is always a position of [a]. *)
Fixpoint bisect_loop (rounds : nat) (a : list Z) (x : Z) (lo hi : nat) : nat :=
  match rounds with
  | O => lo
  | S k =>
      if (lo <? hi)%nat
      then let mid := ((lo + hi) / 2)%nat in
           if x <? nth mid a 0
           then bisect_loop k a x lo mid
           else bisect_loop k a x (S mid) hi
      else lo
  end.

Definition bisect (a : list Z) (x : Z) : nat :=
  bisect_loop (List.length a) a x 0 (List.length a).

(** [map_font_size]: font size in points to LaTeX font size. *)
Definition map_font_size (fontsize : Z) : result string :=
  py_index _FONT_NAMES (Z.of_nat (bisect _FONT_SIZES fontsize)).

(** The name of the band of sizes in which [fontsize] lies, as the comment
    above the two tables gives them. *)
Definition band_name (fontsize : Z) : string :=
  if fontsize <? 6 then "tiny"
  else if fontsize <? 8 then "scriptsize"
  else if fontsize <? 10 then "footnotesize"
  else if fontsize <? 12 then "small"
  else if fontsize <? 14 then ""
  else if fontsize <? 16 then "large"
  else if fontsize <? 18 then "Large"
  else if fontsize <? 20 then "LARGE"
  else if fontsize <? 22 then "huge"
  else "Huge".

(** ** [LaTeXBackend._checkfilename] *)

(** [s.endswith(suffix)] *)
Definition endswith (s suffix : string) : bool :=
  (String.length suffix <=? String.length s)%nat &&
  String.eqb (substring (String.length s - String.length suffix)
                        (String.length suffix) s) suffix.

(** The file name that [_checkfilename] leaves in [self._filename]. *)
Definition _checkfilename (filename : string) : string :=
  if negb (endswith filename ".tex") then filename ++ ".tex" else filename.

(** ** Vocabulary of the further statements *)

(** The value of a numeral with the digits a..z, the first digit the most
    significant. *)
Fixpoint numeral_value (lili : list ascii) : N :=
  match lili with
  | [] => 0%N
  | c :: rest => (digit_of c * 26 ^ N.of_nat (List.length rest) + numeral_value rest)%N
  end.

Definition is_lower (c : ascii) : bool :=
  ((97 <=? nat_of_ascii c) && (nat_of_ascii c <=? 122))%nat.

(** Every line feed of [s] stands behind a space; [prev_space] tells
    whether a space stands before [s]. *)
Fixpoint lf_after_space (prev_space : bool) (s : string) : bool :=
  match s with
  | "" => true
  | String c rest =>
      (if Ascii.eqb c "010" then prev_space else true)
      && lf_after_space (Ascii.eqb c " ") rest
  end.

(** Reads a text that [escape] produced back: a backslash begins the
    representation of one reserved character; [skip] counts the characters
    of the representation that are still to be passed over. *)
Fixpoint unescape (s : string) (skip : nat) : string :=
  match s with
  | "" => ""
  | String c rest =>
      match skip with
      | S k => unescape rest k
      | O =>
          if Ascii.eqb c "\"
          then match rest with
               | "" => String c ""
               | String x _ =>
                   if PyStr.mem_char x "&%$#_{}" then String x (unescape rest 1)
                   else if PyStr.mem_char x "~^" then String x (unescape rest 3)
                   else String "\" (unescape rest 15)
               end
          else String c (unescape rest 0)
      end
  end.

(** The text that [latexescapeverbatim] puts in the place of a line feed,
    and the pattern that its last statement looks for. *)
Definition LF_TEXT : string := String.append "~\newline " NL.
Definition HSPACE_PAT : string := String.append "\newline" (String "010" "\ ").

(** *** What a method leaves alone *)

(** A method that leaves the observation [f] of the document as it was,
    whatever its outcome. *)
Definition keeps {A X} (f : LaTeXDoc -> X) (m : M A) : Prop :=
  forall d, f (snd (m d)) = f d.

(** The attributes of the document apart from the table memory, the
    identifier generator, the backend, and the current cell and row.  The
    current cell and row are left out because the source holds them by
    reference: [self.tabcell] is the last cell that was put into a row and
    [self.tabrow] the last row that was put into the table, so a content
    that [calc_latex_widths] rewrites in the table is rewritten in them as
    well, while the record here holds them by value. *)
Definition flags (d : LaTeXDoc) :=
  (in_table d, in_multrow_cell d, pict d, pict_in_table d, pict_width d,
   textmem d, head_line d, numcols d,
   (currow d, curcol d, colspan d, doline d, skipfirst d, curcol_char d)).

(** A cell as the rendering sees it after the widths were calculated: its
    letter, span and head, and its content with every separation pattern
    replaced by the line break ([LF_TEXT] is also the text that
    [calc_latex_widths] puts there). *)
Definition cell_view (c : TabCell) : string * Z * string * string :=
  (c_colchar c, c_span c, c_head c,
   PyStr.replace (c_content c) SEPARATION_PAT LF_TEXT).

Definition row_view (r : TabRow) : list (string * Z * string * string) * string * string :=
  (map cell_view (r_cells r), r_tail r, r_addit r).

Definition mem_view (m : TabMem) :=
  (m_head m, m_tail m, map row_view (m_rows m)).

Definition table_view (d : LaTeXDoc) :=
  option_map mem_view (tabmem d).

(** *** Vocabulary of the rendering of a table *)

(** Every cell but a placeholder is rendered. *)
Definition visible (c : TabCell) : bool := negb (c_span c =? 0).

(** The cells for which the rendering takes an identifier: those whose
    span is neither 0 nor 1. *)
Definition is_wide (c : TabCell) : bool :=
  negb (c_span c =? 0) && negb (c_span c =? 1).

(** The cells of a row, each with the number of identifiers taken before
    it, counted from [j]. *)
Fixpoint numbered (j : nat) (cells : list TabCell) : list (TabCell * nat) :=
  match cells with
  | [] => []
  | c :: cs => (c, j) :: numbered (if is_wide c then S j else j) cs
  end.

(** The identifier with the number [k]. *)
Definition nth_id (k : nat) : string := id_of (N.of_nat k).

(** The name of the length that holds the width of a cell. *)
Definition width_name (p : TabCell * nat) : string :=
  if c_span (fst p) =? 1
  then PyStr.join0 ["\grtempwidth"; c_colchar (fst p)]
  else PyStr.join0 ["\grspanwidth"; nth_id (snd p)].

(** The instruction of the span pass for a numbered cell. *)
Definition span_instr (p : TabCell * nat) : Instr :=
  GrGetSpanWidth (nth_id (snd p))
    (match span_beg_char (fst p) with Ok b => b | Raise _ => "" end)
    (c_colchar (fst p)).

(** The part of a complete row for a numbered cell. *)
Definition complete_part (p : TabCell * nat) : string :=
  PyStr.join0 ["\grcolpart{%"; NL; "  "; c_head (fst p); "}{%"; NL;
               width_name p; "}{%"; NL; "  "; c_content (fst p); "%"; NL;
               "}%"; NL].

(** The part of a splitting row for a numbered cell. *)
Definition splitting_part (add_vdots : string) (p : TabCell * nat) : string :=
  PyStr.join0 ["\grtabpgbreak{"; c_head (fst p); "}{"; width_name p;
               "}{"; add_vdots; "}{+2ex}%"; NL].

Definition visible_numbered (j : nat) (cells : list TabCell) : list (TabCell * nat) :=
  filter (fun p => visible (fst p)) (numbered j cells).

(** The text of a complete row whose identifiers are counted from [j]. *)
Definition complete_text (j : nat) (row : TabRow) : string :=
  PyStr.join0 [PyStr.join " & " (map complete_part (visible_numbered j (r_cells row)));
               "%"; NL; r_tail row; r_addit row].

(** The mark of a splitting row: vertical dots are added when the first
    cell that is rendered ends in the last column. *)
Definition vdots_mark (n : Z) (cells : list TabCell) : string :=
  match filter visible cells with
  | c :: _ =>
      match get_numform (c_colchar c) with
      | Ok k => if k =? n - 1 then "\graddvdots" else "\grempty"
      | Raise _ => "\grempty"
      end
  | [] => "\grempty"
  end.

Definition splitting_text (n : Z) (row : TabRow) : string :=
  PyStr.join0 [PyStr.join " & "
                 (map (splitting_part (vdots_mark n (r_cells row)))
                      (visible_numbered 0 (r_cells row)));
               "%"; NL; r_tail row].

(** The number of identifiers that a list of cells takes. *)
Definition wide_count (cells : list TabCell) : nat :=
  List.length (filter is_wide cells).

(** The complete rows of a table, the identifiers counted on from row to
    row. *)
Fixpoint complete_texts (j : nat) (rows : list TabRow) : list string :=
  match rows with
  | [] => []
  | row :: rest =>
      complete_text j row :: complete_texts (j + wide_count (r_cells row)) rest
  end.

(** A cell that the rendering can handle: its span is not negative and its
    letter is one character. *)
Definition cell_renderable (c : TabCell) : bool :=
  (0 <=? c_span c) && is_ok (get_numform (c_colchar c)).

Definition all_cells (d : LaTeXDoc) : list TabCell :=
  match tabmem d with
  | Some mem => List.concat (map r_cells (m_rows mem))
  | None => []
  end.

(** A buffered table that [write_table] can handle: at most 26 columns, at
    least one row, cells as above, and no more cells that take an
    identifier than there are identifiers. *)
Definition renderable (d : LaTeXDoc) : bool :=
  (numcols d <=? 26) && (0 <? rows_count d)%nat
  && forallb cell_renderable (all_cells d)
  && (wide_count (all_cells d) <=? CAPACITY)%nat.

(** What [write_table] writes for the table [mem] of [n] columns. *)
Definition table_text (n : Z) (pict0 : string) (hl : bool) (mem : TabMem) : list Instr :=
  match m_rows mem with
  | [] => []
  | first_row :: rest =>
      ([Raw (PyStr.join0
          ["%"; NL; pict0; "%"; NL; "%"; NL;
           "%  ==> Comment out one of the two lines ";
           "by a leading "; DQ; "%"; DQ; " (first position)"; NL;
           "{ \RaggedRight%      left align with hyphenation in table "; NL;
           "%{%                no left align in table "; NL; "%"; NL;
           "%  ==>  You may add pos or neg values ";
           "to the following "; PyStr.repr_int n; " column widths %"; NL])]
       ++ map (fun col => Raw (PyStr.join0 ["\addtolength{\grtempwidth"; letter col;
                                            "}{+0.0cm}%"; NL])) (py_range 0 n)
       ++ [Raw (String.append "%  === %" NL)]
       ++ (if String.eqb pict0 "" then []
           else [Raw (PyStr.join0 ["%"; NL; "\vspace{\grtabprepos}%"; NL;
                                   "\setlength{\grtabprepos}{0ex}%"; NL])])
       ++ [Raw (m_head mem);
           Raw (splitting_text n first_row);
           Raw (String.append "\endhead%" NL);
           Raw (PyStr.replace (splitting_text n first_row) "{+2ex}" "{-2ex}");
           Raw (String.append "\endfoot%" NL);
           Raw (if hl then String.append "\hline%" NL else String.append "%" NL);
           Raw (complete_text 0 first_row);
           Raw (String.append "\endfirsthead%" NL);
           Raw (String.append "\endlastfoot%" NL)]
       ++ map Raw (complete_texts (wide_count (r_cells first_row)) rest)
       ++ [Raw (PyStr.join0 [m_tail mem; "}%"; NL; NL])])%list
  end.

(** The instructions of the span pass for the rows of a table, the
    identifiers counted on from row to row. *)
Fixpoint span_instrs (j : nat) (rows : list TabRow) : list Instr :=
  match rows with
  | [] => []
  | row :: rest =>
      (map span_instr (filter (fun p => is_wide (fst p)) (numbered j (r_cells row)))
       ++ span_instrs (j + wide_count (r_cells row)) rest)%list
  end.

(** No cell of the table has a negative span. *)
Definition spans_nonneg (d : LaTeXDoc) : bool :=
  forallb (fun c => 0 <=? c_span c) (all_cells d).

(** The text of the table-end event. *)
Definition TABLE_END_TEXT : string :=
  PyStr.join0 ["%"; NL; "\end{longtable}%"; NL].

(** The head of a table of [n] columns, as [start_table] makes it. *)
Definition TABLE_HEAD (n : Z) : string :=
  PyStr.join0 ["\begin{longtable}[l]{";
               PyStr.join0 ["*{"; PyStr.repr_int n; "}{l}"]; "}"; NL].

(** A document in table mode with [n] columns on which the table-begin
    event has arrived; the table has no row yet. *)
Definition begun_table (n : Z) : LaTeXDoc :=
  snd (emit (TABLE_HEAD n) 0 TAB_BEG 1
         (set_numcols n (set_in_table true opened_doc))).

(** A table of two columns at the moment the table-end event arrives:
    the cell of the second row spans both columns and stands behind its
    placeholder. *)
Definition spanned_table : LaTeXDoc :=
  set_numcols 2 (set_in_table true (set_tabmem (Some (mkMem "" ""
    [mkRow [mkCell "a" 1 "{l}" "x1"; mkCell "b" 1 "{l}" "y1"] "\\ " "";
     mkRow [mkCell "a" 0 "" ""; mkCell "b" 2 "{l}" "x2"] "\\ " ""]))
    opened_doc)).

(** *** Vocabulary of tables built with the methods of the interface *)

(** One use of the cell methods: [start_cell(style, span)], the texts
    written into the cell, [end_cell]. *)
Record CellCall : Type := mkCall {
  cc_style : CellStyle;
  cc_span : Z;
  cc_texts : list string
}.

Definition cell_method (c : CellCall) : M unit :=
  start_cell (cc_style c) (cc_span c) ;;
  foreach (cc_texts c) (fun t => emit t 0 CELL_TEXT 1) ;;
  end_cell.

(** One row: [start_row], the cells, [end_row]. *)
Definition row_method (calls : list CellCall) : M unit :=
  start_row ;; foreach calls cell_method ;; end_row.

(** A whole table: [start_table], the rows, [end_table]. *)
Definition table_method (n : Z) (rows : list (list CellCall)) : M unit :=
  start_table n ;; foreach rows row_method ;; end_table.

(** The column format that [start_cell] makes of the borders. *)
Definition cell_format (st : CellStyle) : string :=
  let cellfmt := "l" in
  let cellfmt := if left_border st =? 1 then "|" ++ cellfmt else cellfmt in
  if right_border st =? 1 then cellfmt ++ "|" else cellfmt.

Definition cell_head (c : CellCall) : string :=
  PyStr.join0 ["\multicolumn{"; PyStr.repr_int (cc_span c); "}{";
               cell_format (cc_style c); "}"].

(** [start_cell] passes the span in the place of [tab_state].  A span is
    quiet when this sends no event of its own: 1 is the constant
    [CELL_TEXT], the text of a cell, and a number below 0 or above 6 is no
    routing constant at all.  The spans 0 and 2 to 6 are the constants
    [CELL_BEG] and [CELL_END] to [TAB_END]. *)
Definition quiet_span (sp : Z) : bool := (sp =? 1) || (sp <? 0) || (6 <? sp).

(** The texts that one use of the cell methods with a quiet span appends
    to the text memory: the head of the cell when the span is 1, the
    texts of the cell, and the two levels of indentation that [end_cell]
    sends. *)
Definition cell_texts (c : CellCall) : list string :=
  ((if cc_span c =? 1 then [cell_head c] else [])
   ++ cc_texts c ++ [str_times 2 "  "])%list.

Definition has_bottom (c : CellCall) : bool := bottom_border (cc_style c) =? 1.
Definition has_top (c : CellCall) : bool := negb (top_border (cc_style c) =? 0).

(** Whether the rule below the row leaves the first column out: a cell
    without bottom border ends in the first column.  [col] is the column
    cursor before the calls. *)
Fixpoint skips_first (col : Z) (calls : list CellCall) : bool :=
  match calls with
  | [] => false
  | c :: cs =>
      (negb (has_bottom c) && (col + cc_span c =? 1))
      || skips_first (col + cc_span c) cs
  end.

(** The rule that [end_row] chooses for the row. *)
Definition row_rule (n : Z) (calls : list CellCall) : string :=
  if existsb has_bottom calls
  then if skips_first 0 calls
       then PyStr.join0 ["\cline{2-"; PyStr.repr_int n; "}"; "%"; NL]
       else String.append "\hline %" NL
  else String.append "%" NL.

(** The document after one use of the cell methods with a quiet span. *)
Definition after_cell (c : CellCall) (d : LaTeXDoc) : LaTeXDoc :=
  let col' := curcol d + cc_span c in
  set_textmem (textmem d ++ cell_texts c)
    (set_head_line (head_line d || has_top c)
    (set_skipfirst (skipfirst d || (negb (has_bottom c) && (col' =? 1)))
    (set_doline (doline d || has_bottom c)
    (set_curcol col' (set_colspan (cc_span c) d))))).

(** The texts that the methods of one row append to the text memory of a
    table of [n] columns: the three levels of indentation of [start_row],
    the texts of the cells, and from [end_row] the row termination, the
    rule behind four levels of indentation, and the end of the line. *)
Definition row_texts (n : Z) (calls : list CellCall) : list string :=
  ([str_times 3 "  "] ++ flat_map cell_texts calls
   ++ ["\\ "; String.append (str_times 4 "  ") (row_rule n calls);
       String.append "%" NL])%list.

(** The texts that the methods of a whole table append to the text
    memory: the opening of the longtable behind five levels of
    indentation, the texts of the rows, and the closing behind six. *)
Definition table_texts (n : Z) (rows : list (list CellCall)) : list string :=
  ([String.append (str_times 5 "  ") (TABLE_HEAD n)] ++ flat_map (row_texts n) rows
   ++ [String.append (str_times 6 "  ") TABLE_END_TEXT])%list.

(** *** Vocabulary of the widths of spanning cells *)

(** The columns [cols] lie side by side from the position [x]: each one
    begins where the one before it ends. *)
Fixpoint chain_from (s : TeX.Regs) (x : Z) (cols : list string) : bool :=
  match cols with
  | [] => true
  | c :: rest =>
      (s (TeX.grcolbeg c) =? x) && chain_from s (x + s (TeX.grtempwidth c)) rest
  end.

(** What the later passes take from the begin of a column: nothing when
    the requirements fit, and the reduction so far otherwise. *)
Definition begin_shift (s : TeX.Regs) : Z :=
  if s TeX.grcurcolend <? s TeX.grtabwidth then 0 else s TeX.grreduce.

(** The two letters that the span pass names for a cell: the column in
    which the cell begins and the column in which it ends. *)
Definition cell_ends (c : TabCell) : string * string :=
  (match span_beg_char c with Ok b => b | Raise _ => "" end, c_colchar c).

(** The instructions of the span pass for cells with the given letters,
    the identifiers counted from [j]. *)
Fixpoint place_instrs (j : nat) (places : list (string * string)) : list Instr :=
  match places with
  | [] => []
  | p :: rest => GrGetSpanWidth (nth_id j) (fst p) (snd p) :: place_instrs (S j) rest
  end.

Definition is_raw (i : Instr) : bool :=
  match i with Raw _ => true | _ => false end.

(** The three macros of the later passes. *)
Definition later_fix (F : string -> Instr) : Prop :=
  F = GrColsSecondFix \/ F = GrColsThirdFix \/ F = GrColsFourthFix.

(** The width that \grcolsfirstfix would require for a column now: the
    larger one of the text size and the picture size so far, and the
    padding on both sides. *)
Definition requirement (E : TeX.Engine) (s : TeX.Regs) : Z :=
  Z.max (s TeX.grmaxtextsize) (s TeX.grmaxpictsize) + 2 * TeX.tabcolsep E.

(** The cell in row [r] and column [k] of the buffered table. *)
Definition cell_at (d : LaTeXDoc) (r k : nat) : option TabCell :=
  match tabmem d with
  | None => None
  | Some mem =>
      match nth_error (m_rows mem) r with
      | None => None
      | Some row => nth_error (r_cells row) k
      end
  end.

(** Whatever the lengths hold before, the instructions [out] leave a
    requirement of [bound] at least for the column that is fixed next. *)
Definition covers_requirement (E : TeX.Engine) (bound : Z) (out : list Instr) : Prop :=
  forall s, bound <= requirement E (TeX.run E out s).

(** Whatever the lengths hold before, the instructions [out] leave the
    column [c] a required width of [bound] at least. *)
Definition covers_width (E : TeX.Engine) (bound : Z) (c : string) (out : list Instr)
  : Prop :=
  forall s, bound <= TeX.run E out s (TeX.grtempwidth c).

(** The column format of a centered cell with the borders of the style. *)
Definition centered_format (st : CellStyle) : string :=
  let cellfmt := "c" in
  let cellfmt := if left_border st =? 1 then "|" ++ cellfmt else cellfmt in
  if right_border st =? 1 then cellfmt ++ "|" else cellfmt.

(** A character of the decimal numeral of an integer. *)
Definition is_numeral_char (c : ascii) : bool :=
  let n := nat_of_ascii c in
  ((48 <=? n) && (n <=? 57))%nat || (n =? 45)%nat.

(** The final width of the column [c] is not set yet, or it is the width
    kept for the column. *)
Definition unset_or_set (c : string) (s : TeX.Regs) : Prop :=
  s (TeX.grfinalwidth c) = 0 \/ s (TeX.grfinalwidth c) = s (TeX.grtempwidth c).

(** The final width of the column [c] is the width kept for the column. *)
Definition is_set (c : string) (s : TeX.Regs) : Prop :=
  s (TeX.grfinalwidth c) = s (TeX.grtempwidth c).

(** * Properties *)

(** ** Column letters and identifiers *)

Lemma small_cases (i : Z) :
  0 <= i <= 25 -> In i (map Z.of_nat (seq 0 26)).
Proof.
  intros H. apply in_map_iff. exists (Z.to_nat i). split; [lia|].
  apply in_seq. lia.
Qed.

Lemma get_charform_letter (i : Z) :
  0 <= i <= 25 -> get_charform i = Ok (letter i).
Proof.
  intros H. apply small_cases in H. cbv [seq map] in H.
  repeat (destruct H as [<- | H]; [reflexivity|]). destruct H.
Qed.

Lemma get_charform_over (i : Z) :
  25 < i ->
  get_charform i = Raise (ValueError (PyStr.join0
    [String "010" " number of table columns is "; PyStr.repr_int i;
     String "010" "                     should be <= "; "25"])).
Proof.
  intros H. unfold get_charform.
  replace (i >? ord_z - ord_a) with true; [reflexivity|].
  symmetry. apply Z.gtb_lt. unfold ord_z, ord_a. lia.
Qed.

(** X23: For a zero-based column index, [get_charform] raises -- a
    [ValueError] whose message names the index -- exactly when the index
    exceeds 25, and returns the letter a..z of the index otherwise. *)
Theorem get_charform_capacity (col_num : Z) (H : 0 <= col_num) :
  (is_value_error (get_charform col_num) = true <-> 25 < col_num) /\
  (is_ok (get_charform col_num) = false <-> 25 < col_num) /\
  (25 < col_num ->
     get_charform col_num = Raise (ValueError (PyStr.join0
       [String "010" " number of table columns is "; PyStr.repr_int col_num;
        String "010" "                     should be <= "; "25"]))) /\
  (col_num <= 25 -> get_charform col_num = Ok (letter col_num)).
Proof.
  destruct (Z_le_gt_dec col_num 25) as [Hle | Hgt].
  - rewrite (get_charform_letter col_num) by lia. cbn.
    repeat split; intros; try lia; try discriminate.
  - rewrite (get_charform_over col_num) by lia. cbn.
    repeat split; intros; try lia; try reflexivity.
Qed.

Lemma get_charform_capacity_witness :
  0 <= 26 /\ is_value_error (get_charform 26) = true /\ get_charform 3 = Ok "d".
Proof.
  split; [lia|]. split.
  - apply (proj1 (get_charform_capacity 26 ltac:(lia))). lia.
  - apply (proj2 (proj2 (proj2 (get_charform_capacity 3 ltac:(lia))))). lia.
Defined.

(** C7: a table of 27 columns, built with the methods of the document
    interface: [start_table] returns, and so do the row and cell methods
    and [end_table]; no error is raised and nothing is written.  The test
    of the column count that the docstring of [get_charform] places in
    [start_table] is not there, and the methods pass the event in the
    place of the level of [emit], so that [get_charform] is not called. *)
Theorem table_of_27_columns_raises_nothing :
  fst (start_table 27 opened_doc) = Ok tt /\
  fst (table_method 27 [repeat (mkCall plain_style 1 ["x"]) 27] opened_doc) = Ok tt /\
  backend (snd (table_method 27 [repeat (mkCall plain_style 1 ["x"]) 27] opened_doc))
  = [].
Proof. vm_compute. repeat split. Qed.

(** C9: decoding the letter of a column index 0..25 returns the index,
    and encoding the number of one of the letters a..z returns the
    letter: the two functions are inverse to each other on this range. *)
Theorem charform_numform_roundtrip (i : Z) (H : 0 <= i <= 25) :
  rbind (get_charform i) get_numform = Ok i /\
  rbind (get_numform (letter i)) get_charform = Ok (letter i).
Proof.
  apply small_cases in H. cbv [seq map] in H.
  repeat (destruct H as [<- | H]; [split; reflexivity|]). destruct H.
Qed.

Lemma charform_numform_roundtrip_witness :
  rbind (get_charform 25) get_numform = Ok 25 /\
  rbind (get_numform "z") get_charform = Ok "z".
Proof. apply (charform_numform_roundtrip 25). lia. Defined.

Lemma count_from_bound n :
  forall s x, In x (count_from n s) -> (s <= x)%N.
Proof.
  induction n; intros s x; cbn; [tauto|].
  intros [<- | H]; [lia|]. apply IHn in H. lia.
Qed.

Lemma count_from_NoDup n : forall s, NoDup (count_from n s).
Proof.
  induction n; intros s; cbn; constructor; auto.
  intros H. apply count_from_bound in H. lia.
Qed.

Lemma count_from_length n : forall s, List.length (count_from n s) = n.
Proof. induction n; intros; cbn; auto. Qed.

Lemma str_incr_ids :
  gen_take CAPACITY (str_incr MULTCOL_COUNT_BASE)
  = (Ok (map id_of (count_from CAPACITY 0)),
     GenYield (list_ascii_of_string "zzz")).
Proof. vm_compute. reflexivity. Qed.

Lemma decode_ids :
  map decode_id (map id_of (count_from CAPACITY 0)) = count_from CAPACITY 0.
Proof. vm_compute. reflexivity. Qed.

(** C8: started from ['aaa'], [str_incr] delivers 17576 identifiers, all
    different, in base-26 order from ['aaa'] to ['zzz']; the request after
    the last one raises [ValueError]. *)
Theorem str_incr_capacity :
  exists ids g,
    gen_take CAPACITY (str_incr MULTCOL_COUNT_BASE) = (Ok ids, g) /\
    ids = map id_of (count_from CAPACITY 0) /\
    Z.of_nat (List.length ids) = 17576 /\
    NoDup ids /\
    hd "" ids = "aaa" /\ last ids "" = "zzz" /\
    is_value_error (fst (gen_next g)) = true /\
    is_value_error (fst (gen_take (S CAPACITY) (str_incr MULTCOL_COUNT_BASE))) = true.
Proof.
  exists (map id_of (count_from CAPACITY 0)), (GenYield (list_ascii_of_string "zzz")).
  split; [exact str_incr_ids|]. split; [reflexivity|].
  split; [rewrite length_map, count_from_length; reflexivity|].
  split.
  { apply (NoDup_map_inv decode_id). rewrite decode_ids. apply count_from_NoDup. }
  split; [reflexivity|].
  split; [vm_compute; reflexivity|].
  split; [reflexivity|].
  vm_compute. reflexivity.
Qed.

(** ** Escaping *)

Section EscapeFacts.

Import Escape.

Lemma append_assoc_s (a b c : string) : (a ++ b) ++ c = a ++ (b ++ c).
Proof. induction a; cbn; congruence. Qed.

Lemma pattern_sub_subst d s : pattern_sub d s = subst_chars (dict_fun d) s.
Proof.
  induction s as [|c s IH]; cbn; [reflexivity|].
  unfold dict_fun. destruct (lookup_get d c); cbn; rewrite IH; reflexivity.
Qed.

Lemma subst_chars_app f a b :
  subst_chars f (a ++ b) = subst_chars f a ++ subst_chars f b.
Proof.
  induction a as [|c a IH]; cbn; [reflexivity|].
  rewrite IH, append_assoc_s. reflexivity.
Qed.

Lemma subst_chars_comp f g s :
  subst_chars g (subst_chars f s) = subst_chars (fun c => subst_chars g (f c)) s.
Proof.
  induction s as [|c s IH]; cbn; [reflexivity|].
  rewrite subst_chars_app, IH. reflexivity.
Qed.

Lemma subst_chars_ext f g s :
  (forall c, f c = g c) -> subst_chars f s = subst_chars g s.
Proof. intros E. induction s; cbn; congruence. Qed.

(** Replacing one character is a substitution of characters. *)
Lemma replace_char c new s :
  PyStr.replace s (String c "") new
  = subst_chars (fun x => if Ascii.eqb c x then new else String x "") s.
Proof.
  unfold PyStr.replace.
  induction s as [|x s IH]; [reflexivity|].
  cbn [PyStr.replace_go subst_chars prefix String.length Nat.sub].
  destruct (Ascii.eqb_spec c x) as [->|Hne].
  - destruct (ascii_dec x x) as [_|N]; [|congruence].
    rewrite IH. destruct s; reflexivity.
  - destruct (ascii_dec c x) as [E|_]; [congruence|].
    rewrite IH. reflexivity.
Qed.

Ltac each_char c :=
  destruct c as [[] [] [] [] [] [] [] []].

Lemma seven_replaces_subst text :
  seven_replaces text = pattern_sub lookup7 text.
Proof.
  unfold seven_replaces. rewrite !replace_char, !subst_chars_comp, pattern_sub_subst.
  apply subst_chars_ext. intros c. each_char c; reflexivity.
Qed.

Lemma latexescape_subst text :
  latexescape text
  = PyStr.replace (pattern_sub lookup7 text) ARROW "$\longrightarrow$".
Proof. rewrite <- seven_replaces_subst. reflexivity. Qed.

(** The output of [escape] is accepted by the scanner. *)
Lemma escape_scan text : scan Plain (pattern_sub lookup text) = true.
Proof.
  induction text as [|c text IH]; [reflexivity|].
  each_char c; exact IH.
Qed.

Lemma seven_scan text :
  all_chars (fun c => negb (PyStr.mem_char c "~^\")) text = true ->
  scan Plain (pattern_sub lookup7 text) = true.
Proof.
  induction text as [|c text IH]; [reflexivity|].
  cbn [all_chars]. intros H. apply andb_prop in H. destruct H as [Hc Ht].
  specialize (IH Ht). revert Hc.
  each_char c; intros Hc; try discriminate Hc; exact IH.
Qed.

(** A pattern that does not occur is not replaced. *)
Lemma replace_go_absent old new s :
  PyStr.contains s old = false -> PyStr.replace_go old new s 0 = s.
Proof.
  induction s as [|c s IH]; [reflexivity|].
  cbn [PyStr.contains PyStr.replace_go]. intros H.
  apply orb_false_iff in H. destruct H as [Hp Hc].
  rewrite Hp, (IH Hc). reflexivity.
Qed.

(** What the seven replacements make of a first character. *)
Lemma sub7_cons x s :
  pattern_sub lookup7 (String x s) = String x (pattern_sub lookup7 s) \/
  (reserved x = true /\
   pattern_sub lookup7 (String x s)
   = String "\" (String x (pattern_sub lookup7 s))).
Proof. each_char x; first [left; reflexivity | right; split; reflexivity]. Qed.

Lemma prefix_unreserved c p x t :
  negb (reserved c) = true -> reserved x = true ->
  prefix (String c p) (String x t) = false.
Proof.
  intros Hc Hx. cbn [prefix]. destruct (ascii_dec c x) as [->|]; [|reflexivity].
  rewrite Hx in Hc. discriminate Hc.
Qed.

(** Escaping creates no occurrence of a text that has no reserved
    character. *)
Lemma prefix_sub7 p :
  all_chars (fun c => negb (reserved c)) p = true ->
  forall s, prefix p (pattern_sub lookup7 s) = true -> prefix p s = true.
Proof.
  induction p as [|c p IH]; intros Hp s; [destruct s; reflexivity|].
  cbn [all_chars] in Hp. apply andb_prop in Hp. destruct Hp as [Hc Hp].
  destruct s as [|x s]; [cbn; discriminate|].
  destruct (sub7_cons x s) as [-> | [Hx ->]].
  - cbn [prefix]. destruct (ascii_dec c x); [|discriminate]. apply IH, Hp.
  - rewrite (prefix_unreserved c p "\" _ Hc eq_refl). discriminate.
Qed.

Lemma contains_sub7 p s :
  all_chars (fun c => negb (reserved c)) p = true ->
  PyStr.contains s p = false -> PyStr.contains (pattern_sub lookup7 s) p = false.
Proof.
  intros Hp. induction s as [|x s IH]; [intros H; exact H|].
  intros H. cbn [PyStr.contains] in H. apply orb_false_iff in H.
  destruct H as [Hpre Hc]. specialize (IH Hc).
  assert (Hn : prefix p (pattern_sub lookup7 (String x s)) = false).
  { destruct (prefix p (pattern_sub lookup7 (String x s))) eqn:E; [|reflexivity].
    apply (prefix_sub7 p Hp) in E. congruence. }
  destruct p as [|c p]; [discriminate Hpre|].
  cbn [all_chars] in Hp. apply andb_prop in Hp. destruct Hp as [Hc' _].
  destruct (sub7_cons x s) as [E | [Hx E]]; rewrite E in Hn |- *.
  - cbn [PyStr.contains]. rewrite Hn, IH. reflexivity.
  - cbn [PyStr.contains]. rewrite Hn, IH, (prefix_unreserved c p x _ Hc' Hx).
    reflexivity.
Qed.

(** C5 (as amended): [escape] rewrites each of the ten reserved characters
    and its output has no unescaped reserved character; [latexescape]
    rewrites the seven characters & $ % # _ { } only (and the arrow), so
    its output has no unescaped reserved character when the input has no
    tilde, caret, backslash or arrow. *)
Theorem escaping_reserved (text : string) :
  escape text = subst_chars (dict_fun lookup) text /\
  well_escaped (escape text) = true /\
  latexescape text
  = PyStr.replace (subst_chars (dict_fun lookup7) text) ARROW "$\longrightarrow$" /\
  (all_chars no_tilde_caret_backslash text = true ->
   PyStr.contains text ARROW = false ->
   latexescape text = subst_chars (dict_fun lookup7) text /\
   well_escaped (latexescape text) = true).
Proof.
  split; [apply pattern_sub_subst|].
  split; [apply escape_scan|].
  split; [rewrite latexescape_subst, pattern_sub_subst; reflexivity|].
  intros Hc Ha.
  assert (E : latexescape text = pattern_sub lookup7 text).
  { rewrite latexescape_subst. unfold PyStr.replace.
    change (PyStr.replace_go ARROW "$\longrightarrow$" (pattern_sub lookup7 text) 0
            = pattern_sub lookup7 text).
    apply replace_go_absent, contains_sub7; [reflexivity|exact Ha]. }
  split; [rewrite E; apply pattern_sub_subst|].
  unfold well_escaped. rewrite E. apply seven_scan, Hc.
Qed.

Lemma escaping_reserved_witness :
  well_escaped (latexescape "50% of {a_b} & $3 #1") = true.
Proof.
  apply (proj2 (proj2 (proj2 (escaping_reserved "50% of {a_b} & $3 #1")))
           eq_refl eq_refl).
Defined.

(** C5 as stated fails for [latexescape]: a tilde passes unchanged. *)
Lemma latexescape_tilde_unescaped :
  latexescape "~" = "~" /\ well_escaped (latexescape "~") = false.
Proof. split; reflexivity. Qed.

End EscapeFacts.

(** ** Running methods *)

Local Open Scope py_scope.

Lemma bind_ok {A B} (m : M A) (k : A -> M B) d a d' :
  m d = (Ok a, d') -> bind m k d = k a d'.
Proof. unfold bind. intros ->. reflexivity. Qed.

Lemma bind_raise {A B} (m : M A) (k : A -> M B) d e d' :
  m d = (Raise e, d') -> bind m k d = (Raise e, d').
Proof. unfold bind. intros ->. reflexivity. Qed.

Lemma attr_some {A} (f : LaTeXDoc -> option A) d a :
  f d = Some a -> attr f d = (Ok a, d).
Proof. unfold attr. intros ->. reflexivity. Qed.

(** Unfolds the monad and the record updates on a state that is written
    out. *)
Ltac sim_doc :=
  cbv beta iota delta [bind ret read modify attr lift raise write
       set_in_table set_in_multrow_cell set_pict set_pict_in_table set_pict_width
       set_textmem set_head_line set_numcols set_currow set_curcol set_colspan
       set_doline set_skipfirst set_curcol_char set_tabcell set_tabrow set_tabmem
       set_multcol_alph_counter set_backend
       in_table in_multrow_cell pict pict_in_table pict_width textmem head_line
       numcols currow curcol colspan doline skipfirst curcol_char tabcell tabrow
       tabmem multcol_alph_counter backend
       append_row append_cell negb fst snd] in *.

Ltac sim_mem :=
  cbn [set_content set_head set_cells set_tail set_addit set_rows set_mtail
       c_colchar c_span c_head c_content r_cells r_tail r_addit
       m_head m_tail m_rows new_TabRow new_TabMem] in *.

Ltac sim := repeat (progress (sim_doc; sim_mem)).

(** Writes the state out, with fixed names for its attributes. *)
Ltac open_doc d :=
  destruct d as [d_in_table d_in_multrow_cell d_pict d_pict_in_table
                 d_pict_width d_textmem d_head_line d_numcols d_currow
                 d_curcol d_colspan d_doline d_skipfirst d_curcol_char
                 d_tabcell d_tabrow d_tabmem d_counter d_backend].

(** ** [repack_row] on a row whose only cell is empty *)

(** C10: when the row has exactly one cell and its content is empty,
    [repack_row] deletes the cell, lowers [numcols], and raises the
    [ValueError] of [max] on an empty list; no row is appended and nothing
    is written. *)
Theorem repack_row_single_empty_cell (d : LaTeXDoc) (row : TabRow) (cell : TabCell)
    (Hrow : tabrow d = Some row)
    (Hcells : r_cells row = [cell])
    (Hempty : c_content cell = "") :
  exists d' msg,
    repack_row d = (Raise (ValueError msg), d') /\
    tabmem d' = tabmem d /\
    backend d' = backend d /\
    tabrow d' = Some (set_cells [] row) /\
    numcols d' = numcols d - 1.
Proof.
  eexists. eexists. split.
  - unfold repack_row.
    rewrite (bind_ok _ _ _ _ _ (attr_some tabrow d row Hrow)).
    rewrite Hcells. cbn [py_index List.length Z.of_nat lift].
    unfold bind at 1. cbn. rewrite Hempty. cbn. reflexivity.
  - cbn. repeat split; reflexivity.
Qed.

Lemma repack_row_single_empty_cell_witness :
  exists d' msg,
    repack_row (set_tabrow (Some (mkRow [mkCell "a" 1 "{l}" ""] "\\ " ""))
                  (set_numcols 1 (set_tabmem (Some (new_TabMem "")) opened_doc)))
    = (Raise (ValueError msg), d') /\
    m_rows (match tabmem d' with Some m => m | None => new_TabMem "" end) = [].
Proof.
  destruct (repack_row_single_empty_cell
              (set_tabrow (Some (mkRow [mkCell "a" 1 "{l}" ""] "\\ " ""))
                 (set_numcols 1 (set_tabmem (Some (new_TabMem "")) opened_doc)))
              (mkRow [mkCell "a" 1 "{l}" ""] "\\ " "") (mkCell "a" 1 "{l}" "")
              eq_refl eq_refl eq_refl) as [d' [msg [H1 [H2 _]]]].
  exists d', msg. split; [exact H1|]. rewrite H2. reflexivity.
Defined.

(** ** Phantom cells before a multicolumn cell *)

Lemma py_range_bounds lo hi x : In x (py_range lo hi) -> lo <= x < hi.
Proof.
  unfold py_range. intros H. apply in_map_iff in H.
  destruct H as [i [<- Hi]]. apply in_seq in Hi. lia.
Qed.

Lemma py_range_length lo hi : List.length (py_range lo hi) = Z.to_nat (hi - lo).
Proof. unfold py_range. rewrite length_map, length_seq. reflexivity. Qed.






(** ** What the table events write *)

Lemma silent_ret {A} (a : A) : silent (ret a).
Proof. intros d. reflexivity. Qed.

Lemma silent_raise {A} e : silent (@raise A e).
Proof. intros d. reflexivity. Qed.

Lemma silent_lift {A} (r : result A) : silent (lift r).
Proof. intros d. reflexivity. Qed.

Lemma silent_read {A} (f : LaTeXDoc -> A) : silent (read f).
Proof. intros d. reflexivity. Qed.

Lemma silent_attr {A} (f : LaTeXDoc -> option A) : silent (attr f).
Proof. intros d. unfold attr. destruct (f d); reflexivity. Qed.

Lemma silent_modify f :
  (forall d, backend (f d) = backend d) -> silent (modify f).
Proof. intros H d. apply H. Qed.

Lemma silent_bind {A B} (m : M A) (k : A -> M B) :
  silent m -> (forall a, silent (k a)) -> silent (bind m k).
Proof.
  intros Hm Hk d. unfold bind. specialize (Hm d).
  destruct (m d) as [[a|e] d']; cbn in *; [|exact Hm].
  rewrite Hk. exact Hm.
Qed.

Lemma silent_foreach {A} (l : list A) (body : A -> M unit) :
  (forall x, silent (body x)) -> silent (foreach l body).
Proof.
  intros Hb. induction l as [|x l IH]; cbn [foreach].
  - apply silent_ret.
  - apply silent_bind; [apply Hb|intros _; exact IH].
Qed.

Lemma silent_foldM {A S} (l : list A) (body : S -> A -> M S) :
  (forall s x, silent (body s x)) -> forall s, silent (foldM l s body).
Proof.
  intros Hb. induction l as [|x l IH]; intros s; cbn [foldM].
  - apply silent_ret.
  - apply silent_bind; [apply Hb|intros s'; apply IH].
Qed.

Lemma silent_if {A} (b : bool) (m1 m2 : M A) :
  silent m1 -> silent m2 -> silent (if b then m1 else m2).
Proof. destruct b; auto. Qed.

Lemma silent_next_id : silent next_multcol_id.
Proof.
  intros d. unfold next_multcol_id.
  destruct (gen_next (multcol_alph_counter d)). destruct d. reflexivity.
Qed.

Ltac silence :=
  repeat first
    [ apply silent_ret | apply silent_raise | apply silent_lift
    | apply silent_read | apply silent_attr | apply silent_next_id
    | apply silent_modify; intros []; reflexivity
    | apply silent_bind; [|intros ?]
    | apply silent_foreach; intros ?
    | apply silent_foldM; intros ? ?
    | apply silent_if ].

Lemma silent_append_row row : silent (append_row row).
Proof. unfold append_row. silence. Qed.

Lemma silent_append_cell cell : silent (append_cell cell).
Proof. unfold append_cell. silence. Qed.

Lemma silent_repack_new_row t f l r : silent (repack_new_row t f l r).
Proof. unfold repack_new_row, repack_cell, append_row. silence. Qed.

Ltac split_match :=
  match goal with
  | |- context [match ?x with _ => _ end] =>
      lazymatch x with
      | context [match _ with _ => _ end] => fail
      | _ => destruct x eqn:?
      end
  end.

Lemma repack_row_output d :
  backend (snd (repack_row d)) = backend d \/
  (pict_in_table d = true /\
   backend (snd (repack_row d)) = (backend d ++ [AddToTabWidth (pict_width d)])%list).
Proof.
  destruct d. unfold repack_row. sim.
  repeat first
    [ progress sim
    | left; reflexivity
    | match goal with
      | |- context [foreach ?l ?b ?s] =>
          let H := fresh "Hs" in
          pose proof (silent_foreach l b (silent_repack_new_row _ _ _) s) as H;
          destruct (foreach l b s) as [? []]
      end
    | split_match ].
  all: try (right; split; [reflexivity|]; cbn in *; congruence).
  all: try (left; cbn in *; congruence).
Qed.

Lemma silent_cell_events text ev span :
  ev = CELL_BEG \/ ev = CELL_TEXT \/ ev = CELL_END \/ ev = ROW_BEG ->
  silent (handle_table text ev span).
Proof.
  intros [-> | [-> | [-> | ->]]]; unfold handle_table, append_cell; silence.
Qed.

(** C6 (as amended): inside a table, a cell event or a row-begin event
    writes nothing; a row-end event writes nothing, or, when it repacks a
    row that holds a picture, the one instruction that narrows the table;
    the table-begin event writes the one initialization instruction, or
    raises before it when the table has no column ([ZeroDivisionError]) or
    more columns than a float can hold ([OverflowError]).  All the rest of
    the table is written by the table-end event. *)
Theorem table_events_output (text : string) (level : Z) (ev : tab_event)
    (span : Z) (d : LaTeXDoc) :
  in_table d = true ->
  ev <> TAB_END ->
  exists out,
    backend (snd (emit text level ev span d)) = (backend d ++ out)%list /\
    match ev with
    | TAB_BEG =>
        (numcols d <> 0 /\ Z.abs (numcols d) < FLOAT_LIMIT /\
         out = [GrInitTab (numcols d)]) \/
        ((numcols d = 0 \/ FLOAT_LIMIT <= Z.abs (numcols d)) /\ out = [])
    | ROW_END =>
        out = [] \/
        (in_multrow_cell d = true /\ pict_in_table d = true /\
         out = [AddToTabWidth (pict_width d)])
    | _ => out = []
    end.
Proof.
  intros Hin Hev.
  assert (E : forall t, emit t level ev span d = handle_table
                (if level =? 0 then t else str_times (Z.to_nat level) "  " ++ t)
                ev span d).
  { intros t. unfold emit. destruct d. sim. subst. reflexivity. }
  rewrite E. clear E.
  set (t := if level =? 0 then text else _). clearbody t.
  destruct ev; try congruence.
  1-4: exists []; rewrite app_nil_r; split; [|reflexivity];
       apply silent_cell_events; auto.
  - (* ROW_END *)
    open_doc d. unfold handle_table. sim.
    destruct d_tabrow as [row|]; sim; [|exists []; rewrite app_nil_r; auto].
    destruct d_in_multrow_cell; sim.
    + match goal with |- context [repack_row ?s] =>
        destruct (repack_row_output s) as [H | [H1 H2]] end.
      * exists []. rewrite app_nil_r. split; [exact H|left; reflexivity].
      * sim. subst. eexists. split; [exact H2|]. right. auto.
    + exists []. rewrite app_nil_r. split; [|left; reflexivity].
      destruct d_tabmem; reflexivity.
  - (* TAB_BEG *)
    open_doc d. unfold handle_table. sim.
    destruct (Z.eqb_spec d_numcols 0) as [->|Hn]; sim.
    + exists []. rewrite app_nil_r. split; [reflexivity|]. right. auto.
    + destruct (Z.leb_spec FLOAT_LIMIT (Z.abs d_numcols)) as [Hf|Hf]; sim.
      * exists []. rewrite app_nil_r. split; [reflexivity|]. right. auto.
      * eexists. split; [reflexivity|]. left. auto.
Qed.

(** C6 as stated fails: inside a table, the table-begin event writes the
    initialization instruction at once, before any cell, row or table-end
    event has arrived. *)
Lemma tab_beg_writes_at_once :
  in_table (set_numcols 2 (set_in_table true opened_doc)) = true /\
  backend (set_numcols 2 (set_in_table true opened_doc)) = [] /\
  backend (snd (emit (String.append "\begin{longtable}[l]{*{2}{l}}" NL) 0 TAB_BEG 1
                  (set_numcols 2 (set_in_table true opened_doc))))
  = [GrInitTab 2].
Proof. repeat split; reflexivity. Qed.

Lemma table_events_output_witness :
  exists out,
    backend (snd (emit "x" 0 CELL_TEXT 1 (set_in_table true opened_doc)))
    = (backend (set_in_table true opened_doc) ++ out)%list /\ out = [].
Proof.
  exact (table_events_output "x" 0 CELL_TEXT 1 (set_in_table true opened_doc)
           eq_refl (fun H => match H with eq_refl => I end)).
Defined.

(** ** Repacking a row of columns into rows *)

Lemma py_index_nth {A} (l : list A) (i : Z) (dflt : A) :
  0 <= i < Z.of_nat (List.length l) ->
  py_index l i = Ok (nth (Z.to_nat i) l dflt).
Proof.
  intros H. unfold py_index.
  replace (i <? 0) with false by (symmetry; apply Z.ltb_ge; lia).
  replace ((i <? 0) || (Z.of_nat (List.length l) <=? i)) with false.
  2:{ symmetry. apply orb_false_iff. split; [apply Z.ltb_ge|apply Z.leb_gt]; lia. }
  destruct (nth_error l (Z.to_nat i)) eqn:E.
  - rewrite (nth_error_nth _ _ dflt E). reflexivity.
  - apply nth_error_None in E. lia.
Qed.



Lemma py_index_nil {A} (i : Z) : py_index (@nil A) i = Raise IndexError.
Proof.
  unfold py_index. cbn [List.length Z.of_nat].
  destruct (i <? 0) eqn:E.
  - replace ((i + 0 <? 0) || (0 <=? i + 0)) with true; [reflexivity|].
    symmetry. apply orb_true_iff. left. apply Z.ltb_lt. apply Z.ltb_lt in E. lia.
  - replace ((i <? 0) || (0 <=? i)) with true; [reflexivity|].
    symmetry. apply orb_true_iff. right. apply Z.leb_le. apply Z.ltb_ge in E. lia.
Qed.






Lemma fold_left_min_const (n : nat) (ls : list nat) :
  Forall (fun k => k = n) ls -> fold_left Nat.min ls n = n.
Proof.
  induction 1 as [|k ls -> _ IH]; cbn [fold_left]; [reflexivity|].
  rewrite Nat.min_id. exact IH.
Qed.

Lemma zip_star_equal (n : nat) (cols : list (list string)) :
  cols <> [] ->
  Forall (fun c => List.length c = n) cols ->
  zip_star cols = map (fun i => map (fun col => nth i col "") cols) (seq 0 n).
Proof.
  destruct cols as [|c cs]; [congruence|]. intros _ H.
  inversion H as [|? ? Hc Hcs]; subst. unfold zip_star.
  rewrite fold_left_min_const; [reflexivity|].
  apply Forall_map. exact Hcs.
Qed.

Lemma bottom_padded_length n subs :
  (List.length subs <= n)%nat -> List.length (bottom_padded n subs) = n.
Proof. intros H. unfold bottom_padded. rewrite length_app, repeat_length. lia. Qed.

Lemma max_sub_values_ge cells c :
  In c cells -> (List.length (sub_values c) <= max_sub_values cells)%nat.
Proof.
  intros H. unfold max_sub_values.
  pose proof (list_max_le (map (fun c => List.length (sub_values c)) cells)
                (list_max (map (fun c => List.length (sub_values c)) cells))) as [L _].
  specialize (L (Nat.le_refl _)). rewrite Forall_forall in L.
  apply L. apply in_map_iff. exists c. auto.
Qed.


Lemma nth_map_in {A B} (f : A -> B) (l : list A) (i : nat) (d : A) (d' : B) :
  (i < List.length l)%nat -> nth i (map f l) d' = f (nth i l d).
Proof.
  intros H. rewrite (nth_indep _ d' (f d)) by (rewrite length_map; exact H).
  apply map_nth.
Qed.







Section Transposed.

Variable cells : list TabCell.
Hypothesis cells_ne : cells <> [].

Lemma transp_eq :
  transposed_contents cells
  = map (fun r => map (fun col => nth r col "")
           (map (fun c => bottom_padded (max_sub_values cells) (sub_values c)) cells))
        (seq 0 (max_sub_values cells)).
Proof.
  unfold transposed_contents. apply zip_star_equal.
  - intros E. apply map_eq_nil in E. auto.
  - apply Forall_map, Forall_forall. intros c Hc.
    apply bottom_padded_length, max_sub_values_ge, Hc.
Qed.


Lemma transp_row (r : nat) :
  (r < max_sub_values cells)%nat ->
  nth r (transposed_contents cells) []
  = map (fun c => nth r (bottom_padded (max_sub_values cells) (sub_values c)) "") cells.
Proof.
  intros Hr. rewrite transp_eq.
  rewrite (nth_map_in _ _ _ O) by (rewrite length_seq; exact Hr).
  rewrite seq_nth by exact Hr. rewrite map_map. reflexivity.
Qed.





End Transposed.










(** ** The four passes of the width negotiation *)

(** *** The generator within its capacity *)

Lemma gen_take_unfold (j : nat) (g : str_incr_gen) :
  gen_take (S j) g =
  match gen_next g with
  | (Ok s, g') => match gen_take j g' with
                  | (Ok l, g'') => (Ok (s :: l), g'')
                  | (Raise e, g'') => (Raise e, g'')
                  end
  | (Raise e, g') => (Raise e, g')
  end.
Proof. reflexivity. Qed.

Lemma gen_take_pred (j : nat) : forall g l g',
  gen_take (S j) g = (Ok l, g') ->
  exists l0 gj s, gen_take j g = (Ok l0, gj) /\ gen_next gj = (Ok s, g').
Proof.
  induction j as [|j IH]; intros g l g' H.
  - cbn in H. destruct (gen_next g) as [[s|e] g0] eqn:E; [|discriminate].
    inversion H; subst. exists [], g, s. split; [reflexivity|exact E].
  - rewrite gen_take_unfold in H.
    destruct (gen_next g) as [[s0|e] g0] eqn:E0; [|discriminate].
    destruct (gen_take (S j) g0) as [[l0|e] gj0] eqn:Ej; [|discriminate].
    inversion H; subst.
    destruct (IH g0 l0 g' Ej) as [l1 [gj [s [H1 H2]]]].
    exists (s0 :: l1), gj, s. split; [|exact H2].
    rewrite gen_take_unfold, E0, H1. reflexivity.
Qed.

Lemma gen_take_le (n : nat) : forall g l g',
  gen_take n g = (Ok l, g') ->
  forall j, (j <= n)%nat -> exists lj, gen_take j g = (Ok lj, snd (gen_take j g)).
Proof.
  induction n as [|n IH]; intros g l g' H j Hj.
  - replace j with O by lia. exists []. reflexivity.
  - destruct (Nat.eq_dec j (S n)) as [->|Hne].
    + exists l. rewrite H. reflexivity.
    + destruct (gen_take_pred n g l g' H) as [l0 [gj [s [H1 _]]]].
      apply (IH g l0 gj H1 j). lia.
Qed.

Lemma gen_after_next (j : nat) :
  (j < CAPACITY)%nat ->
  exists id, gen_next (gen_after j) = (Ok id, gen_after (S j)).
Proof.
  intros Hj. unfold gen_after.
  destruct (gen_take_le CAPACITY _ _ _ str_incr_ids (S j) Hj) as [l Hl].
  destruct (gen_take_pred j _ _ _ Hl) as [l0 [gj [s [H1 H2]]]].
  rewrite H1. cbn [snd]. exists s. exact H2.
Qed.

(** *** Updating one cell of the table *)

Lemma list_update_length {A} (f : A -> A) (l : list A) : forall n,
  List.length (list_update l n f) = List.length l.
Proof. induction l as [|x l IH]; intros [|n]; cbn; auto. Qed.

Lemma list_update_map {A B} (g : A -> B) (f : A -> A) (l : list A) :
  (forall x, g (f x) = g x) ->
  forall n, map g (list_update l n f) = map g l.
Proof.
  intros H. induction l as [|x l IH]; intros [|n]; cbn; auto.
  - rewrite H. reflexivity.
  - rewrite IH. reflexivity.
Qed.

Lemma list_update_forallb {A} (p : A -> bool) (f : A -> A) (l : list A) :
  forallb p l = true ->
  forall n,
    (forall x, nth_error l n = Some x -> p (f x) = true) ->
    forallb p (list_update l n f) = true.
Proof.
  induction l as [|x l IH]; intros Hl [|n] Hf; cbn in *; auto;
    apply andb_prop in Hl; destruct Hl as [Hx Hl]; apply andb_true_intro; split; auto.
Qed.

Lemma filter_length_by_map {A B} (g : A -> B) (p : A -> bool) (q : B -> bool)
    (l l' : list A) :
  (forall x, p x = q (g x)) ->
  map g l = map g l' ->
  List.length (filter p l) = List.length (filter p l').
Proof.
  intros Hp. revert l'. induction l as [|x l IH]; intros [|y l'] H; try discriminate.
  - reflexivity.
  - cbn [map] in H. inversion H as [[Hxy Hl]].
    cbn [filter]. rewrite !Hp, Hxy.
    destruct (q (g y)); cbn [List.length]; rewrite (IH l' Hl); reflexivity.
Qed.

Lemma retouch_length r col v rows :
  List.length (retouch r col v rows) = List.length rows.
Proof. apply list_update_length. Qed.

Lemma retouch_spans r col v rows :
  map c_span (List.concat (map r_cells (retouch r col v rows)))
  = map c_span (List.concat (map r_cells rows)).
Proof.
  rewrite !concat_map, !map_map. f_equal. unfold retouch.
  apply (list_update_map (fun row => map c_span (r_cells row))).
  intros row. cbn [set_cells r_cells].
  apply list_update_map. reflexivity.
Qed.

Lemma retouch_multicols r col v rows :
  List.length (multicols (retouch r col v rows)) = List.length (multicols rows).
Proof.
  unfold multicols.
  apply (filter_length_by_map c_span is_multicol (fun s => s >? 1)).
  - reflexivity.
  - apply retouch_spans.
Qed.

Lemma retouch_rows_ok n pw r col v rows row cell :
  forallb (row_ok n pw) rows = true ->
  nth_error rows r = Some row ->
  nth_error (r_cells row) col = Some cell ->
  cell_ok pw (set_content v cell) = true ->
  forallb (row_ok n pw) (retouch r col v rows) = true.
Proof.
  intros Hrows Hrow Hcell Hok. unfold retouch.
  apply list_update_forallb; [exact Hrows|].
  intros row' Hrow'. rewrite Hrow in Hrow'. inversion Hrow'; subst row'.
  assert (Hr : row_ok n pw row = true).
  { rewrite forallb_forall in Hrows. apply Hrows. eapply nth_error_In, Hrow. }
  unfold row_ok in *. cbn [set_cells r_cells].
  apply andb_prop in Hr. destruct Hr as [Hlen Hcells].
  rewrite list_update_length, Hlen. cbn [andb].
  apply list_update_forallb; [exact Hcells|].
  intros c Hc. rewrite Hcell in Hc. inversion Hc; subst c. exact Hok.
Qed.

(** Replacing a text by one that begins with [d] creates no occurrence, at
    the front, of a text without [d]. *)
Lemma replace_go_prefix (old new' : string) (d : ascii) (p : string) :
  all_chars (fun c => negb (Ascii.eqb c d)) p = true ->
  forall s,
    prefix p (PyStr.replace_go old (String d new') s 0) = true ->
    prefix p s = true.
Proof.
  induction p as [|c p IH]; intros Hp s; [destruct s; reflexivity|].
  cbn [all_chars] in Hp. apply andb_prop in Hp. destruct Hp as [Hc Hp].
  destruct s as [|x s]; [cbn; discriminate|].
  cbn [PyStr.replace_go]. destruct (prefix old (String x s)).
  - cbn [append prefix]. destruct (ascii_dec c d) as [->|]; [|discriminate].
    rewrite Ascii.eqb_refl in Hc. discriminate Hc.
  - cbn [prefix]. destruct (ascii_dec c x); [|discriminate]. apply IH, Hp.
Qed.

Lemma separator_replaced_no_picture (content : string) :
  PyStr.startswith content PICT_MARK = false ->
  PyStr.startswith
    (PyStr.replace content SEPARATION_PAT (String.append "~\newline " NL))
    PICT_MARK = false.
Proof.
  intros H. unfold PyStr.startswith in *.
  destruct (prefix PICT_MARK (PyStr.replace content SEPARATION_PAT
                                (String.append "~\newline " NL))) eqn:E;
    [|reflexivity].
  apply (replace_go_prefix "&&" _ "~" PICT_MARK eq_refl) in E. congruence.
Qed.

(** *** The first pass *)

Lemma write_loop {A} (f : A -> Instr) (l : list A) : forall d,
  foreach l (fun x => write (f x)) d
  = (Ok tt, set_backend (backend d ++ map f l) d).
Proof.
  induction l as [|x l IH]; intros d.
  - open_doc d. cbn. rewrite app_nil_r. reflexivity.
  - cbn [foreach]. unfold bind at 1. unfold write at 1. cbn [modify].
    rewrite IH. open_doc d. cbn. rewrite <- app_assoc. reflexivity.
Qed.

Lemma filter_map_none {A} (f : A -> Instr) (l : list A) :
  (forall x, is_fix (f x) = false) -> filter is_fix (map f l) = [].
Proof.
  intros H. induction l as [|x l IH]; [reflexivity|].
  cbn [map filter]. rewrite H. exact IH.
Qed.

Lemma filter_map_all {A} (f : A -> Instr) (l : list A) :
  (forall x, is_fix (f x) = true) -> filter is_fix (map f l) = map f l.
Proof.
  intros H. induction l as [|x l IH]; [reflexivity|].
  cbn [map filter]. rewrite H, IH. reflexivity.
Qed.

Lemma emits_refl Q d : table_ok d = true -> emits_fixes Q d d [].
Proof.
  intros H. repeat split; auto. exists []. rewrite app_nil_r. auto.
Qed.

Lemma emits_weaken (Q Q' : Instr -> bool) d d' fixes :
  (forall i, Q i = true -> Q' i = true) ->
  emits_fixes Q d d' fixes -> emits_fixes Q' d d' fixes.
Proof.
  intros HQ [T [N [P [R [out [B [F A]]]]]]]. repeat split; auto.
  exists out. repeat split; auto.
  rewrite forallb_forall in A |- *. auto.
Qed.

Lemma emits_trans Q d d1 d2 f1 f2 :
  emits_fixes Q d d1 f1 -> emits_fixes Q d1 d2 f2 ->
  emits_fixes Q d d2 (f1 ++ f2).
Proof.
  intros [_ [N1 [P1 [R1 [o1 [B1 [F1 A1]]]]]]] [T2 [N2 [P2 [R2 [o2 [B2 [F2 A2]]]]]]].
  repeat split; try congruence.
  exists (o1 ++ o2)%list. repeat split.
  - rewrite B2, B1, app_assoc. reflexivity.
  - rewrite filter_app, F1, F2. reflexivity.
  - rewrite forallb_app, A1, A2. reflexivity.
Qed.

Lemma table_ok_parts d :
  table_ok d = true ->
  exists mem,
    tabmem d = Some mem /\
    numcols d <= 26 /\
    forallb (row_ok (numcols d) (pict_width d)) (m_rows mem) = true /\
    (List.length (multicols (m_rows mem)) <= CAPACITY)%nat.
Proof.
  unfold table_ok. destruct (tabmem d) as [mem|]; [|discriminate].
  intros H. apply andb_prop in H. destruct H as [H H3].
  apply andb_prop in H. destruct H as [H1 H2].
  exists mem. repeat split; auto; [apply Z.leb_le, H1 | apply Nat.leb_le, H3].
Qed.

Lemma measure_cell_run (d : LaTeXDoc) (col : Z) (r : nat) :
  table_ok d = true ->
  (r < rows_count d)%nat ->
  0 <= col < numcols d ->
  exists d', measure_cell col r d = (Ok tt, d') /\ emits_fixes is_measure d d' [].
Proof.
  intros Hok Hr Hcol.
  destruct (table_ok_parts d Hok) as [mem [Hmem [H26 [Hrows Hcount]]]].
  unfold rows_count in Hr. rewrite Hmem in Hr.
  pose (row := nth r (m_rows mem) new_TabRow).
  assert (Hrow : nth_error (m_rows mem) r = Some row)
    by (apply nth_error_nth'; exact Hr).
  assert (Hrok : row_ok (numcols d) (pict_width d) row = true).
  { rewrite forallb_forall in Hrows. apply Hrows. eapply nth_error_In, Hrow. }
  unfold row_ok in Hrok. apply andb_prop in Hrok. destruct Hrok as [Hlen Hcells].
  apply Z.leb_le in Hlen.
  pose (cell := nth (Z.to_nat col) (r_cells row) no_cell).
  assert (Hcell : nth_error (r_cells row) (Z.to_nat col) = Some cell)
    by (apply nth_error_nth'; lia).
  assert (Hcok : cell_ok (pict_width d) cell = true).
  { rewrite forallb_forall in Hcells. apply Hcells. eapply nth_error_In, Hcell. }
  unfold measure_cell.
  unfold bind at 1. rewrite (attr_some tabmem d mem Hmem).
  unfold bind at 1. unfold lift at 1.
  rewrite (py_index_nth _ _ new_TabRow) by lia. rewrite Nat2Z.id. fold row.
  unfold bind at 1. unfold lift at 1.
  rewrite (py_index_nth _ _ no_cell) by lia. fold cell.
  unfold cell_ok in Hcok. apply andb_prop in Hcok. destruct Hcok as [Hpic Hbeg].
  destruct (c_span cell =? 0) eqn:Hs0.
  { exists d. split; [reflexivity|apply emits_refl, Hok]. }
  cbn [orb] in Hpic.
  assert (Hspan : forall d1,
    emits_fixes is_measure d d1 [] ->
    exists d', (if c_span cell =? 1 then write GrSetReqFull
                else if c_span cell >? 1
                     then beg <- lift (span_beg_char cell) ;; write (GrSetReqPart beg)
                     else ret tt) d1 = (Ok tt, d') /\ emits_fixes is_measure d d' []).
  { intros d1 H1.
    assert (W : forall i, is_measure i = true ->
              emits_fixes is_measure d (set_backend (backend d1 ++ [i]) d1) []).
    { intros i Hi. change (@nil Instr) with ([] ++ @nil Instr)%list.
      apply (emits_trans _ d d1 _ [] []); [exact H1|].
      destruct H1 as [T1 _]. open_doc d1. unfold emits_fixes, table_ok, rows_count in *.
      sim. repeat split; auto. exists [i]. split; [reflexivity|]. cbn. rewrite Hi.
      destruct i; try discriminate Hi; split; reflexivity. }
    destruct (c_span cell =? 1).
    - eexists. split; [reflexivity|]. apply W. reflexivity.
    - destruct (c_span cell >? 1) eqn:Hgt.
      + assert (Hle : (c_span cell <=? 1) = false)
          by (apply Z.leb_gt; apply Z.gtb_lt in Hgt; lia).
        rewrite Hle in Hbeg. cbn [orb] in Hbeg.
        unfold bind, lift. destruct (span_beg_char cell) as [beg|]; [|discriminate].
        eexists. split; [reflexivity|]. apply W. reflexivity.
      + exists d1. split; [reflexivity|exact H1]. }
  destruct (PyStr.startswith (c_content cell) PICT_MARK) eqn:Hp.
  - cbn [negb orb] in Hpic.
    unfold bind at 1. unfold bind at 1. unfold read at 1.
    destruct (pict_width d) as [k|w] eqn:Hpw; [discriminate|].
    apply Hspan.
    change (@nil Instr) with ([] ++ @nil Instr)%list.
    apply (emits_trans _ d d _ [] []); [apply emits_refl, Hok|].
    open_doc d. unfold emits_fixes, table_ok, rows_count in *.
    sim. repeat split; auto. exists [SetPictSize w]. repeat split; reflexivity.
  - unfold bind at 1. unfold bind at 1. unfold lift at 1.
    change (PyStr.split (c_content cell) SEPARATION_PAT)
      with (Ok (PyStr.split_go SEPARATION_PAT (c_content cell) 0 "")).
    unfold bind at 1. rewrite write_loop.
    unfold assign_content. unfold bind at 1.
    rewrite (attr_some tabmem _ mem) by (open_doc d; exact Hmem).
    cbn [modify]. apply Hspan.
    open_doc d. unfold emits_fixes, table_ok, rows_count in *. sim. subst.
    fold (retouch r (Z.to_nat col)
            (PyStr.replace (c_content cell) SEPARATION_PAT (String.append "~\newline " NL))
            (m_rows mem)).
    rewrite retouch_length, retouch_multicols.
    rewrite (retouch_rows_ok _ _ _ _ _ _ row cell Hrows Hrow Hcell).
    + repeat split; auto.
      * apply andb_true_intro. split; [|apply Nat.leb_le, Hcount].
        apply andb_true_intro. split; [apply Z.leb_le, H26|reflexivity].
      * eexists. split; [reflexivity|]. split; [apply filter_map_none; reflexivity|].
        apply forallb_forall. intros i Hi. apply in_map_iff in Hi.
        destruct Hi as [part [<- _]]. reflexivity.
    + unfold cell_ok. cbn [set_content c_span c_content c_colchar].
      rewrite (separator_replaced_no_picture _ Hp). cbn [negb orb].
      rewrite orb_true_r. cbn [andb]. exact Hbeg.
Qed.

Lemma measure_rows_run (col : Z) (rs : list nat) : forall d,
  table_ok d = true ->
  (forall r, In r rs -> (r < rows_count d)%nat) ->
  0 <= col < numcols d ->
  exists d', foreach rs (measure_cell col) d = (Ok tt, d') /\
             emits_fixes is_measure d d' [].
Proof.
  induction rs as [|r rs IH]; intros d Hok Hrs Hcol.
  - exists d. split; [reflexivity|apply emits_refl, Hok].
  - destruct (measure_cell_run d col r Hok (Hrs r (or_introl eq_refl)) Hcol)
      as [d1 [E1 R1]].
    pose proof R1 as [T1 [N1 [_ [C1 _]]]].
    destruct (IH d1 T1) as [d2 [E2 R2]].
    + intros r' Hr'. rewrite C1. apply Hrs. right. exact Hr'.
    + rewrite N1. exact Hcol.
    + exists d2. split.
      * cbn [foreach]. unfold bind. rewrite E1. exact E2.
      * change (@nil Instr) with ([] ++ @nil Instr)%list.
        eapply emits_trans; eassumption.
Qed.

Lemma emits_writes Q d (out : list Instr) :
  table_ok d = true ->
  forallb Q out = true ->
  emits_fixes Q d (set_backend (backend d ++ out) d) (filter is_fix out).
Proof.
  intros Hok HQ. open_doc d. unfold emits_fixes, table_ok, rows_count in *. sim.
  repeat split; auto. exists out. repeat split; auto.
Qed.

Lemma measure_column_run (d : LaTeXDoc) (acc : list string) (col : Z) :
  table_ok d = true ->
  0 <= col < numcols d ->
  exists d',
    measure_column acc col d = (Ok (acc ++ [letter col])%list, d') /\
    emits_fixes is_pass1 d d' [GrColsFirstFix (letter col)].
Proof.
  intros Hok Hcol.
  destruct (table_ok_parts d Hok) as [mem [Hmem [H26 _]]].
  unfold measure_column.
  unfold bind at 1. unfold lift at 1. rewrite (get_charform_letter col) by lia.
  unfold bind at 1. rewrite (attr_some tabmem d mem Hmem).
  destruct (measure_rows_run col (seq 0 (List.length (m_rows mem))) d Hok)
    as [d1 [E1 R1]]; [|exact Hcol|].
  { intros r Hr. apply in_seq in Hr. unfold rows_count. rewrite Hmem. lia. }
  unfold bind at 1. rewrite E1.
  unfold bind at 1. unfold write at 1. cbn [modify ret].
  eexists. split; [reflexivity|].
  change [GrColsFirstFix (letter col)]
    with ([] ++ filter is_fix [GrColsFirstFix (letter col)])%list.
  eapply emits_trans.
  - apply (emits_weaken is_measure); [|exact R1].
    intros i Hi. destruct i; try discriminate Hi; reflexivity.
  - apply emits_writes; [apply R1|reflexivity].
Qed.

Lemma measure_columns_run (cols : list Z) : forall d acc,
  table_ok d = true ->
  (forall col, In col cols -> 0 <= col < numcols d) ->
  exists d',
    foldM cols acc measure_column d = (Ok (acc ++ map letter cols)%list, d') /\
    emits_fixes is_pass1 d d' (map GrColsFirstFix (map letter cols)).
Proof.
  induction cols as [|col cols IH]; intros d acc Hok Hcols.
  - exists d. split; [cbn; rewrite app_nil_r; reflexivity|apply emits_refl, Hok].
  - destruct (measure_column_run d acc col Hok (Hcols col (or_introl eq_refl)))
      as [d1 [E1 R1]].
    pose proof R1 as [T1 [N1 _]].
    destruct (IH d1 (acc ++ [letter col])%list T1) as [d2 [E2 R2]].
    + intros c Hc. rewrite N1. apply Hcols. right. exact Hc.
    + exists d2. split.
      * cbn [foldM]. unfold bind. rewrite E1, E2. rewrite <- app_assoc. reflexivity.
      * change (map GrColsFirstFix (map letter (col :: cols)))
          with ([GrColsFirstFix (letter col)]
                ++ map GrColsFirstFix (map letter cols))%list.
        eapply emits_trans; eassumption.
Qed.

(** *** The span pass *)

Lemma span_cells_run (cells : list TabCell) : forall d j,
  table_ok d = true ->
  multcol_alph_counter d = gen_after j ->
  forallb (cell_ok (pict_width d)) cells = true ->
  (j + List.length (filter is_multicol cells) <= CAPACITY)%nat ->
  exists d',
    foreach cells span_width d = (Ok tt, d') /\
    emits_fixes is_span d d' [] /\
    multcol_alph_counter d' = gen_after (j + List.length (filter is_multicol cells)).
Proof.
  induction cells as [|c cells IH]; intros d j Hok Hg Hcells Hj.
  - exists d. split; [reflexivity|]. split; [apply emits_refl, Hok|].
    cbn. rewrite Nat.add_0_r. exact Hg.
  - cbn [forallb] in Hcells. apply andb_prop in Hcells. destruct Hcells as [Hc Hcells].
    cbn [filter] in Hj |- *. cbn [foreach]. unfold span_width at 1.
    unfold is_multicol at 1 in Hj. unfold is_multicol at 1.
    destruct (c_span c >? 1) eqn:Hgt.
    + cbn [List.length] in Hj |- *.
      destruct (gen_after_next j) as [id Hid]; [lia|].
      unfold cell_ok in Hc. apply andb_prop in Hc. destruct Hc as [_ Hbeg].
      assert (Hle : (c_span c <=? 1) = false)
        by (apply Z.leb_gt; apply Z.gtb_lt in Hgt; lia).
      rewrite Hle in Hbeg. cbn [orb] in Hbeg.
      destruct (span_beg_char c) as [beg|] eqn:Hb; [|discriminate].
      set (d1 := set_backend (backend d ++ [GrGetSpanWidth id beg (c_colchar c)])
                   (set_multcol_alph_counter (gen_after (S j)) d)).
      assert (R1 : emits_fixes is_span d d1 []).
      { subst d1. open_doc d. unfold emits_fixes, table_ok, rows_count in *. sim.
        repeat split; auto. eexists. repeat split; reflexivity. }
      destruct (IH d1 (S j)) as [d2 [E2 [R2 G2]]].
      * apply R1.
      * subst d1. open_doc d. reflexivity.
      * destruct R1 as [_ [_ [P1 _]]]. rewrite P1. exact Hcells.
      * lia.
      * exists d2. split; [|split].
        -- unfold bind at 1. unfold bind at 1. unfold next_multcol_id at 1.
           rewrite Hg, Hid. unfold bind at 1. unfold lift at 1.
           unfold write at 1. cbn [modify]. exact E2.
        -- change (@nil Instr) with ([] ++ @nil Instr)%list.
           eapply emits_trans; eassumption.
        -- rewrite G2. f_equal. lia.
    + destruct (IH d j Hok Hg Hcells Hj) as [d2 [E2 [R2 G2]]].
      exists d2. split; [|split; assumption].
      unfold bind at 1. unfold ret at 1. exact E2.
Qed.

Lemma span_rows_run (rows : list TabRow) : forall d j,
  table_ok d = true ->
  multcol_alph_counter d = gen_after j ->
  forallb (fun row => forallb (cell_ok (pict_width d)) (r_cells row)) rows = true ->
  (j + List.length (multicols rows) <= CAPACITY)%nat ->
  exists d',
    foreach rows (fun row => foreach (r_cells row) span_width) d = (Ok tt, d') /\
    emits_fixes is_span d d' [].
Proof.
  induction rows as [|row rows IH]; intros d j Hok Hg Hrows Hj.
  - exists d. split; [reflexivity|apply emits_refl, Hok].
  - cbn [forallb] in Hrows. apply andb_prop in Hrows. destruct Hrows as [Hrow Hrows].
    unfold multicols in Hj. cbn [map List.concat] in Hj.
    rewrite filter_app, length_app in Hj.
    destruct (span_cells_run (r_cells row) d j Hok Hg Hrow) as [d1 [E1 [R1 G1]]]; [lia|].
    pose proof R1 as [T1 [_ [P1 _]]].
    destruct (IH d1 _ T1 G1) as [d2 [E2 R2]].
    + rewrite P1. exact Hrows.
    + unfold multicols. lia.
    + exists d2. split.
      * cbn [foreach]. unfold bind. rewrite E1. exact E2.
      * change (@nil Instr) with ([] ++ @nil Instr)%list.
        eapply emits_trans; eassumption.
Qed.


(** *** The whole of [calc_latex_widths] *)

(** What [calc_latex_widths] writes: the first pass with its measurements,
    the three later passes, and the span widths. *)
Lemma calc_latex_widths_shape (d : LaTeXDoc) :
  table_ok d = true ->
  exists d' pass1 spans,
    calc_latex_widths d = (Ok tt, d') /\
    backend d'
    = (backend d ++ pass1 ++ later_passes (column_letters (numcols d)) ++ spans)%list /\
    filter is_fix pass1 = map GrColsFirstFix (column_letters (numcols d)) /\
    forallb is_pass1 pass1 = true /\
    forallb is_span spans = true /\
    filter is_fix spans = [].
Proof.
  intros Hok. unfold calc_latex_widths.
  unfold bind at 1. unfold read at 1.
  destruct (measure_columns_run (py_range 0 (numcols d)) d [] Hok) as [d1 [E1 R1]].
  { intros col Hc. apply py_range_bounds in Hc. exact Hc. }
  unfold bind at 1. rewrite E1. cbn [app]. fold (column_letters (numcols d)).
  set (cols := column_letters (numcols d)) in *.
  destruct R1 as [T1 [N1 [P1 [C1 [pass1 [B1 [F1 A1]]]]]]].
  unfold bind at 1. unfold write at 1. cbn [modify].
  unfold bind at 1. rewrite write_loop.
  unfold bind at 1. unfold write at 1. cbn [modify].
  unfold bind at 1. rewrite write_loop.
  unfold bind at 1. unfold write at 1. cbn [modify].
  unfold bind at 1. rewrite write_loop.
  unfold bind at 1. cbn [modify].
  match goal with |- context [bind (attr tabmem) _ ?s] => set (d8 := s) end.
  assert (B8 : backend d8 = (backend d1 ++ later_passes cols)%list).
  { subst d8. open_doc d1. unfold later_passes. cbn [backend set_backend set_multcol_alph_counter].
    rewrite <- !app_assoc. reflexivity. }
  assert (T8 : table_ok d8 = true /\ pict_width d8 = pict_width d1 /\
               multcol_alph_counter d8 = gen_after 0).
  { subst d8. open_doc d1. unfold table_ok in *. sim. auto. }
  destruct T8 as [T8 [P8 G8]].
  destruct (table_ok_parts d8 T8) as [mem [Hmem [_ [Hrows Hcount]]]].
  destruct (span_rows_run (m_rows mem) d8 0 T8 G8) as [d9 [E9 R9]].
  { rewrite forallb_forall in Hrows |- *. intros row Hrow.
    specialize (Hrows row Hrow). unfold row_ok in Hrows.
    apply andb_prop in Hrows. apply Hrows. }
  { cbn. exact Hcount. }
  destruct R9 as [_ [_ [_ [_ [spans [B9 [F9 A9]]]]]]].
  exists d9, pass1, spans. split; [|split; [|split; [|split; [|split]]]].
  - unfold bind at 1. rewrite (attr_some tabmem d8 mem Hmem). exact E9.
  - rewrite B9, B8, B1, <- !app_assoc. reflexivity.
  - exact F1.
  - exact A1.
  - exact A9.
  - exact F9.
Qed.

Lemma filter_later_passes cols :
  filter is_fix (later_passes cols) = later_passes cols.
Proof.
  unfold later_passes. rewrite !filter_app.
  rewrite !filter_map_all by reflexivity. reflexivity.
Qed.

(** X24: On a buffered table of [n] columns that it can handle,
    [calc_latex_widths] returns, and the instructions of the four passes
    among those it writes are, in this order: one \grcolsfirstfix per
    column, then \grdividelength and one \grcolssecondfix per column, then
    \grdividelength and one \grcolsthirdfix per column, then
    \grdividelength and one \grcolsfourthfix per column. *)
Theorem calc_latex_widths_four_passes (d : LaTeXDoc) (Hok : table_ok d = true) :
  exists d' out,
    calc_latex_widths d = (Ok tt, d') /\
    backend d' = (backend d ++ out)%list /\
    filter is_fix out = four_passes (column_letters (numcols d)) /\
    List.length (column_letters (numcols d)) = Z.to_nat (numcols d) /\
    List.length (filter is_fix out) = (4 * Z.to_nat (numcols d) + 3)%nat.
Proof.
  destruct (calc_latex_widths_shape d Hok) as [d' [pass1 [spans [E [B [F1 [_ [_ F9]]]]]]]].
  exists d', (pass1 ++ later_passes (column_letters (numcols d)) ++ spans)%list.
  split; [exact E|]. split; [exact B|].
  assert (F : filter is_fix
                (pass1 ++ later_passes (column_letters (numcols d)) ++ spans)
              = four_passes (column_letters (numcols d))).
  { rewrite !filter_app, F1, F9, filter_later_passes, app_nil_r. reflexivity. }
  split; [exact F|].
  assert (L : List.length (column_letters (numcols d)) = Z.to_nat (numcols d)).
  { unfold column_letters. rewrite length_map, py_range_length. f_equal. lia. }
  split; [exact L|].
  rewrite F. unfold four_passes. rewrite !length_app, !length_map, L. cbn. lia.
Qed.

Lemma calc_latex_widths_four_passes_witness :
  exists d' out,
    calc_latex_widths two_by_two = (Ok tt, d') /\
    backend d' = (backend two_by_two ++ out)%list /\
    filter is_fix out
    = [GrColsFirstFix "a"; GrColsFirstFix "b"; GrDivideLength;
       GrColsSecondFix "a"; GrColsSecondFix "b"; GrDivideLength;
       GrColsThirdFix "a"; GrColsThirdFix "b"; GrDivideLength;
       GrColsFourthFix "a"; GrColsFourthFix "b"].
Proof.
  destruct (calc_latex_widths_four_passes two_by_two eq_refl)
    as [d' [out [H1 [H2 [H3 _]]]]].
  exists d', out. split; [exact H1|]. split; [exact H2|exact H3].
Defined.

(** An instruction of the four passes is one whose text begins with the
    name of one of their five macros. *)
Lemma render_is_fix (repr_recip : Z -> string) (repr_val : pyval -> string)
    (i : Instr) :
  (forall text, i <> Raw text) ->
  is_fix i
  = prefix "\grcols" (render repr_recip repr_val i)
    || prefix "\grdividelength" (render repr_recip repr_val i).
Proof.
  intros H. destruct i; try reflexivity. exfalso. apply (H text). reflexivity.
Qed.

(** C1: a buffered table with a cell that holds a picture, while
    [pict_width] is a number as [add_media] and [end_paragraph] set it:
    the instruction for the picture size joins strings with the number,
    which is a [TypeError]; the width calculation stops in the first
    column, before any instruction of the four passes is written. *)
Theorem picture_cell_with_number_raises (x : Z) :
  exists d',
    calc_latex_widths
      (set_pict_width (PyInt x) (set_numcols 1 (set_tabmem (Some (mkMem "" ""
         [mkRow [mkCell "a" 1 "{l}" "\grmkpicture{p.jpg}{2}{2}{p}%"] "\\ " ""]))
         opened_doc)))
    = (Raise TypeError, d') /\
    backend d' = [].
Proof. eexists. split; reflexivity. Qed.

(** ** The width macros *)

Section MacroFacts.

Import TeX.

Variable E : Engine.

Lemma wr_same r v (s : Regs) : wr r v s r = v.
Proof. unfold wr. destruct (Reg_eq_dec r r); congruence. Qed.

Lemma wr_other r r' v (s : Regs) : r <> r' -> wr r v s r' = s r'.
Proof. unfold wr. destruct (Reg_eq_dec r r'); congruence. Qed.

Ltac split_ifs :=
  repeat match goal with
         | |- context [if ?b then _ else _] => destruct b
         end.

Ltac regs :=
  cbv zeta; split_ifs;
  repeat first [ rewrite wr_same | rewrite wr_other by congruence ];
  try reflexivity.

Ltac macros :=
  unfold exec, grinittab, grsetreqpart, grsetreqfull, grdividelength,
    grtextneedwidth, grcolsfirstfix, grcolssecondfix, grcolsthirdfix,
    grcolsfourthfix, grgetspanwidth, grmaxvaltofirst, addtolength, grinitlength.

Lemma run_app (p q : list Instr) (s : Regs) :
  run E (p ++ q) s = run E q (run E p s).
Proof. unfold run. apply fold_left_app. Qed.

Lemma run_cons (i : Instr) (p : list Instr) (s : Regs) :
  run E (i :: p) s = run E p (exec E i s).
Proof. reflexivity. Qed.

Lemma measure_frame (i : Instr) (s : Regs) (r : Reg) :
  is_measure i = true -> measure_reg r = false -> exec E i s r = s r.
Proof.
  intros Hi Hr. destruct i; try discriminate Hi; macros; regs;
    destruct r; try discriminate Hr; reflexivity.
Qed.

(** *** The first pass *)

Lemma firstfix_curcolend c s :
  exec E (GrColsFirstFix c) s grcurcolend
  = s grcurcolend + exec E (GrColsFirstFix c) s (grtempwidth c).
Proof. macros. regs. Qed.

Lemma firstfix_temp_other c c' s :
  c <> c' ->
  exec E (GrColsFirstFix c) s (grtempwidth c') = s (grtempwidth c').
Proof. intros H. macros. regs. Qed.

Lemma firstfix_tabwidth c s :
  exec E (GrColsFirstFix c) s grtabwidth = s grtabwidth.
Proof. macros. regs. Qed.

Lemma pass1_temp_frame (p : list Instr) : forall cols s c,
  filter is_fix p = map GrColsFirstFix cols ->
  forallb is_pass1 p = true ->
  ~ In c cols ->
  run E p s (grtempwidth c) = s (grtempwidth c).
Proof.
  induction p as [|i p IH]; intros cols s c Hf Hp Hc; [reflexivity|].
  rewrite run_cons. cbn [forallb] in Hp. apply andb_prop in Hp. destruct Hp as [Hi Hp].
  cbn [filter] in Hf.
  destruct i; try discriminate Hi; cbn [is_fix] in Hf.
  5:{ destruct cols as [|c0 cols]; [discriminate|]. cbn [map] in Hf.
      inversion Hf; subst.
      rewrite (IH cols) by (auto; intros H; apply Hc; right; exact H).
      apply firstfix_temp_other. intros ->. apply Hc. left. reflexivity. }
  all: rewrite (IH cols) by auto; apply measure_frame; reflexivity.
Qed.

Lemma pass1_sum (p : list Instr) : forall cols s,
  filter is_fix p = map GrColsFirstFix cols ->
  forallb is_pass1 p = true ->
  NoDup cols ->
  run E p s grcurcolend = s grcurcolend + sum_temp cols (run E p s) /\
  run E p s grtabwidth = s grtabwidth.
Proof.
  induction p as [|i p IH]; intros cols s Hf Hp Hnd.
  - destruct cols; [|discriminate]. cbn. split; [lia|reflexivity].
  - rewrite run_cons. cbn [forallb] in Hp. apply andb_prop in Hp. destruct Hp as [Hi Hp].
    cbn [filter] in Hf.
    destruct i; try discriminate Hi; cbn [is_fix] in Hf.
    5:{ destruct cols as [|c0 cols]; [discriminate|]. cbn [map] in Hf.
        inversion Hf; subst. inversion Hnd; subst.
        destruct (IH cols (exec E (GrColsFirstFix c0) s)) as [S1 S2]; auto.
        split.
        - rewrite S1, firstfix_curcolend. cbn [sum_temp fold_right].
          rewrite (pass1_temp_frame p cols _ c0) by auto.
          fold (sum_temp cols (run E p (exec E (GrColsFirstFix c0) s))). lia.
        - rewrite S2. apply firstfix_tabwidth. }
    all: match goal with
         | |- context [exec E ?i ?s0] =>
             destruct (IH cols (exec E i s0)) as [S1 S2]; auto;
             rewrite S1, S2, !measure_frame by reflexivity; split; reflexivity
         end.
Qed.

(** *** The later passes when the requirements fit *)

Lemma later_frame (i : Instr) (s : Regs) :
  is_later i = true ->
  exec E i s grcurcolend = s grcurcolend /\
  exec E i s grtabwidth = s grtabwidth.
Proof.
  intros Hi. destruct i; try discriminate Hi; macros; split; regs.
Qed.

Lemma later_fits_temp (i : Instr) (s : Regs) (c : string) :
  is_later i = true -> fits s ->
  exec E i s (grtempwidth c) = s (grtempwidth c).
Proof.
  unfold fits. intros Hi Hfit. apply Z.ltb_lt in Hfit.
  destruct i; try discriminate Hi; macros; rewrite ?Hfit; regs.
Qed.

Lemma later_fits_final (i : Instr) (s : Regs) (c : string) :
  is_later i = true -> fits s ->
  s (grfinalwidth c) = s (grtempwidth c) \/ i = GrColsSecondFix c ->
  exec E i s (grfinalwidth c) = s (grtempwidth c).
Proof.
  unfold fits. intros Hi Hfit Hc. apply Z.ltb_lt in Hfit.
  destruct i; try discriminate Hi.
  - destruct Hc as [Hc|Hc]; [|discriminate]. macros. regs; exact Hc.
  - macros. rewrite Hfit. destruct (string_dec col_char c) as [->|Hne].
    + apply wr_same.
    + destruct Hc as [Hc|Hc]; [|congruence]. rewrite wr_other by congruence. exact Hc.
  - destruct Hc as [Hc|Hc]; [|discriminate]. macros. rewrite Hfit. exact Hc.
  - destruct Hc as [Hc|Hc]; [|discriminate]. macros. rewrite Hfit. exact Hc.
  - destruct Hc as [Hc|Hc]; [|discriminate]. macros. regs. exact Hc.
Qed.

Lemma later_run_fits (p : list Instr) : forall s,
  forallb is_later p = true -> fits s ->
  fits (run E p s) /\
  run E p s grcurcolend = s grcurcolend /\
  run E p s grtabwidth = s grtabwidth /\
  (forall c, run E p s (grtempwidth c) = s (grtempwidth c)) /\
  (forall c, s (grfinalwidth c) = s (grtempwidth c) \/ In (GrColsSecondFix c) p ->
             run E p s (grfinalwidth c) = s (grtempwidth c)).
Proof.
  induction p as [|i p IH]; intros s Hp Hfit.
  - cbn. repeat split; auto. intros c [H|[]]. exact H.
  - cbn [forallb] in Hp. apply andb_prop in Hp. destruct Hp as [Hi Hp].
    rewrite run_cons.
    destruct (later_frame i s Hi) as [F1 F2].
    assert (Hfit' : fits (exec E i s)) by (unfold fits in *; rewrite F1, F2; exact Hfit).
    destruct (IH (exec E i s) Hp Hfit') as [I1 [I2 [I3 [I4 I5]]]].
    split; [exact I1|]. split; [congruence|]. split; [congruence|]. split.
    + intros c. rewrite I4. apply later_fits_temp; assumption.
    + intros c Hc. rewrite I5.
      * apply later_fits_temp; assumption.
      * destruct Hc as [Hc | [Hc | Hc]].
        -- left. rewrite (later_fits_final i s c Hi Hfit (or_introl Hc)).
           symmetry. apply later_fits_temp; assumption.
        -- left. rewrite (later_fits_final i s c Hi Hfit (or_intror Hc)).
           symmetry. apply later_fits_temp; assumption.
        -- right. exact Hc.
Qed.

(** *** The fourth pass *)

Lemma last_frame (i : Instr) (s : Regs) :
  is_last i = true ->
  exec E i s grtofixcnt = s grtofixcnt /\
  exec E i s grxwd = s grxwd /\
  exec E i s grcurcolend = s grcurcolend /\
  exec E i s grtabwidth = s grtabwidth.
Proof.
  intros Hi. destruct i; try discriminate Hi; macros; repeat split; regs.
Qed.

Lemma last_final_other (i : Instr) (s : Regs) (c : string) :
  is_last i = true -> i <> GrColsFourthFix c ->
  exec E i s (grfinalwidth c) = s (grfinalwidth c).
Proof.
  intros Hi Hne. destruct i; try discriminate Hi; macros; regs.
Qed.

Lemma fourthfix_unset (c : string) (s : Regs) :
  ~ fits s -> s (grfinalwidth c) = 0 ->
  exec E (GrColsFourthFix c) s (grfinalwidth c) = s grxwd.
Proof.
  unfold fits. intros Hfit H0.
  assert (Hb : (s grcurcolend <? s grtabwidth) = false) by (apply Z.ltb_ge; lia).
  macros. rewrite Hb. cbv zeta.
  rewrite !wr_other by congruence. rewrite H0. cbn [Z.eqb].
  repeat first [ rewrite wr_same | rewrite wr_other by congruence ]. reflexivity.
Qed.

Lemma last_run_frame (p : list Instr) : forall s,
  forallb is_last p = true ->
  run E p s grtofixcnt = s grtofixcnt /\
  run E p s grxwd = s grxwd /\
  run E p s grcurcolend = s grcurcolend /\
  run E p s grtabwidth = s grtabwidth.
Proof.
  induction p as [|i p IH]; intros s Hp; [repeat split|].
  cbn [forallb] in Hp. apply andb_prop in Hp. destruct Hp as [Hi Hp].
  rewrite run_cons. destruct (last_frame i s Hi) as [F1 [F2 [F3 F4]]].
  destruct (IH (exec E i s) Hp) as [I1 [I2 [I3 I4]]].
  repeat split; congruence.
Qed.

Lemma last_run_final_other (p : list Instr) (c : string) : forall s,
  forallb is_last p = true -> ~ In (GrColsFourthFix c) p ->
  run E p s (grfinalwidth c) = s (grfinalwidth c).
Proof.
  induction p as [|i p IH]; intros s Hp Hc; [reflexivity|].
  cbn [forallb] in Hp. apply andb_prop in Hp. destruct Hp as [Hi Hp].
  rewrite run_cons, IH; auto.
  - apply last_final_other; [exact Hi|]. intros ->. apply Hc. left. reflexivity.
  - intros H. apply Hc. right. exact H.
Qed.

Lemma pass4_unset (cols : list string) (c : string) : forall s,
  NoDup cols -> In c cols ->
  ~ fits s -> s (grfinalwidth c) = 0 ->
  run E (map GrColsFourthFix cols) s (grfinalwidth c) = s grxwd.
Proof.
  induction cols as [|c0 cols IH]; intros s Hnd Hin Hfit H0; [destruct Hin|].
  inversion Hnd as [|? ? Hnot Hnd']; subst. cbn [map]. rewrite run_cons.
  destruct (last_frame (GrColsFourthFix c0) s eq_refl) as [_ [F2 [F3 F4]]].
  destruct (string_dec c0 c) as [->|Hne].
  - rewrite last_run_final_other.
    + apply fourthfix_unset; assumption.
    + apply forallb_forall. intros i Hi. apply in_map_iff in Hi.
      destruct Hi as [x [<- _]]. reflexivity.
    + intros Hi. apply in_map_iff in Hi. destruct Hi as [x [Hx Hi]].
      inversion Hx; subst. contradiction.
  - destruct Hin as [Hin|Hin]; [congruence|].
    rewrite IH; auto.
    + unfold fits in *. rewrite F3, F4. exact Hfit.
    + rewrite last_final_other; [exact H0|reflexivity|congruence].
Qed.

End MacroFacts.

(** *** The column letters are distinct *)

Lemma letter_decoded (i : Z) : 0 <= i <= 25 -> get_numform (letter i) = Ok i.
Proof.
  intros H. pose proof (get_charform_letter i H) as L.
  apply small_cases in H. cbv [seq map] in H.
  repeat (destruct H as [<- | H]; [reflexivity|]). destruct H.
Qed.

Lemma py_range_NoDup lo hi : NoDup (py_range lo hi).
Proof.
  unfold py_range. apply NoDup_map_NoDup_ForallPairs; [|apply seq_NoDup].
  intros x y _ _ H. lia.
Qed.

Lemma column_letters_NoDup (n : Z) : n <= 26 -> NoDup (column_letters n).
Proof.
  intros Hn. unfold column_letters.
  apply NoDup_map_NoDup_ForallPairs; [|apply py_range_NoDup].
  intros x y Hx Hy H. apply py_range_bounds in Hx, Hy.
  pose proof (letter_decoded x ltac:(lia)) as Dx.
  pose proof (letter_decoded y ltac:(lia)) as Dy.
  rewrite H in Dx. congruence.
Qed.

Section Negotiation.

Import TeX.
Variable E : Engine.

Lemma later_run_frame (p : list Instr) : forall s,
  forallb is_later p = true ->
  run E p s grcurcolend = s grcurcolend /\
  run E p s grtabwidth = s grtabwidth.
Proof.
  induction p as [|i p IH]; intros s Hp; [split; reflexivity|].
  cbn [forallb] in Hp. apply andb_prop in Hp. destruct Hp as [Hi Hp].
  rewrite run_cons. destruct (later_frame E i s Hi) as [F1 F2].
  destruct (IH (exec E i s) Hp) as [I1 I2]. split; congruence.
Qed.

Lemma sum_final_temp (cols : list string) (s s' : Regs) :
  (forall c, In c cols -> s (grfinalwidth c) = s' (grtempwidth c)) ->
  sum_final cols s = sum_temp cols s'.
Proof.
  induction cols as [|c cols IH]; intros H; [reflexivity|].
  cbn [sum_final sum_temp fold_right]. rewrite (H c (or_introl eq_refl)).
  f_equal. apply IH. intros c' Hc'. apply H. right. exact Hc'.
Qed.

Lemma forallb_map_const {A} (f : A -> Instr) (Q : Instr -> bool) (l : list A) :
  (forall x, Q (f x) = true) -> forallb Q (map f l) = true.
Proof.
  intros H. apply forallb_forall. intros i Hi. apply in_map_iff in Hi.
  destruct Hi as [x [<- _]]. apply H.
Qed.

Lemma forallb_weaken {A} (P Q : A -> bool) (l : list A) :
  (forall x, P x = true -> Q x = true) -> forallb P l = true -> forallb Q l = true.
Proof. intros H Hl. rewrite forallb_forall in Hl |- *. auto. Qed.

Lemma later_passes_split cols :
  later_passes cols = (three_passes cols ++ map GrColsFourthFix cols)%list.
Proof. unfold later_passes, three_passes. rewrite <- !app_assoc. reflexivity. Qed.

Lemma three_passes_later cols : forallb is_later (three_passes cols) = true.
Proof.
  unfold three_passes. rewrite !forallb_app.
  rewrite !forallb_map_const by reflexivity. reflexivity.
Qed.

(** C2 (as amended): when the four passes that [calc_latex_widths] writes
    are run, the fourth pass leaves grtofixcnt as the third one left it
    (only the second and the third pass lower it).  When the requirements
    of the columns together stay below the table width, every column ends
    with its required width as its final width, and the final widths sum
    up to the width that the first pass added up, which is below the
    table width.  Otherwise the fourth pass gives every column whose final
    width is still unset the equal share. *)
Theorem width_negotiation_outcome (d : LaTeXDoc) (s0 : Regs)
    (Hok : table_ok d = true) :
  exists d' pass1 spans,
    calc_latex_widths d = (Ok tt, d') /\
    backend d'
    = (backend d ++ pass1 ++ later_passes (column_letters (numcols d)) ++ spans)%list /\
    let cols := column_letters (numcols d) in
    let s1 := run E pass1 s0 in
    let s3 := run E (pass1 ++ three_passes cols) s0 in
    let s4 := run E (pass1 ++ later_passes cols ++ spans) s0 in
    s4 grtofixcnt = s3 grtofixcnt /\
    (fits s1 ->
       (forall c, In c cols -> s4 (grfinalwidth c) = s4 (grtempwidth c)) /\
       sum_final cols s4 = s1 grcurcolend - s0 grcurcolend /\
       (s0 grcurcolend = 0 -> sum_final cols s4 < s4 grtabwidth)) /\
    (~ fits s1 ->
       forall c, In c cols -> s3 (grfinalwidth c) = 0 ->
                 s4 (grfinalwidth c) = s3 grxwd).
Proof.
  destruct (calc_latex_widths_shape d Hok)
    as [d' [pass1 [spans [Ecalc [B [F1 [A1 [A9 _]]]]]]]].
  exists d', pass1, spans. split; [exact Ecalc|]. split; [exact B|].
  destruct (table_ok_parts d Hok) as [_ [_ [H26 _]]].
  pose proof (column_letters_NoDup (numcols d) H26) as Hnd.
  set (cols := column_letters (numcols d)) in *. cbv zeta.
  assert (Hspans : forallb is_last spans = true).
  { apply (forallb_weaken is_span); [|exact A9].
    intros i Hi. destruct i; try discriminate Hi; reflexivity. }
  assert (Hlast : forallb is_last (map GrColsFourthFix cols ++ spans) = true).
  { rewrite forallb_app, Hspans, forallb_map_const by reflexivity. reflexivity. }
  assert (Hlater : forallb is_later (later_passes cols ++ spans) = true).
  { rewrite later_passes_split, !forallb_app, three_passes_later.
    rewrite forallb_map_const by reflexivity. cbn [andb].
    apply (forallb_weaken is_span); [|exact A9].
    intros i Hi. destruct i; try discriminate Hi; reflexivity. }
  rewrite (run_app E pass1 (three_passes cols)).
  rewrite (run_app E pass1 (later_passes cols ++ spans)).
  set (s1 := run E pass1 s0).
  rewrite later_passes_split, <- app_assoc, (run_app E (three_passes cols)).
  set (s3 := run E (three_passes cols) s1).
  destruct (pass1_sum E pass1 cols s0 F1 A1 Hnd) as [Hsum Htab]. fold s1 in Hsum, Htab.
  split; [|split].
  - apply (last_run_frame E _ s3 Hlast).
  - intros Hfit.
    destruct (later_run_fits E (later_passes cols ++ spans) s1 Hlater Hfit)
      as [_ [_ [T4 [Temp Fin]]]].
    rewrite later_passes_split, <- app_assoc, run_app in T4, Temp, Fin. fold s3 in T4, Temp, Fin.
    assert (Hfin : forall c, In c cols ->
              run E (map GrColsFourthFix cols ++ spans) s3 (grfinalwidth c)
              = s1 (grtempwidth c)).
    { intros c Hc. apply Fin. right. apply in_or_app. left.
      unfold three_passes. cbn [app In]. right.
      apply in_or_app. left. apply in_map. exact Hc. }
    split; [|split].
    + intros c Hc. rewrite Temp. apply Hfin, Hc.
    + rewrite (sum_final_temp cols _ s1 Hfin). lia.
    + intros H0. rewrite (sum_final_temp cols _ s1 Hfin), T4.
      unfold fits in Hfit. lia.
  - intros Hfit c Hc H0.
    destruct (later_run_frame (three_passes cols) s1 (three_passes_later cols))
      as [C3 T3]. fold s3 in C3, T3.
    assert (Hfit3 : ~ fits s3) by (unfold fits in *; rewrite C3, T3; exact Hfit).
    rewrite run_app, last_run_final_other.
    + apply pass4_unset; assumption.
    + exact Hspans.
    + intros Hin. rewrite forallb_forall in A9. specialize (A9 _ Hin). discriminate A9.
Qed.

End Negotiation.

Lemma width_negotiation_outcome_witness :
  exists d' pass1 spans,
    calc_latex_widths two_by_two = (Ok tt, d') /\
    backend d'
    = (backend two_by_two ++ pass1 ++ later_passes ["a"; "b"] ++ spans)%list /\
    TeX.run demo_engine (pass1 ++ later_passes ["a"; "b"] ++ spans) zero_regs
            TeX.grtofixcnt
    = TeX.run demo_engine (pass1 ++ three_passes ["a"; "b"]) zero_regs
              TeX.grtofixcnt.
Proof.
  destruct (width_negotiation_outcome demo_engine two_by_two zero_regs eq_refl)
    as [d' [pass1 [spans [H1 [H2 [H3 _]]]]]].
  exists d', pass1, spans. split; [exact H1|]. split; [exact H2|exact H3].
Defined.

(** C2 as stated fails: for a table of one column whose text is wider than
    the page, the fourth pass gives the column the whole width and the
    counter of the columns to be fixed stays at one.  The table is the one
    that the table events [wide_events] buffer and write. *)
Lemma grtofixcnt_stays_at_one :
  fst (wide_events 1 opened_doc) = Ok tt /\
  TeX.run demo_engine (backend (snd (wide_events 1 opened_doc))) zero_regs
          TeX.grtofixcnt = 1 /\
  ~ (TeX.sum_final ["a"]
       (TeX.run demo_engine (backend (snd (wide_events 1 opened_doc))) zero_regs)
     <= TeX.run demo_engine (backend (snd (wide_events 1 opened_doc))) zero_regs
                TeX.grtabwidth /\
     TeX.run demo_engine (backend (snd (wide_events 1 opened_doc))) zero_regs
             TeX.grtofixcnt = 0).
Proof.
  split; [vm_compute; reflexivity|].
  assert (H : TeX.run demo_engine (backend (snd (wide_events 1 opened_doc))) zero_regs
                      TeX.grtofixcnt = 1) by (vm_compute; reflexivity).
  split; [exact H|]. rewrite H. intros [_ H0]. discriminate H0.
Qed.

(** Seven columns that all ask for more than their share get 0.143 of the
    width each, which is more than the width in sum. *)
Lemma seven_columns_exceed_width :
  fst (wide_events 7 opened_doc) = Ok tt /\
  TeX.sum_final (column_letters 7)
    (TeX.run demo_engine (backend (snd (wide_events 7 opened_doc))) zero_regs)
  = 22633380 /\
  TeX.run demo_engine (backend (snd (wide_events 7 opened_doc))) zero_regs
          TeX.grtabwidth = 22609920.
Proof. repeat split; vm_compute; reflexivity. Qed.

(** Two short columns fit: both end with their required width of 22pt
    (two characters and the padding on both sides), and the counter is
    zero because no column was counted in the first pass. *)
Lemma narrow_columns_keep_required_width :
  fst (narrow_events opened_doc) = Ok tt /\
  let s := TeX.run demo_engine (backend (snd (narrow_events opened_doc))) zero_regs in
  fits s /\
  s (TeX.grfinalwidth "a") = 22 * pt /\ s (TeX.grfinalwidth "b") = 22 * pt /\
  TeX.sum_final ["a"; "b"] s = 44 * pt /\ s TeX.grtabwidth = 345 * pt /\
  s TeX.grtofixcnt = 0.
Proof. cbv zeta. unfold fits. repeat split; vm_compute; reflexivity. Qed.

(** * Further properties of the code *)

(** ** Font sizes *)

(** X1: [map_font_size] never fails, and gives the name of the band in which
    the size lies: below 6 points [tiny], from 6 [scriptsize], from 8
    [footnotesize], from 10 [small], from 12 no name, from 14 [large],
    from 16 [Large], from 18 [LARGE], from 20 [huge], from 22 [Huge]. *)
Theorem map_font_size_bands (fontsize : Z) :
  map_font_size fontsize = Ok (band_name fontsize) /\
  (map_font_size fontsize = Ok "" <-> 12 <= fontsize < 14).
Proof.
  assert (E : map_font_size fontsize = Ok (band_name fontsize)).
  { unfold map_font_size, band_name, bisect, _FONT_SIZES.
    cbv [List.length bisect_loop Nat.ltb Nat.leb Nat.add Nat.div Nat.divmod fst nth].
    repeat match goal with
           | |- context [?a <? ?b] => destruct (Z.ltb_spec a b); try lia
           end; reflexivity. }
  split; [exact E|]. rewrite E. unfold band_name.
  repeat match goal with
         | |- context [?a <? ?b] => destruct (Z.ltb_spec a b); try lia
         end; split; intros Hx; try lia; try discriminate Hx; reflexivity.
Qed.

Lemma map_font_size_bands_witness : map_font_size 12 = Ok "".
Proof. apply (proj2 (proj2 (map_font_size_bands 12))). lia. Defined.

(** ** File name *)

Lemma substring_all (s : string) : substring 0 (String.length s) s = s.
Proof. induction s as [|c s IH]; cbn; [reflexivity|]. rewrite IH. reflexivity. Qed.

Lemma substring_skip (a b : string) :
  substring (String.length a) (String.length b) (a ++ b) = b.
Proof.
  induction a as [|c a IH]; cbn [String.length append].
  - apply substring_all.
  - cbn [substring]. exact IH.
Qed.

Lemma length_append (a b : string) :
  String.length (a ++ b) = (String.length a + String.length b)%nat.
Proof. induction a as [|c a IH]; cbn; [reflexivity|]. rewrite IH. reflexivity. Qed.

Lemma endswith_append (a b : string) : endswith (a ++ b) b = true.
Proof.
  unfold endswith. rewrite length_append.
  replace (String.length a + String.length b - String.length b)%nat
    with (String.length a) by lia.
  rewrite substring_skip, String.eqb_refl.
  replace (String.length b <=? String.length a + String.length b)%nat with true;
    [reflexivity|]. symmetry. apply Nat.leb_le. lia.
Qed.

(** X2: The name that [_checkfilename] leaves always ends in [.tex]; a name
    that ends in [.tex] is left as it is, so checking twice changes
    nothing more, and any other name gets the four characters added. *)
Theorem checkfilename_extension (filename : string) :
  endswith (_checkfilename filename) ".tex" = true /\
  _checkfilename (_checkfilename filename) = _checkfilename filename /\
  (endswith filename ".tex" = true -> _checkfilename filename = filename) /\
  (endswith filename ".tex" = false -> _checkfilename filename = filename ++ ".tex").
Proof.
  unfold _checkfilename at 1 3 4 5 6.
  destruct (endswith filename ".tex") eqn:E; cbn [negb].
  - repeat split; auto; try discriminate.
    unfold _checkfilename. rewrite E. reflexivity.
  - repeat split; auto; try discriminate; try apply endswith_append.
    unfold _checkfilename. rewrite endswith_append. reflexivity.
Qed.

Lemma checkfilename_extension_witness :
  _checkfilename "report.tex" = "report.tex" /\
  _checkfilename "report" = "report.tex".
Proof.
  split.
  - apply (proj1 (proj2 (proj2 (checkfilename_extension "report.tex")))). reflexivity.
  - apply (proj2 (proj2 (proj2 (checkfilename_extension "report")))). reflexivity.
Defined.

(** ** Writing outside a table *)

Lemma str_times_add (a b : nat) (s : string) :
  str_times (a + b) s = str_times a s ++ str_times b s.
Proof.
  induction a; cbn; [reflexivity|]. rewrite IHa.
  symmetry. apply append_assoc_s.
Qed.

(** X3: Outside a table [emit] indents twice: [LaTeXDoc.emit] puts [level]
    times two spaces before the text and hands it with the same [level] to
    [LaTeXBaseDoc.emit], which does it again; one write of four spaces per
    level and the text is the result, and nothing else of the document
    changes. *)
Theorem emit_outside_table_indents_twice (text : string) (level : Z)
    (tab_state : tab_event) (span : Z) (d : LaTeXDoc) :
  in_table d = false ->
  emit text level tab_state span d
  = (Ok tt, set_backend (backend d ++
       [Raw (str_times (2 * Z.to_nat level) "  " ++ text)]) d).
Proof.
  intros Hin. unfold emit, base_emit, write, modify, bind, read. rewrite Hin. cbn [negb].
  destruct (Z.eqb_spec level 0) as [-> | Hl]; [reflexivity|].
  replace (2 * Z.to_nat level)%nat with (Z.to_nat level + Z.to_nat level)%nat by lia.
  rewrite str_times_add, append_assoc_s. reflexivity.
Qed.

Lemma emit_outside_table_indents_twice_witness :
  backend (snd (emit "x" 1 CELL_TEXT 1 opened_doc)) = [Raw "    x"].
Proof.
  rewrite (emit_outside_table_indents_twice "x" 1 CELL_TEXT 1 opened_doc eq_refl).
  reflexivity.
Defined.

(** ** Beginning a table *)

Lemma start_table_begins (columns : Z) (d : LaTeXDoc) :
  start_table columns d
  = (Ok tt,
     set_textmem (textmem d ++ [String.append (str_times 5 "  ") (TABLE_HEAD columns)])
       (set_numcols columns (set_currow 0 (set_in_table true d)))).
Proof.
  open_doc d. unfold start_table, emit, handle_table. sim. reflexivity.
Qed.

(** X4: [start_table] sends no table-begin event: it calls [emit] with
    the event in the place of the level, so the text arrives as a text of
    a cell.  For every number of columns, none and more than 26 included,
    [start_table] returns; the document is in table mode with the row
    count at zero; the opening of the longtable, indented by five levels,
    is appended to the text memory; nothing is written and no table
    memory is made. *)
Theorem start_table_sends_no_event (columns : Z) (d : LaTeXDoc) :
  start_table columns d
  = (Ok tt,
     set_textmem (textmem d ++ [String.append (str_times 5 "  ") (TABLE_HEAD columns)])
       (set_numcols columns (set_currow 0 (set_in_table true d)))).
Proof. exact (start_table_begins columns d). Qed.

(** ** More on escaping *)

Section EscapeMore.

Import Escape.

Ltac by_char c :=
  destruct c as [[] [] [] [] [] [] [] []].

(** *** The separation pattern never comes out of [latexescape] *)

Lemma sub7_first (x : ascii) (s : string) :
  (x <> "&"%char /\
   pattern_sub lookup7 (String x s) = String x (pattern_sub lookup7 s)) \/
  pattern_sub lookup7 (String x s)
  = String "\" (String x (pattern_sub lookup7 s)).
Proof.
  by_char x; first [right; reflexivity | left; split; [discriminate|reflexivity]].
Qed.

(** After the seven replacements a text neither begins with an ampersand
    nor holds two of them in a row. *)
Lemma sub7_no_separator (s : string) :
  prefix "&" (pattern_sub lookup7 s) = false /\
  PyStr.contains (pattern_sub lookup7 s) SEPARATION_PAT = false.
Proof.
  unfold SEPARATION_PAT.
  induction s as [|c s [IH1 IH2]]; [split; reflexivity|].
  destruct (sub7_first c s) as [[Hc ->] | ->].
  - cbn [prefix PyStr.contains]. rewrite IH2.
    destruct (ascii_dec "&" c) as [E|_]; [congruence|]. split; reflexivity.
  - cbn [prefix PyStr.contains]. rewrite IH2.
    destruct (ascii_dec "&" "\") as [E|_]; [discriminate E|].
    destruct (ascii_dec "&" c) as [E|_]; [|split; reflexivity].
    rewrite IH1. split; reflexivity.
Qed.

(** A replacement text without ampersand brings no separation pattern in. *)
Lemma replace_go_no_separator (old new : string) (c0 : ascii) (nw : string) :
  new = String c0 nw ->
  all_chars (fun c => negb (Ascii.eqb c "&")) new = true ->
  forall s k,
    PyStr.contains s SEPARATION_PAT = false ->
    PyStr.contains (PyStr.replace_go old new s k) SEPARATION_PAT = false /\
    (k = O -> prefix "&" (PyStr.replace_go old new s k) = true -> prefix "&" s = true).
Proof.
  intros Enew Hnew.
  assert (Happ : forall t, PyStr.contains t SEPARATION_PAT = false ->
                           PyStr.contains (new ++ t) SEPARATION_PAT = false).
  { intros t Ht. clear Enew. induction new as [|c n IHn]; [exact Ht|].
    cbn [all_chars] in Hnew. apply andb_prop in Hnew. destruct Hnew as [Hc Hn].
    cbn [append PyStr.contains]. rewrite (IHn Hn).
    unfold SEPARATION_PAT. cbn [prefix].
    destruct (ascii_dec "&" c) as [<-|]; [discriminate Hc|reflexivity]. }
  unfold SEPARATION_PAT in *.
  induction s as [|c s IH]; intros k H.
  - split; [reflexivity|]. intros _ H1. exact H1.
  - pose proof H as H'. cbn [PyStr.contains] in H'. apply orb_false_iff in H'.
    destruct H' as [Hpre Hs].
    cbn [PyStr.replace_go]. destruct k as [|k].
    + destruct (prefix old (String c s)).
      * split.
        -- apply Happ. apply IH, Hs.
        -- intros _. subst new. cbn [all_chars] in Hnew.
           apply andb_prop in Hnew. destruct Hnew as [Hc0 _].
           cbn [append prefix]. destruct (ascii_dec "&" c0) as [<-|]; [discriminate Hc0|].
           discriminate.
      * destruct (IH O Hs) as [IH1 IH2]. specialize (IH2 eq_refl). split.
        -- cbn [PyStr.contains]. rewrite IH1, orb_false_r.
           cbn [prefix]. destruct (ascii_dec "&" c) as [<-|]; [|reflexivity].
           destruct (prefix "&" (PyStr.replace_go old new s 0)) eqn:E.
           ++ specialize (IH2 eq_refl). cbn [prefix] in Hpre.
              destruct (ascii_dec "&" "&") as [_|N]; [|congruence].
              rewrite IH2 in Hpre. discriminate Hpre.
           ++ reflexivity.
        -- intros _. cbn [prefix]. destruct (ascii_dec "&" c); [|discriminate].
           destruct s; reflexivity.
    + split; [apply IH, Hs|discriminate].
Qed.

(** X5: The text that [latexescape] returns never holds the separation pattern
    that marks the ends of the paragraphs of a cell: every ampersand of the
    input has got a backslash before it. *)
Theorem latexescape_never_gives_separator (text : string) :
  PyStr.contains (latexescape text) SEPARATION_PAT = false.
Proof.
  rewrite latexescape_subst. unfold PyStr.replace, ARROW.
  eapply (replace_go_no_separator _ "$\longrightarrow$" "$" "\longrightarrow$");
    [reflexivity|reflexivity|].
  apply sub7_no_separator.
Qed.

(** *** The last statement of [latexescapeverbatim] *)

Lemma lf_text_scan (s : string) : forall b,
  lf_after_space b
    (subst_chars (fun x => if Ascii.eqb "010" x then LF_TEXT else String x "") s)
  = true.
Proof.
  induction s as [|c s IH]; intros b; [reflexivity|].
  cbn [subst_chars]. destruct (Ascii.eqb_spec "010"%char c) as [<-|Hc].
  - cbn. apply IH.
  - cbn [append lf_after_space].
    destruct (Ascii.eqb_spec c "010"%char) as [->|_]; [congruence|].
    cbn [andb]. apply IH.
Qed.

Lemma prefix_split (p s : string) :
  prefix p s = true -> exists t, s = p ++ t.
Proof.
  revert s. induction p as [|c p IH]; intros s H; [exists s; reflexivity|].
  destruct s as [|x s]; [discriminate H|].
  cbn [prefix] in H. destruct (ascii_dec c x) as [->|]; [|discriminate H].
  destruct (IH s H) as [t ->]. exists t. reflexivity.
Qed.

Lemma lf_scan_no_hspace (s : string) : forall b,
  lf_after_space b s = true -> PyStr.contains s HSPACE_PAT = false.
Proof.
  induction s as [|c s IH]; intros b H; [reflexivity|].
  cbn [PyStr.contains].
  destruct (prefix HSPACE_PAT (String c s)) eqn:E.
  - apply prefix_split in E. destruct E as [t E]. rewrite E in H.
    cbn in H. discriminate H.
  - cbn [lf_after_space] in H. apply andb_prop in H. destruct H as [_ H].
    apply (IH _ H).
Qed.

(** X6: The fourth statement of [latexescapeverbatim], which is to protect a
    space at the beginning of a line, never finds its pattern: the
    statement before it puts a space before every line feed, and the
    pattern asks for a line feed right behind [\newline]. *)
Theorem latexescapeverbatim_hspace_never_applies (text : string) :
  latexescapeverbatim text
  = PyStr.replace (PyStr.replace (latexescape text) " " "\ ")
      NL (String.append "~\newline " NL).
Proof.
  unfold latexescapeverbatim.
  set (t1 := PyStr.replace (latexescape text) " " "\ ").
  change (String "010" "") with NL.
  unfold NL at 1 3. rewrite (replace_char "010" _ t1).
  unfold PyStr.replace. apply replace_go_absent.
  apply (lf_scan_no_hspace _ false). apply lf_text_scan.
Qed.

(** *** [escape] loses nothing *)

Lemma unescape_escape (s : string) : unescape (escape s) 0 = s.
Proof.
  unfold escape. induction s as [|c s IH]; [reflexivity|].
  by_char c; cbn; rewrite IH; reflexivity.
Qed.

(** X7: Two texts that [escape] maps to the same text are the same: each
    reserved character has a representation of its own that begins with a
    backslash, and a backslash of the input is itself replaced. *)
Theorem escape_injective (a b : string) :
  escape a = escape b -> a = b.
Proof.
  intros H. rewrite <- (unescape_escape a), <- (unescape_escape b), H.
  reflexivity.
Qed.

Lemma escape_injective_witness :
  escape "a~b" = escape "a~b" /\ "a~b" = "a~b".
Proof. split; [reflexivity|]. apply (escape_injective "a~b" "a~b"). reflexivity. Defined.

End EscapeMore.

(** ** The identifier generator on any base string *)

Lemma N_of_ascii_nat (c : ascii) : N_of_ascii c = N.of_nat (nat_of_ascii c).
Proof. unfold nat_of_ascii. rewrite N2Nat.id. reflexivity. Qed.

Lemma is_lower_digit (c : ascii) :
  is_lower c = true ->
  (digit_of c <= 25)%N /\ (lt_z c = false -> digit_of c = 25%N) /\
  (lt_z c = true ->
     is_lower (succ_char c) = true /\ digit_of (succ_char c) = (digit_of c + 1)%N).
Proof.
  unfold is_lower, digit_of, lt_z, succ_char. intros H.
  apply andb_prop in H. destruct H as [H1 H2].
  apply Nat.leb_le in H1. apply Nat.leb_le in H2.
  rewrite !N_of_ascii_nat. repeat split.
  - lia.
  - intros H. apply Nat.ltb_ge in H. lia.
  - apply Nat.ltb_lt in H. rewrite nat_ascii_embedding by lia.
    apply andb_true_intro. split; apply Nat.leb_le; lia.
  - apply Nat.ltb_lt in H.
    rewrite nat_ascii_embedding by lia. lia.
Qed.

Lemma numeral_value_bound (lili : list ascii) :
  forallb is_lower lili = true ->
  (numeral_value lili < 26 ^ N.of_nat (List.length lili))%N.
Proof.
  induction lili as [|c rest IH]; intros H; [cbn; lia|].
  cbn [forallb] in H. apply andb_prop in H. destruct H as [Hc Hr].
  specialize (IH Hr). destruct (is_lower_digit c Hc) as [Hd _].
  cbn [numeral_value List.length]. rewrite Nat2N.inj_succ, N.pow_succ_r'.
  nia.
Qed.

(** One round of the loop of [str_incr] on lower-case letters: the
    letters stay lower-case and as many; if the loop runs off the left end,
    every letter was a [z] and is an [a] now; otherwise the numeral went
    up by one. *)
Lemma incr_lili_counts (lili : list ascii) :
  forallb is_lower lili = true ->
  List.length (fst (incr_lili lili)) = List.length lili /\
  forallb is_lower (fst (incr_lili lili)) = true /\
  (snd (incr_lili lili) = true ->
     forallb is_z lili = true /\ numeral_value (fst (incr_lili lili)) = 0%N /\
     (numeral_value lili + 1 = 26 ^ N.of_nat (List.length lili))%N) /\
  (snd (incr_lili lili) = false ->
     forallb is_z lili = false /\
     numeral_value (fst (incr_lili lili)) = (numeral_value lili + 1)%N).
Proof.
  induction lili as [|c rest IH]; intros H.
  - cbn. repeat split; auto; discriminate.
  - cbn [forallb] in H. apply andb_prop in H. destruct H as [Hc Hr].
    destruct (IH Hr) as [IHlen [IHlow [IHrun IHstop]]]. clear IH.
    destruct (is_lower_digit c Hc) as [Hd [Hz Hs]].
    cbn [incr_lili]. destruct (incr_lili rest) as [rest' running].
    cbn [fst snd] in *. destruct running.
    + destruct (IHrun eq_refl) as [Hall [H0 Hfull]].
      destruct (lt_z c) eqn:Hlt.
      * destruct (Hs eq_refl) as [Hlow' Hdig'].
        cbn [fst snd List.length forallb numeral_value].
        rewrite IHlen, Hlow', IHlow, Hdig', H0. repeat split; auto; try discriminate.
        -- unfold is_z. unfold lt_z in Hlt. apply Nat.ltb_lt in Hlt.
           replace (nat_of_ascii c =? 122)%nat with false; [reflexivity|].
           symmetry. apply Nat.eqb_neq. lia.
        -- nia.
      * cbn [fst snd List.length forallb numeral_value].
        rewrite IHlen, IHlow, H0, Hall. specialize (Hz eq_refl).
        assert (Hcz : is_z c = true).
        { unfold is_z. unfold is_lower in Hc. unfold lt_z in Hlt.
          apply andb_prop in Hc. destruct Hc as [_ Hc]. apply Nat.leb_le in Hc.
          apply Nat.ltb_ge in Hlt. apply Nat.eqb_eq. lia. }
        rewrite Hcz. repeat split; auto; try discriminate.
        rewrite Nat2N.inj_succ, N.pow_succ_r', Hz. nia.
    + destruct (IHstop eq_refl) as [Hnot Hval].
      cbn [fst snd List.length forallb numeral_value].
      rewrite IHlen, Hc, IHlow, Hnot, Hval, andb_false_r.
      repeat split; auto; try discriminate. lia.
Qed.

Lemma all_z_value (lili : list ascii) :
  forallb is_lower lili = true ->
  (forallb is_z lili = true <->
   (numeral_value lili + 1 = 26 ^ N.of_nat (List.length lili))%N).
Proof.
  intros H. pose proof (incr_lili_counts lili H) as [_ [_ [Hrun Hstop]]].
  destruct (snd (incr_lili lili)).
  - destruct (Hrun eq_refl) as [Ha [_ Hv]]. split; auto.
  - destruct (Hstop eq_refl) as [Ha Hv]. split; [congruence|].
    intros E. exfalso.
    destruct (incr_lili_counts lili H) as [Hlen [Hlow _]].
    pose proof (numeral_value_bound _ Hlow) as Hb. rewrite Hlen, Hv in Hb. lia.
Qed.

(** [k] identifiers taken from a generator that stands at a numeral of
    lower-case letters with room for [k] more. *)
Lemma gen_take_counts (k : nat) : forall lili,
  forallb is_lower lili = true ->
  (numeral_value lili + N.of_nat k < 26 ^ N.of_nat (List.length lili))%N ->
  exists ids lili',
    gen_take k (GenYield lili) = (Ok ids, GenYield lili') /\
    List.length ids = k /\
    map (fun s => numeral_value (list_ascii_of_string s)) ids
    = count_from k (numeral_value lili + 1) /\
    Forall (fun s => String.length s = List.length lili) ids /\
    List.length lili' = List.length lili /\
    forallb is_lower lili' = true /\
    numeral_value lili' = (numeral_value lili + N.of_nat k)%N.
Proof.
  induction k as [|k IH]; intros lili Hlow Hroom.
  - exists [], lili. cbn. repeat split; auto. lia.
  - destruct (incr_lili_counts lili Hlow) as [Hlen [Hlow' [Hrun Hstop]]].
    assert (Hnz : forallb is_z lili = false).
    { destruct (forallb is_z lili) eqn:E; [|reflexivity].
      apply (all_z_value lili Hlow) in E. lia. }
    destruct (snd (incr_lili lili)) eqn:Hr;
      [destruct (Hrun eq_refl) as [Ha _]; congruence|].
    destruct (Hstop eq_refl) as [_ Hval].
    destruct (IH (fst (incr_lili lili)) Hlow') as [ids [lili' [E [L [V [S2 [L' [W N']]]]]]]].
    { rewrite Hlen, Hval. lia. }
    exists (string_of_list_ascii (fst (incr_lili lili)) :: ids), lili'.
    cbn [gen_take gen_next]. rewrite Hnz, E.
    split; [reflexivity|]. cbn [List.length map count_from].
    rewrite list_ascii_of_string_of_list_ascii, V, Hval, L.
    repeat split; auto; try congruence.
    + rewrite !N.add_1_r. reflexivity.
    + constructor.
      * rewrite <- Hlen. clear. induction (fst (incr_lili lili)); cbn; congruence.
      * rewrite <- Hlen. exact S2.
    + lia.
Qed.

(** X8: Whatever the length of the base string of letters [a], [str_incr]
    counts through all numerals of that length in base 26: it delivers
    [26 ^ length] identifiers of the length of the base, the numerals
    0, 1, 2, ... in this order, and the request after the last one raises
    [ValueError].  (The source names ['aaaa'] as the base to take when
    ['aaa'] is not enough.) *)
Theorem str_incr_counts_in_base_26 (len : nat) :
  exists ids g,
    gen_take (N.to_nat (26 ^ N.of_nat len)) (str_incr (str_times len "a")) = (Ok ids, g) /\
    map (fun s => numeral_value (list_ascii_of_string s)) ids
    = count_from (N.to_nat (26 ^ N.of_nat len)) 0 /\
    Forall (fun s => String.length s = len) ids /\
    NoDup ids /\
    is_value_error (fst (gen_next g)) = true.
Proof.
  set (base := list_ascii_of_string (str_times len "a")).
  assert (Hbase : List.length base = len /\ forallb is_lower base = true /\
                  numeral_value base = 0%N).
  { subst base. induction len as [|n [I1 [I2 I3]]]; [repeat split|].
    cbn [str_times append list_ascii_of_string List.length forallb numeral_value].
    rewrite I1, I2, I3. repeat split. }
  destruct Hbase as [Hlen [Hlow Hval]].
  assert (Hpos : (0 < 26 ^ N.of_nat len)%N) by (apply N.neq_0_lt_0, N.pow_nonzero; lia).
  destruct (N.to_nat (26 ^ N.of_nat len)) as [|k] eqn:Ek; [lia|].
  destruct (gen_take_counts k base Hlow) as [ids [lili' [E [L [V [S2 [L' [W N']]]]]]]].
  { rewrite Hlen, Hval. lia. }
  exists (string_of_list_ascii base :: ids), (GenYield lili').
  assert (Hz : forallb is_z lili' = true).
  { apply (all_z_value lili' W). rewrite L', Hlen, N', Hval. lia. }
  assert (Hmap : map (fun s => numeral_value (list_ascii_of_string s))
                     (string_of_list_ascii base :: ids) = count_from (S k) 0).
  { cbn [map count_from]. rewrite list_ascii_of_string_of_list_ascii, Hval, V, Hval.
    reflexivity. }
  split; [|split; [|split; [|split]]].
  - unfold str_incr. fold base. cbn [gen_take gen_next]. rewrite E. reflexivity.
  - exact Hmap.
  - constructor.
    + rewrite <- Hlen. clear. induction base; cbn; congruence.
    + rewrite <- Hlen. exact S2.
  - apply (NoDup_map_inv (fun s => numeral_value (list_ascii_of_string s))).
    rewrite Hmap. apply count_from_NoDup.
  - cbn [gen_next]. rewrite Hz. reflexivity.
Qed.

(** ** The rough division of [\grdividelength] *)

Section DivideFacts.

Import TeX.

Lemma scaled_bounds (digits : list Z) (len : Z) :
  0 <= len -> 0 <= round_decimals digits ->
  65536 * scaled digits len <= len * round_decimals digits
  < 65536 * scaled digits len + 65536.
Proof.
  intros Hl Hf. unfold scaled.
  rewrite Z.quot_div_nonneg by nia.
  pose proof (Z.mul_div_le (len * round_decimals digits) 65536 ltac:(lia)).
  pose proof (Z.mul_succ_div_gt (len * round_decimals digits) 65536 ltac:(lia)).
  lia.
Qed.

(** X9: With one to ten columns still to be fixed, [\grdividelength] sets
    [\grxwd] to the share of one column of what is left of the table
    width, by the decimal factors 0.5, 0.333, ..., 0.1.  The shares of all
    these columns together miss what is left by less than half a percent:
    they stay within it unless there are seven or ten columns, where the
    factors 0.143 and 0.1 (as TeX reads it) are above the exact fraction. *)
Theorem grdividelength_share (s : Regs) :
  1 <= s grtofixcnt <= 10 ->
  0 <= s grtabwidth - s grwidthused ->
  let n := s grtofixcnt in
  let left := s grtabwidth - s grwidthused in
  let share := grdividelength s grxwd in
  (n <> 7 -> n <> 10 -> n * share <= left) /\
  900 * (n * share - left) <= left /\
  250 * (left - n * share) <= left + 250 * n.
Proof.
  intros Hn Hleft. cbv zeta. unfold grdividelength.
  change (wr grtempwd (s grtabwidth - s grwidthused) s grtofixcnt)
    with (s grtofixcnt).
  change (wr grtempwd (s grtabwidth - s grwidthused) s grtempwd)
    with (s grtabwidth - s grwidthused).
  set (left := s grtabwidth - s grwidthused) in *.
  set (n := s grtofixcnt) in *.
  replace (n >? 0) with true by (symmetry; apply Z.gtb_lt; lia).
  repeat match goal with
         | |- context [n =? ?k] => destruct (Z.eqb_spec n k) as [->|]
         end;
    try lia;
    rewrite !wr_other by discriminate; rewrite wr_same;
    try (repeat split; intros; lia);
    match goal with
    | |- context [scaled ?ds left] =>
        pose proof (scaled_bounds ds left Hleft ltac:(vm_compute; discriminate)) as Hb;
        let f := eval vm_compute in (round_decimals ds) in
        change (round_decimals ds) with f in Hb
    end;
    repeat split; intros; try congruence; lia.
Qed.

End DivideFacts.

Lemma grdividelength_share_witness :
  let s := TeX.wr TeX.grtofixcnt 3 (TeX.wr TeX.grtabwidth (345 * pt) zero_regs) in
  3 * TeX.grdividelength s TeX.grxwd <= 345 * pt.
Proof.
  cbv zeta.
  apply (proj1 (grdividelength_share
           (TeX.wr TeX.grtofixcnt 3 (TeX.wr TeX.grtabwidth (345 * pt) zero_regs))
           ltac:(vm_compute; split; discriminate) ltac:(vm_compute; discriminate)));
    vm_compute; discriminate.
Defined.

(** ** What the width calculation leaves alone *)

Lemma keeps_ret {A X} (f : LaTeXDoc -> X) (a : A) : keeps f (ret a).
Proof. intros d. reflexivity. Qed.

Lemma keeps_raise {A X} (f : LaTeXDoc -> X) e : keeps f (@raise A e).
Proof. intros d. reflexivity. Qed.

Lemma keeps_lift {A X} (f : LaTeXDoc -> X) (r : result A) : keeps f (lift r).
Proof. intros d. reflexivity. Qed.

Lemma keeps_read {A X} (f : LaTeXDoc -> X) (g : LaTeXDoc -> A) : keeps f (read g).
Proof. intros d. reflexivity. Qed.

Lemma keeps_attr {A X} (f : LaTeXDoc -> X) (g : LaTeXDoc -> option A) :
  keeps f (attr g).
Proof. intros d. unfold attr. destruct (g d); reflexivity. Qed.

Lemma keeps_modify {X} (f : LaTeXDoc -> X) g :
  (forall d, f (g d) = f d) -> keeps f (modify g).
Proof. intros H d. apply H. Qed.

Lemma keeps_bind {A B X} (f : LaTeXDoc -> X) (m : M A) (k : A -> M B) :
  keeps f m -> (forall a, keeps f (k a)) -> keeps f (bind m k).
Proof.
  intros Hm Hk d. unfold bind. specialize (Hm d).
  destruct (m d) as [[a|e] d1]; cbn [snd] in *; [|exact Hm].
  rewrite (Hk a d1). exact Hm.
Qed.

Lemma keeps_foreach {A X} (f : LaTeXDoc -> X) (l : list A) (body : A -> M unit) :
  (forall x, keeps f (body x)) -> keeps f (foreach l body).
Proof.
  intros H. induction l as [|x l IH]; cbn [foreach].
  - apply keeps_ret.
  - apply keeps_bind; [apply H|intros _; exact IH].
Qed.

Lemma keeps_foldM {A S X} (f : LaTeXDoc -> X) (l : list A) (body : S -> A -> M S) :
  (forall s x, keeps f (body s x)) -> forall s, keeps f (foldM l s body).
Proof.
  intros H. induction l as [|x l IH]; intros s; cbn [foldM].
  - apply keeps_ret.
  - apply keeps_bind; [apply H|intros s'; apply IH].
Qed.

Lemma keeps_if {A X} (f : LaTeXDoc -> X) (b : bool) (m1 m2 : M A) :
  keeps f m1 -> keeps f m2 -> keeps f (if b then m1 else m2).
Proof. destruct b; auto. Qed.

Lemma keeps_write {X} (f : LaTeXDoc -> X) (i : Instr) :
  (forall b d, f (set_backend b d) = f d) -> keeps f (write i).
Proof. intros H d. unfold write, modify. cbn [snd]. apply H. Qed.

Lemma keeps_next_id {X} (f : LaTeXDoc -> X) :
  (forall g d, f (set_multcol_alph_counter g d) = f d) -> keeps f next_multcol_id.
Proof.
  intros H d. unfold next_multcol_id.
  destruct (gen_next (multcol_alph_counter d)). cbn [snd]. apply H.
Qed.

Lemma flags_backend b d : flags (set_backend b d) = flags d.
Proof. destruct d; reflexivity. Qed.

Lemma flags_counter g d : flags (set_multcol_alph_counter g d) = flags d.
Proof. destruct d; reflexivity. Qed.

Lemma flags_tabmem m d : flags (set_tabmem m d) = flags d.
Proof. destruct d; reflexivity. Qed.

Lemma view_backend b d : table_view (set_backend b d) = table_view d.
Proof. destruct d; reflexivity. Qed.

Lemma view_counter g d : table_view (set_multcol_alph_counter g d) = table_view d.
Proof. destruct d; reflexivity. Qed.

(** Steps through a method that is built from the parts above. *)
Ltac keep :=
  repeat first
    [ apply keeps_ret | apply keeps_raise | apply keeps_lift
    | apply keeps_read | apply keeps_attr
    | apply keeps_write; first [exact flags_backend | exact view_backend]
    | apply keeps_next_id; first [exact flags_counter | exact view_counter]
    | apply keeps_modify;
        first [exact (flags_backend _) | exact (flags_counter _)
              | exact (flags_tabmem _) | exact (view_backend _)
              | exact (view_counter _)]
    | apply keeps_bind; [|intros ?]
    | apply keeps_foreach; intros ?
    | apply keeps_foldM; intros ? ?
    | apply keeps_if ].

(** Replacing the separation pattern leaves none of it behind. *)
Lemma separator_replaced (new : string) (c0 : ascii) (nw : string) :
  new = String c0 nw ->
  all_chars (fun c => negb (Ascii.eqb c "&")) new = true ->
  forall s k,
    PyStr.contains (PyStr.replace_go SEPARATION_PAT new s k) SEPARATION_PAT = false /\
    (k = O -> prefix "&" (PyStr.replace_go SEPARATION_PAT new s k) = true ->
     prefix "&" s = true).
Proof.
  intros Enew Hnew.
  assert (Happ : forall t, PyStr.contains t SEPARATION_PAT = false ->
                           PyStr.contains (new ++ t) SEPARATION_PAT = false).
  { intros t Ht. clear Enew. induction new as [|c n IHn]; [exact Ht|].
    cbn [all_chars] in Hnew. apply andb_prop in Hnew. destruct Hnew as [Hc Hn].
    cbn [append PyStr.contains]. rewrite (IHn Hn).
    unfold SEPARATION_PAT. cbn [prefix].
    destruct (ascii_dec "&" c) as [<-|]; [discriminate Hc|reflexivity]. }
  unfold SEPARATION_PAT in *.
  induction s as [|c s IH]; intros k.
  - split; [reflexivity|]. intros _ H1. exact H1.
  - cbn [PyStr.replace_go]. destruct k as [|k].
    + destruct (prefix "&&" (String c s)) eqn:Hpre.
      * split.
        -- apply Happ. apply IH.
        -- intros _. subst new. cbn [all_chars] in Hnew.
           apply andb_prop in Hnew. destruct Hnew as [Hc0 _].
           cbn [append prefix]. destruct (ascii_dec "&" c0) as [<-|]; [discriminate Hc0|].
           discriminate.
      * destruct (IH O) as [IH1 IH2]. specialize (IH2 eq_refl). split.
        -- cbn [PyStr.contains]. rewrite IH1, orb_false_r.
           cbn [prefix]. destruct (ascii_dec "&" c) as [<-|]; [|reflexivity].
           destruct (prefix "&" (PyStr.replace_go "&&" new s 0)) eqn:E; [|reflexivity].
           specialize (IH2 eq_refl). cbn [prefix] in Hpre.
           destruct (ascii_dec "&" "&") as [_|N]; [|congruence].
           rewrite IH2 in Hpre. discriminate Hpre.
        -- intros _. cbn [prefix]. destruct (ascii_dec "&" c); [|discriminate].
           destruct s; reflexivity.
    + split; [apply IH|discriminate].
Qed.

Lemma separator_replaced_twice (s : string) :
  PyStr.replace (PyStr.replace s SEPARATION_PAT LF_TEXT) SEPARATION_PAT LF_TEXT
  = PyStr.replace s SEPARATION_PAT LF_TEXT.
Proof.
  unfold PyStr.replace at 1. unfold SEPARATION_PAT at 1.
  apply replace_go_absent.
  apply (separator_replaced LF_TEXT "~" _ eq_refl eq_refl s 0).
Qed.

Lemma list_update_same {A B} (g : A -> B) (f : A -> A) (l : list A) :
  (forall x, g (f x) = g x) -> forall n, map g (list_update l n f) = map g l.
Proof.
  intros H. induction l as [|x l IH]; intros [|n]; cbn; try reflexivity.
  - rewrite H. reflexivity.
  - rewrite IH. reflexivity.
Qed.

Lemma list_update_at {A B} (g : A -> B) (f : A -> A) (l : list A) (x : A) :
  forall n, nth_error l n = Some x -> g (f x) = g x ->
  map g (list_update l n f) = map g l.
Proof.
  induction l as [|y l IH]; intros [|n] Hn Hx; cbn in *; try discriminate.
  - injection Hn as ->. rewrite Hx. reflexivity.
  - rewrite (IH n Hn Hx). reflexivity.
Qed.

Lemma py_index_nth_error {A} (l : list A) (i : Z) (a : A) :
  py_index l i = Ok a -> 0 <= i -> nth_error l (Z.to_nat i) = Some a.
Proof.
  unfold py_index. intros H Hi.
  replace (i <? 0) with false in H by (symmetry; apply Z.ltb_ge; lia).
  destruct ((i <? 0) || (Z.of_nat (List.length l) <=? i)); [discriminate|].
  destruct (nth_error l (Z.to_nat i)); [congruence|discriminate].
Qed.

Lemma measure_cell_keeps_view (col_num : Z) (r : nat) :
  0 <= col_num -> keeps table_view (measure_cell col_num r).
Proof.
  intros Hcol d. unfold measure_cell.
  unfold bind at 1. unfold attr at 1.
  destruct (tabmem d) as [mem|] eqn:Hmem; [|reflexivity].
  unfold bind at 1. unfold lift at 1.
  destruct (py_index (m_rows mem) (Z.of_nat r)) as [row|] eqn:Hrow; [|reflexivity].
  unfold bind at 1. unfold lift at 1.
  destruct (py_index (r_cells row) col_num) as [cell|] eqn:Hcell; [|reflexivity].
  destruct (c_span cell =? 0); [reflexivity|].
  assert (Htail : keeps table_view
            (if c_span cell =? 1 then write GrSetReqFull
             else if c_span cell >? 1
                  then beg <- lift (span_beg_char cell) ;; write (GrSetReqPart beg)
                  else ret tt)) by keep.
  destruct (PyStr.startswith (c_content cell) PICT_MARK).
  - unfold bind at 1. unfold bind at 1. unfold read at 1.
    destruct (pict_width d) as [k|w]; [reflexivity|].
    unfold write at 1. cbn [modify]. rewrite Htail. apply view_backend.
  - unfold bind at 1. unfold bind at 1. unfold lift at 1.
    change (PyStr.split (c_content cell) SEPARATION_PAT)
      with (Ok (PyStr.split_go SEPARATION_PAT (c_content cell) 0 "")).
    unfold bind at 1. rewrite write_loop.
    unfold assign_content. unfold bind at 1.
    rewrite (attr_some tabmem _ mem) by (open_doc d; exact Hmem).
    cbn [modify]. rewrite Htail.
    unfold table_view. rewrite Hmem. open_doc d. cbn [tabmem set_tabmem set_backend option_map].
    f_equal. unfold mem_view. cbn [m_head m_tail m_rows set_rows]. f_equal.
    apply py_index_nth_error in Hrow; [|lia]. rewrite Nat2Z.id in Hrow.
    apply py_index_nth_error in Hcell; [|exact Hcol].
    apply (list_update_at row_view _ _ row _ Hrow).
    unfold row_view. cbn [r_cells r_tail r_addit set_cells]. do 2 f_equal.
    apply (list_update_at cell_view _ _ cell _ Hcell).
    unfold cell_view. cbn [c_colchar c_span c_head c_content set_content].
    f_equal. apply separator_replaced_twice.
Qed.

Lemma measure_cell_keeps_flags (col_num : Z) (r : nat) :
  keeps flags (measure_cell col_num r).
Proof.
  unfold measure_cell. apply keeps_bind; [keep|intros mem].
  apply keeps_bind; [keep|intros row]. apply keeps_bind; [keep|intros cell].
  apply keeps_if; [keep|]. apply keeps_bind; [|intros _; keep].
  apply keeps_if.
  - apply keeps_bind; [keep|intros [k|w]]; keep.
  - unfold assign_content. keep.
Qed.

(** X10: Whatever its outcome, [calc_latex_widths] changes nothing of the
    document but the backend, the identifier generator and the contents of
    cells, and in a content nothing but the separation patterns, which it
    replaces by line breaks: the flags and counters of the document, the
    number of rows and of cells, and the letter, span and head of every
    cell stay as they were.  Nothing is said of the current cell and the
    current row: in the source they are the last cell and row of the
    table themselves, and their contents change with those of the table. *)
Theorem calc_latex_widths_frame (d : LaTeXDoc) :
  flags (snd (calc_latex_widths d)) = flags d /\
  table_view (snd (calc_latex_widths d)) = table_view d.
Proof.
  split.
  - revert d. change (keeps flags calc_latex_widths). unfold calc_latex_widths.
    apply keeps_bind; [keep|intros n]. apply keeps_bind.
    + apply keeps_foldM. intros acc col. unfold measure_column.
      apply keeps_bind; [keep|intros ch]. apply keeps_bind; [keep|intros mem].
      apply keeps_bind; [|intros _; keep].
      apply keeps_foreach. intros r. apply measure_cell_keeps_flags.
    + intros cols. unfold span_width. keep.
  - revert d. change (keeps table_view calc_latex_widths). unfold calc_latex_widths.
    apply keeps_bind; [keep|intros n]. apply keeps_bind.
    + assert (H : forall cols acc, (forall c, In c cols -> 0 <= c) ->
                keeps table_view (foldM cols acc measure_column)).
      { induction cols as [|c cols IH]; intros acc Hc; cbn [foldM]; [keep|].
        apply keeps_bind; [|intros acc'; apply IH; intros c' H'; apply Hc; right; exact H'].
        unfold measure_column.
        apply keeps_bind; [keep|intros ch]. apply keeps_bind; [keep|intros mem].
        apply keeps_bind; [|intros _; keep].
        apply keeps_foreach. intros r. apply measure_cell_keeps_view.
        apply Hc. left. reflexivity. }
      apply H. intros c Hc. apply py_range_bounds in Hc. lia.
    + intros cols. unfold span_width. keep.
Qed.

(** ** The rendering of a table *)

(** *** The identifiers by their numbers *)

Lemma gen_take_snd_succ (k : nat) (g g1 : str_incr_gen) (s : string) :
  gen_next g = (Ok s, g1) -> snd (gen_take (S k) g) = snd (gen_take k g1).
Proof.
  intros E. rewrite gen_take_unfold, E.
  destruct (gen_take k g1) as [[?|?] ?]; reflexivity.
Qed.

Lemma gen_take_nth (n : nat) : forall g l g',
  gen_take n g = (Ok l, g') ->
  forall j, (j < n)%nat ->
  gen_next (snd (gen_take j g)) = (Ok (nth j l ""), snd (gen_take (S j) g)).
Proof.
  induction n as [|n IH]; intros g l g' H j Hj; [lia|].
  rewrite gen_take_unfold in H.
  destruct (gen_next g) as [[s|e] g1] eqn:E; [|discriminate].
  destruct (gen_take n g1) as [[l1|e] g2] eqn:E1; [|discriminate].
  inversion H; subst. destruct j as [|j].
  - rewrite (gen_take_snd_succ 0 g g1 s E). cbn [gen_take snd nth]. exact E.
  - rewrite (gen_take_snd_succ (S j) g g1 s E), (gen_take_snd_succ j g g1 s E).
    cbn [nth]. apply (IH g1 l1 g' E1). lia.
Qed.

Lemma nth_count_from (n : nat) : forall s j d,
  (j < n)%nat -> nth j (count_from n s) d = (s + N.of_nat j)%N.
Proof.
  induction n as [|n IH]; intros s j d Hj; [lia|].
  destruct j as [|j]; cbn [count_from nth]; [lia|].
  rewrite IH by lia. lia.
Qed.

Lemma gen_after_next_id (j : nat) :
  (j < CAPACITY)%nat ->
  gen_next (gen_after j) = (Ok (nth_id j), gen_after (S j)).
Proof.
  intros Hj. unfold gen_after.
  rewrite (gen_take_nth CAPACITY _ _ _ str_incr_ids j Hj).
  rewrite (nth_map_in id_of _ j 0%N) by (rewrite count_from_length; exact Hj).
  rewrite nth_count_from by exact Hj. reflexivity.
Qed.

Lemma set_counter_same (d : LaTeXDoc) :
  set_multcol_alph_counter (multcol_alph_counter d) d = d.
Proof. destruct d; reflexivity. Qed.

Lemma set_counter_twice (g g' : str_incr_gen) (d : LaTeXDoc) :
  set_multcol_alph_counter g (set_multcol_alph_counter g' d)
  = set_multcol_alph_counter g d.
Proof. destruct d; reflexivity. Qed.

(** *** The two renderings of a row *)

Lemma wide_count_cons (c : TabCell) (cs : list TabCell) :
  wide_count (c :: cs) = ((if is_wide c then 1 else 0) + wide_count cs)%nat.
Proof. unfold wide_count. cbn [filter]. destruct (is_wide c); reflexivity. Qed.

Lemma wide_count_app (a b : list TabCell) :
  wide_count (a ++ b) = (wide_count a + wide_count b)%nat.
Proof. unfold wide_count. rewrite filter_app, length_app. reflexivity. Qed.

Lemma visible_numbered_cons (c : TabCell) (cs : list TabCell) (j : nat) :
  visible_numbered j (c :: cs)
  = ((if visible c then [(c, j)] else [])
     ++ visible_numbered (if is_wide c then S j else j) cs)%list.
Proof.
  unfold visible_numbered. cbn [numbered filter fst].
  destruct (visible c); reflexivity.
Qed.

(** The width of a cell that is rendered, and the identifier it takes. *)
Lemma cell_width_run (c : TabCell) (j : nat) (d : LaTeXDoc) :
  multcol_alph_counter d = gen_after j ->
  ((if is_wide c then S j else j) <= CAPACITY)%nat ->
  visible c = true ->
  (if c_span c =? 1
   then ret (PyStr.join0 ["\grtempwidth"; c_colchar c])
   else id <- next_multcol_id ;; ret (PyStr.join0 ["\grspanwidth"; id])) d
  = (Ok (width_name (c, j)),
     set_multcol_alph_counter (gen_after (if is_wide c then S j else j)) d).
Proof.
  intros Hg Hj Hv. unfold width_name, is_wide, visible in *. cbn [fst snd].
  destruct (c_span c =? 0); [discriminate Hv|]. cbn [negb andb] in *.
  destruct (c_span c =? 1); cbn [negb] in *.
  - rewrite <- Hg, set_counter_same. reflexivity.
  - unfold bind, next_multcol_id. rewrite Hg, gen_after_next_id by lia.
    reflexivity.
Qed.

Lemma complete_cells_run (cells : list TabCell) : forall acc j d,
  multcol_alph_counter d = gen_after j ->
  (j + wide_count cells <= CAPACITY)%nat ->
  foldM cells acc complete_cell d
  = (Ok (acc ++ map complete_part (visible_numbered j cells))%list,
     set_multcol_alph_counter (gen_after (j + wide_count cells)) d).
Proof.
  induction cells as [|c cells IH]; intros acc j d Hg Hj.
  - cbn. rewrite app_nil_r, Nat.add_0_r, <- Hg, set_counter_same. reflexivity.
  - rewrite wide_count_cons in Hj. rewrite wide_count_cons, visible_numbered_cons.
    set (k := if is_wide c then S j else j).
    assert (Hk : (j + ((if is_wide c then 1 else 0) + wide_count cells)
                  = k + wide_count cells)%nat)
      by (subst k; destruct (is_wide c); lia).
    rewrite Hk. cbn [foldM]. unfold bind at 1. unfold complete_cell at 1.
    destruct (visible c) eqn:Hv.
    + assert (H0 : (c_span c =? 0) = false)
        by (unfold visible in Hv; destruct (c_span c =? 0); [discriminate|reflexivity]).
      rewrite H0. unfold bind at 1.
      rewrite (cell_width_run c j d Hg) by (try exact Hv; fold k; lia).
      fold k. cbn [ret].
      rewrite (IH _ k) by (first [destruct d; reflexivity | lia]).
      rewrite set_counter_twice, <- app_assoc. reflexivity.
    + assert (H0 : (c_span c =? 0) = true)
        by (unfold visible in Hv; destruct (c_span c =? 0); [reflexivity|discriminate]).
      assert (Hw : is_wide c = false) by (unfold is_wide; rewrite H0; reflexivity).
      rewrite H0. cbn [ret app]. subst k. rewrite Hw in *.
      apply IH; [exact Hg|lia].
Qed.

Lemma mk_complete_row_run (row : TabRow) (j : nat) (d : LaTeXDoc) :
  multcol_alph_counter d = gen_after j ->
  (j + wide_count (r_cells row) <= CAPACITY)%nat ->
  mk_complete_row row d
  = (Ok (complete_text j row),
     set_multcol_alph_counter (gen_after (j + wide_count (r_cells row))) d).
Proof.
  intros Hg Hj. unfold mk_complete_row, bind.
  rewrite (complete_cells_run _ [] j d Hg Hj). reflexivity.
Qed.

Lemma splitting_cells_begun (cells : list TabCell) : forall acc v j d,
  acc <> [] ->
  multcol_alph_counter d = gen_after j ->
  (j + wide_count cells <= CAPACITY)%nat ->
  foldM cells (acc, v) splitting_cell d
  = (Ok ((acc ++ map (splitting_part v) (visible_numbered j cells))%list, v),
     set_multcol_alph_counter (gen_after (j + wide_count cells)) d).
Proof.
  induction cells as [|c cells IH]; intros acc v j d Hacc Hg Hj.
  - cbn. rewrite app_nil_r, Nat.add_0_r, <- Hg, set_counter_same. reflexivity.
  - rewrite wide_count_cons in Hj. rewrite wide_count_cons, visible_numbered_cons.
    set (k := if is_wide c then S j else j).
    assert (Hk : (j + ((if is_wide c then 1 else 0) + wide_count cells)
                  = k + wide_count cells)%nat)
      by (subst k; destruct (is_wide c); lia).
    rewrite Hk. cbn [foldM]. unfold bind at 1. unfold splitting_cell at 1.
    destruct (visible c) eqn:Hv.
    + assert (H0 : (c_span c =? 0) = false)
        by (unfold visible in Hv; destruct (c_span c =? 0); [discriminate|reflexivity]).
      rewrite H0. unfold bind at 1.
      replace (is_nil acc) with false by (destruct acc; [congruence|reflexivity]).
      cbn [ret]. unfold bind at 1.
      rewrite (cell_width_run c j d Hg) by (try exact Hv; fold k; lia).
      fold k. cbn [ret].
      rewrite (IH _ v k) by
        (first [destruct d; reflexivity | lia | destruct acc; discriminate]).
      rewrite set_counter_twice, <- app_assoc. reflexivity.
    + assert (H0 : (c_span c =? 0) = true)
        by (unfold visible in Hv; destruct (c_span c =? 0); [reflexivity|discriminate]).
      assert (Hw : is_wide c = false) by (unfold is_wide; rewrite H0; reflexivity).
      rewrite H0. cbn [ret app]. subst k. rewrite Hw in *.
      apply IH; [exact Hacc|exact Hg|lia].
Qed.

Lemma splitting_cells_run (cells : list TabCell) : forall j d,
  forallb cell_renderable cells = true ->
  multcol_alph_counter d = gen_after j ->
  (j + wide_count cells <= CAPACITY)%nat ->
  exists v,
    foldM cells ([], "\grempty") splitting_cell d
    = (Ok (map (splitting_part (vdots_mark (numcols d) cells))
               (visible_numbered j cells), v),
       set_multcol_alph_counter (gen_after (j + wide_count cells)) d).
Proof.
  induction cells as [|c cells IH]; intros j d Hok Hg Hj.
  - exists "\grempty". cbn.
    rewrite Nat.add_0_r, <- Hg, set_counter_same. reflexivity.
  - cbn [forallb] in Hok. apply andb_prop in Hok. destruct Hok as [Hc Hok].
    rewrite wide_count_cons in Hj. rewrite wide_count_cons, visible_numbered_cons.
    set (k := if is_wide c then S j else j).
    assert (Hk : (j + ((if is_wide c then 1 else 0) + wide_count cells)
                  = k + wide_count cells)%nat)
      by (subst k; destruct (is_wide c); lia).
    rewrite Hk. cbn [foldM]. unfold bind at 1. unfold splitting_cell at 1.
    unfold vdots_mark. cbn [filter].
    destruct (visible c) eqn:Hv.
    + assert (H0 : (c_span c =? 0) = false)
        by (unfold visible in Hv; destruct (c_span c =? 0); [discriminate|reflexivity]).
      rewrite H0. unfold bind at 1. cbn [is_nil].
      unfold cell_renderable in Hc. apply andb_prop in Hc. destruct Hc as [_ Hc].
      destruct (get_numform (c_colchar c)) as [num|] eqn:En; [|discriminate Hc].
      unfold bind at 1. unfold lift at 1. unfold bind at 1. unfold read at 1.
      cbn [ret]. unfold bind at 1.
      rewrite (cell_width_run c j d Hg) by (try exact Hv; fold k; lia).
      fold k. cbn [ret].
      set (v := if num =? numcols d - 1 then "\graddvdots" else "\grempty").
      exists v.
      rewrite (splitting_cells_begun cells _ v k) by
        (first [destruct d; reflexivity | lia | discriminate]).
      rewrite set_counter_twice. reflexivity.
    + assert (H0 : (c_span c =? 0) = true)
        by (unfold visible in Hv; destruct (c_span c =? 0); [reflexivity|discriminate]).
      assert (Hw : is_wide c = false) by (unfold is_wide; rewrite H0; reflexivity).
      rewrite H0. cbn [ret app]. subst k. rewrite Hw in *.
      apply (IH j d Hok Hg). lia.
Qed.

Lemma mk_splitting_row_run (row : TabRow) (d : LaTeXDoc) :
  forallb cell_renderable (r_cells row) = true ->
  multcol_alph_counter d = gen_after 0 ->
  (wide_count (r_cells row) <= CAPACITY)%nat ->
  mk_splitting_row row d
  = (Ok (splitting_text (numcols d) row),
     set_multcol_alph_counter (gen_after (wide_count (r_cells row))) d).
Proof.
  intros Hok Hg Hj. unfold mk_splitting_row, bind.
  destruct (splitting_cells_run _ 0 d Hok Hg Hj) as [v E].
  rewrite E. reflexivity.
Qed.

(** X11: A placeholder cell leaves no trace in a rendered row: the row without
    its placeholders is rendered to the same text, and takes the same
    identifiers. *)
Theorem placeholders_not_rendered (row : TabRow) (d : LaTeXDoc) :
  mk_complete_row row d
  = mk_complete_row (set_cells (filter visible (r_cells row)) row) d /\
  mk_splitting_row row d
  = mk_splitting_row (set_cells (filter visible (r_cells row)) row) d.
Proof.
  assert (Hc : forall cells acc d0,
            foldM cells acc complete_cell d0
            = foldM (filter visible cells) acc complete_cell d0).
  { induction cells as [|c cells IH]; intros acc d0; [reflexivity|].
    cbn [filter]. unfold visible at 1. destruct (c_span c =? 0) eqn:H0; cbn [negb].
    - cbn [foldM]. unfold bind at 1. unfold complete_cell at 1. rewrite H0.
      cbn [ret]. apply IH.
    - cbn [foldM]. unfold bind. destruct (complete_cell acc c d0) as [[a|e] d1];
        [apply IH|reflexivity]. }
  assert (Hs : forall cells loc d0,
            foldM cells loc splitting_cell d0
            = foldM (filter visible cells) loc splitting_cell d0).
  { induction cells as [|c cells IH]; intros loc d0; [reflexivity|].
    cbn [filter]. unfold visible at 1. destruct (c_span c =? 0) eqn:H0; cbn [negb].
    - cbn [foldM]. unfold bind at 1. unfold splitting_cell at 1. destruct loc.
      rewrite H0. cbn [ret]. apply IH.
    - cbn [foldM]. unfold bind. destruct (splitting_cell loc c d0) as [[a|e] d1];
        [apply IH|reflexivity]. }
  split.
  - unfold mk_complete_row, bind. cbn [r_cells set_cells r_tail r_addit].
    rewrite Hc. reflexivity.
  - unfold mk_splitting_row, bind. cbn [r_cells set_cells r_tail].
    rewrite Hs. reflexivity.
Qed.

(** *** The whole of [write_table] *)

Lemma addto_loop (cols : list Z) : forall d,
  (forall c, In c cols -> 0 <= c <= 25) ->
  foreach cols (fun col_num =>
    col_char <- lift (get_charform col_num) ;;
    write (Raw (PyStr.join0 ["\addtolength{\grtempwidth"; col_char;
                             "}{+0.0cm}%"; NL]))) d
  = (Ok tt, set_backend (backend d ++
       map (fun col => Raw (PyStr.join0 ["\addtolength{\grtempwidth"; letter col;
                                         "}{+0.0cm}%"; NL])) cols) d).
Proof.
  induction cols as [|c cols IH]; intros d H.
  - open_doc d. cbn. rewrite app_nil_r. reflexivity.
  - cbn [foreach]. unfold bind at 1. unfold bind at 1. unfold lift at 1.
    rewrite (get_charform_letter c) by (apply H; left; reflexivity).
    unfold write at 1. cbn [modify].
    rewrite IH by (intros c' Hc'; apply H; right; exact Hc').
    open_doc d. cbn. rewrite <- app_assoc. reflexivity.
Qed.

Lemma later_rows_run (rows : list TabRow) : forall j d,
  multcol_alph_counter d = gen_after j ->
  (j + wide_count (List.concat (map r_cells rows)) <= CAPACITY)%nat ->
  foreach rows (fun row => text <- mk_complete_row row ;; write (Raw text)) d
  = (Ok tt,
     set_multcol_alph_counter
       (gen_after (j + wide_count (List.concat (map r_cells rows))))
       (set_backend (backend d ++ map Raw (complete_texts j rows)) d)).
Proof.
  induction rows as [|row rows IH]; intros j d Hg Hj.
  - cbn. rewrite Nat.add_0_r, <- Hg. open_doc d. cbn. rewrite app_nil_r. reflexivity.
  - cbn [map List.concat] in Hj |- *. rewrite wide_count_app in Hj |- *.
    cbn [foreach]. unfold bind at 1. unfold bind at 1.
    rewrite (mk_complete_row_run row j d Hg) by lia.
    unfold write at 1. cbn [modify].
    rewrite (IH (j + wide_count (r_cells row))%nat) by
      (first [open_doc d; reflexivity | lia]).
    cbn [complete_texts map]. open_doc d. cbn. rewrite <- app_assoc, Nat.add_assoc.
    reflexivity.
Qed.

(** Unfolds assignments and attribute reads on a state that is written
    out, and steps through the statements of a method one by one. *)
Ltac norm_doc :=
  cbv beta iota delta [set_in_table set_in_multrow_cell set_pict set_pict_in_table set_pict_width
       set_textmem set_head_line set_numcols set_currow set_curcol set_colspan
       set_doline set_skipfirst set_curcol_char set_tabcell set_tabrow set_tabmem
       set_multcol_alph_counter set_backend
       in_table in_multrow_cell pict pict_in_table pict_width textmem head_line
       numcols currow curcol colspan doline skipfirst curcol_char tabcell tabrow
       tabmem multcol_alph_counter backend] in *.
Lemma bind_assoc {A B C} (m : M A) (f : A -> M B) (k : B -> M C) (d : LaTeXDoc) :
  bind (bind m f) k d = bind m (fun a => bind (f a) k) d.
Proof. unfold bind. destruct (m d) as [[a|e] d1]; reflexivity. Qed.

Ltac step :=
  match goal with
  | |- bind (read _) _ _ = _ => unfold bind at 1; unfold read at 1
  | |- bind (write _) _ _ = _ => unfold bind at 1; unfold write at 1; cbn [modify]
  | |- bind (modify _) _ _ = _ => unfold bind at 1; cbn [modify]
  | |- bind (attr _) _ _ = _ => unfold bind at 1; unfold attr at 1
  | |- bind (lift _) _ _ = _ => unfold bind at 1; unfold lift at 1
  | |- bind (ret _) _ _ = _ => unfold bind at 1; cbn [ret]
  | |- bind (bind _ _) _ _ = _ => rewrite bind_assoc
  | |- write _ _ = _ => unfold write at 1; unfold modify at 1
  end; norm_doc.

Lemma py_index_first {A} (x : A) (l : list A) : py_index (x :: l) 0 = Ok x.
Proof. apply (py_index_nth (x :: l) 0 x). cbn [List.length]. lia. Qed.

Lemma write_table_run (d : LaTeXDoc) (mem : TabMem) (first_row : TabRow)
    (rest : list TabRow) :
  numcols d <= 26 ->
  tabmem d = Some mem ->
  m_rows mem = first_row :: rest ->
  forallb cell_renderable (r_cells first_row) = true ->
  (wide_count (all_cells d) <= CAPACITY)%nat ->
  write_table d
  = (Ok tt,
     set_pict "" (set_head_line false
       (set_multcol_alph_counter (gen_after (wide_count (all_cells d)))
          (set_backend (backend d ++ table_text (numcols d) (pict d) (head_line d) mem)
             d)))).
Proof.
  intros H26 Hmem Hrows Hfirst Hcap.
  assert (Hall : all_cells d = (r_cells first_row ++ List.concat (map r_cells rest))%list).
  { unfold all_cells. rewrite Hmem, Hrows. reflexivity. }
  rewrite Hall in *. rewrite wide_count_app in *. clear Hall.
  unfold write_table, table_text. rewrite Hrows.
  open_doc d. norm_doc. subst d_tabmem.
  do 3 step.
  unfold bind at 1. rewrite addto_loop.
  2:{ intros c Hc. apply py_range_bounds in Hc. lia. }
  norm_doc.
  do 2 step.
  assert (Hfin : forall (X : LaTeXDoc),
    multcol_alph_counter X = gen_after (wide_count (r_cells first_row)) ->
    tabmem X = Some mem ->
    (foreach rest (fun row => text <- mk_complete_row row ;; write (Raw text)) ;;
     mem <- attr tabmem ;;
     write (Raw (PyStr.join0 [m_tail mem; "}%"; NL; NL]))) X
    = (Ok tt,
       set_multcol_alph_counter
         (gen_after (wide_count (r_cells first_row)
                     + wide_count (List.concat (map r_cells rest))))
         (set_backend (backend X ++
            map Raw (complete_texts (wide_count (r_cells first_row)) rest) ++
            [Raw (PyStr.join0 [m_tail mem; "}%"; NL; NL])]) X))).
  { intros X HX HM. unfold bind at 1.
    rewrite (later_rows_run rest _ X HX) by lia.
    destruct X. norm_doc. subst.
    do 2 step. rewrite <- app_assoc. reflexivity. }
  destruct (String.eqb_spec d_pict "") as [->|Hp]; destruct d_head_line;
    repeat step; rewrite Hrows, py_index_first; norm_doc;
    (unfold bind at 1;
     rewrite mk_splitting_row_run by (first [exact Hfirst | reflexivity | norm_doc; lia]));
    norm_doc; step;
    (unfold bind at 1;
     rewrite (mk_complete_row_run _ 0) by (first [reflexivity | norm_doc; lia]));
    norm_doc; repeat step; cbn [tl Nat.add];
    rewrite Hfin by reflexivity;
    norm_doc; rewrite <- !app_assoc; reflexivity.
Qed.

(** ** The end of a table *)

(** *** The span pass, instruction by instruction *)

Lemma span_cells_exact (cells : list TabCell) : forall d j,
  multcol_alph_counter d = gen_after j ->
  forallb (fun c => 0 <=? c_span c) cells = true ->
  forallb (cell_ok (pict_width d)) cells = true ->
  (j + wide_count cells <= CAPACITY)%nat ->
  foreach cells span_width d
  = (Ok tt,
     set_multcol_alph_counter (gen_after (j + wide_count cells))
       (set_backend (backend d ++
          map span_instr (filter (fun p => is_wide (fst p)) (numbered j cells))) d)).
Proof.
  induction cells as [|c cells IH]; intros d j Hg Hnn Hok Hj.
  - cbn. rewrite Nat.add_0_r, <- Hg. destruct d. cbn. rewrite app_nil_r. reflexivity.
  - cbn [forallb] in Hnn, Hok.
    apply andb_prop in Hnn. destruct Hnn as [Hc0 Hnn].
    apply andb_prop in Hok. destruct Hok as [Hc Hok].
    apply Z.leb_le in Hc0.
    rewrite wide_count_cons in Hj. rewrite wide_count_cons.
    cbn [foreach numbered filter fst]. unfold bind at 1. unfold span_width at 1.
    assert (Hw : is_wide c = (c_span c >? 1)).
    { unfold is_wide. destruct (Z.eqb_spec (c_span c) 0), (Z.eqb_spec (c_span c) 1),
        (Z.gtb_spec (c_span c) 1); cbn; try reflexivity; lia. }
    rewrite <- Hw. destruct (is_wide c) eqn:Ew.
    + unfold cell_ok in Hc. apply andb_prop in Hc. destruct Hc as [_ Hbeg].
      replace (c_span c <=? 1) with false in Hbeg
        by (symmetry; apply Z.leb_gt; symmetry in Hw; apply Z.gtb_lt in Hw; lia).
      cbn [orb] in Hbeg.
      unfold bind at 1. unfold next_multcol_id at 1.
      rewrite Hg, gen_after_next_id by lia.
      unfold bind at 1. unfold lift at 1.
      unfold span_instr at 1. cbn [fst snd map].
      destruct (span_beg_char c) as [beg|]; [|discriminate Hbeg].
      unfold write at 1. unfold modify at 1.
      rewrite (IH _ (S j)) by (first [destruct d; assumption | destruct d; reflexivity | lia]).
      replace (j + (1 + wide_count cells))%nat with (S j + wide_count cells)%nat by lia.
      open_doc d. norm_doc. rewrite <- app_assoc. reflexivity.
    + cbn [ret]. rewrite (IH d j) by (first [assumption | lia]). reflexivity.
Qed.

Lemma span_rows_exact (rows : list TabRow) : forall d j,
  multcol_alph_counter d = gen_after j ->
  forallb (fun c => 0 <=? c_span c) (List.concat (map r_cells rows)) = true ->
  forallb (cell_ok (pict_width d)) (List.concat (map r_cells rows)) = true ->
  (j + wide_count (List.concat (map r_cells rows)) <= CAPACITY)%nat ->
  foreach rows (fun row => foreach (r_cells row) span_width) d
  = (Ok tt,
     set_multcol_alph_counter
       (gen_after (j + wide_count (List.concat (map r_cells rows))))
       (set_backend (backend d ++ span_instrs j rows) d)).
Proof.
  induction rows as [|row rows IH]; intros d j Hg Hnn Hok Hj.
  - cbn. rewrite Nat.add_0_r, <- Hg. destruct d. cbn. rewrite app_nil_r. reflexivity.
  - cbn [map List.concat] in *. rewrite forallb_app in Hnn, Hok.
    apply andb_prop in Hnn. destruct Hnn as [Hn1 Hn2].
    apply andb_prop in Hok. destruct Hok as [Ho1 Ho2].
    rewrite wide_count_app in Hj |- *.
    cbn [foreach span_instrs]. unfold bind at 1.
    rewrite (span_cells_exact _ d j Hg Hn1 Ho1) by lia.
    rewrite (IH _ (j + wide_count (r_cells row))%nat) by
      (first [destruct d; assumption | destruct d; reflexivity | lia]).
    open_doc d. norm_doc. rewrite <- app_assoc, Nat.add_assoc. reflexivity.
Qed.

(** *** What carries over from a table to a table with the same view *)

Lemma rows_view_cells (rows1 rows2 : list TabRow) :
  map row_view rows1 = map row_view rows2 ->
  map cell_view (List.concat (map r_cells rows1))
  = map cell_view (List.concat (map r_cells rows2)).
Proof.
  revert rows2. induction rows1 as [|r1 rows1 IH]; intros [|r2 rows2] H;
    try discriminate H; [reflexivity|].
  cbn [map List.concat] in *.
  assert (Hrest : map row_view rows1 = map row_view rows2) by congruence.
  assert (Hc : map cell_view (r_cells r1) = map cell_view (r_cells r2))
    by (unfold row_view in H; congruence).
  rewrite !map_app, Hc, (IH rows2 Hrest). reflexivity.
Qed.

Lemma view_cells (d1 d : LaTeXDoc) :
  table_view d1 = table_view d ->
  map cell_view (all_cells d1) = map cell_view (all_cells d) /\
  rows_count d1 = rows_count d.
Proof.
  unfold table_view, all_cells, rows_count.
  destruct (tabmem d1) as [m1|], (tabmem d) as [m|]; cbn [option_map];
    intros H; try discriminate H; [|split; reflexivity].
  assert (Hr : map row_view (m_rows m1) = map row_view (m_rows m))
    by (unfold mem_view in H; congruence).
  split; [apply rows_view_cells, Hr|].
  rewrite <- (length_map row_view (m_rows m1)), Hr, length_map. reflexivity.
Qed.

Lemma forallb_view (p : TabCell -> bool) :
  (forall x y, cell_view x = cell_view y -> p x = p y) ->
  forall l1 l2, map cell_view l1 = map cell_view l2 -> forallb p l1 = forallb p l2.
Proof.
  intros Hp. induction l1 as [|x l1 IH]; intros [|y l2] H; try discriminate H;
    [reflexivity|].
  cbn [map] in H.
  assert (Hx : cell_view x = cell_view y) by congruence.
  assert (Hl : map cell_view l1 = map cell_view l2) by congruence.
  cbn [forallb]. rewrite (Hp x y Hx), (IH l2 Hl). reflexivity.
Qed.

Lemma count_view (p : TabCell -> bool) :
  (forall x y, cell_view x = cell_view y -> p x = p y) ->
  forall l1 l2, map cell_view l1 = map cell_view l2 ->
  List.length (filter p l1) = List.length (filter p l2).
Proof.
  intros Hp. induction l1 as [|x l1 IH]; intros [|y l2] H; try discriminate H;
    [reflexivity|].
  cbn [map] in H.
  assert (Hx : cell_view x = cell_view y) by congruence.
  assert (Hl : map cell_view l1 = map cell_view l2) by congruence.
  cbn [filter]. rewrite (Hp x y Hx). destruct (p y); cbn [List.length]; rewrite (IH l2 Hl);
    reflexivity.
Qed.

Lemma view_span (x y : TabCell) : cell_view x = cell_view y -> c_span x = c_span y.
Proof. unfold cell_view. intros H. congruence. Qed.

Lemma view_colchar (x y : TabCell) :
  cell_view x = cell_view y -> c_colchar x = c_colchar y.
Proof. unfold cell_view. intros H. congruence. Qed.

Lemma view_renderable (x y : TabCell) :
  cell_view x = cell_view y -> cell_renderable x = cell_renderable y.
Proof.
  intros H. unfold cell_renderable.
  rewrite (view_span x y H), (view_colchar x y H). reflexivity.
Qed.

Lemma view_wide (x y : TabCell) : cell_view x = cell_view y -> is_wide x = is_wide y.
Proof. intros H. unfold is_wide. rewrite (view_span x y H). reflexivity. Qed.

Lemma view_nonneg (x y : TabCell) :
  cell_view x = cell_view y -> (0 <=? c_span x) = (0 <=? c_span y).
Proof. intros H. rewrite (view_span x y H). reflexivity. Qed.

Lemma wide_is_multicol (cells : list TabCell) :
  forallb (fun c => 0 <=? c_span c) cells = true ->
  filter is_wide cells = filter is_multicol cells.
Proof.
  induction cells as [|c cells IH]; intros H; [reflexivity|].
  cbn [forallb] in H. apply andb_prop in H. destruct H as [Hc H].
  apply Z.leb_le in Hc. cbn [filter]. rewrite (IH H).
  replace (is_wide c) with (is_multicol c); [reflexivity|].
  unfold is_wide, is_multicol.
  destruct (Z.eqb_spec (c_span c) 0), (Z.eqb_spec (c_span c) 1),
    (Z.gtb_spec (c_span c) 1); cbn; try reflexivity; lia.
Qed.

Lemma cells_ok_of_rows (n : Z) (pw : pyval) (rows : list TabRow) :
  forallb (row_ok n pw) rows = true ->
  forallb (cell_ok pw) (List.concat (map r_cells rows)) = true.
Proof.
  induction rows as [|row rows IH]; intros H; [reflexivity|].
  cbn [forallb map List.concat] in *. apply andb_prop in H. destruct H as [Hr H].
  unfold row_ok in Hr. apply andb_prop in Hr. destruct Hr as [_ Hr].
  rewrite forallb_app, Hr, (IH H). reflexivity.
Qed.

Lemma measure_columns_keep (cols : list Z) : forall acc,
  (forall c, In c cols -> 0 <= c) ->
  keeps table_view (foldM cols acc measure_column) /\
  keeps flags (foldM cols acc measure_column).
Proof.
  induction cols as [|c cols IH]; intros acc Hc; cbn [foldM]; [split; keep|].
  assert (Hcols : forall c', In c' cols -> 0 <= c')
    by (intros c' H'; apply Hc; right; exact H').
  split.
  - apply keeps_bind; [|intros acc'; apply IH, Hcols].
    unfold measure_column.
    apply keeps_bind; [keep|intros ch]. apply keeps_bind; [keep|intros mem].
    apply keeps_bind; [|intros _; keep].
    apply keeps_foreach. intros r. apply measure_cell_keeps_view.
    apply Hc. left. reflexivity.
  - apply keeps_bind; [|intros acc'; apply IH, Hcols].
    unfold measure_column.
    apply keeps_bind; [keep|intros ch]. apply keeps_bind; [keep|intros mem].
    apply keeps_bind; [|intros _; keep].
    apply keeps_foreach. intros r. apply measure_cell_keeps_flags.
Qed.

(** *** The width calculation, with its span pass written out *)

Lemma calc_latex_widths_exact (d : LaTeXDoc) :
  table_ok d = true ->
  spans_nonneg d = true ->
  exists d1 pass1 mem1,
    calc_latex_widths d = (Ok tt, d1) /\
    tabmem d1 = Some mem1 /\
    backend d1
    = (backend d ++ pass1 ++ later_passes (column_letters (numcols d))
       ++ span_instrs 0 (m_rows mem1))%list /\
    filter is_fix pass1 = map GrColsFirstFix (column_letters (numcols d)) /\
    forallb is_pass1 pass1 = true /\
    multcol_alph_counter d1 = gen_after (wide_count (all_cells d1)) /\
    (wide_count (all_cells d1) <= CAPACITY)%nat /\
    flags d1 = flags d /\
    table_view d1 = table_view d.
Proof.
  intros Hok Hnn. unfold calc_latex_widths.
  unfold bind at 1. unfold read at 1.
  assert (Hcols : forall c, In c (py_range 0 (numcols d)) -> 0 <= c < numcols d)
    by (intros c Hc; apply py_range_bounds in Hc; exact Hc).
  destruct (measure_columns_run (py_range 0 (numcols d)) d [] Hok Hcols) as [d1 [E1 R1]].
  destruct (measure_columns_keep (py_range 0 (numcols d)) []) as [K1 K2].
  { intros c Hc. apply Hcols in Hc. lia. }
  specialize (K1 d). specialize (K2 d). rewrite E1 in K1, K2. cbn [snd] in K1, K2.
  unfold bind at 1. rewrite E1. cbn [app]. fold (column_letters (numcols d)).
  set (cols := column_letters (numcols d)) in *.
  destruct R1 as [T1 [N1 [P1 [C1 [pass1 [B1 [F1 A1]]]]]]].
  unfold bind at 1. unfold write at 1. cbn [modify].
  unfold bind at 1. rewrite write_loop.
  unfold bind at 1. unfold write at 1. cbn [modify].
  unfold bind at 1. rewrite write_loop.
  unfold bind at 1. unfold write at 1. cbn [modify].
  unfold bind at 1. rewrite write_loop.
  unfold bind at 1. cbn [modify].
  match goal with |- context [bind (attr tabmem) _ ?s] => set (d8 := s) end.
  assert (B8 : backend d8 = (backend d1 ++ later_passes cols)%list).
  { subst d8. open_doc d1. unfold later_passes. cbn [backend set_backend set_multcol_alph_counter].
    rewrite <- !app_assoc. reflexivity. }
  assert (T8 : tabmem d8 = tabmem d1 /\ pict_width d8 = pict_width d1 /\
               multcol_alph_counter d8 = gen_after 0 /\ flags d8 = flags d1 /\
               table_view d8 = table_view d1).
  { subst d8. open_doc d1. repeat split. }
  destruct T8 as [M8 [P8 [G8 [FL8 V8]]]].
  destruct (table_ok_parts d1 T1) as [mem [Hmem [_ [Hrows Hcount]]]].
  destruct (view_cells d1 d K1) as [Vc _].
  assert (Hall : all_cells d1 = List.concat (map r_cells (m_rows mem)))
    by (unfold all_cells; rewrite Hmem; reflexivity).
  assert (Hnn1 : forallb (fun c => 0 <=? c_span c) (all_cells d1) = true).
  { rewrite (forallb_view _ view_nonneg _ _ Vc). exact Hnn. }
  assert (Hwide : (wide_count (all_cells d1) <= CAPACITY)%nat).
  { unfold wide_count. rewrite (wide_is_multicol _ Hnn1), Hall. exact Hcount. }
  rewrite Hall in Hnn1, Hwide.
  unfold bind at 1. rewrite (attr_some tabmem d8 mem) by congruence.
  rewrite (span_rows_exact (m_rows mem) d8 0 G8 Hnn1) by
    (first [rewrite P8; apply (cells_ok_of_rows (numcols d1)), Hrows | exact Hwide]).
  eexists. exists pass1, mem. repeat split.
  - subst d8. open_doc d1. cbn in *. exact Hmem.
  - transitivity (backend d8 ++ span_instrs 0 (m_rows mem))%list;
      [subst d8; open_doc d1; reflexivity|].
    rewrite B8, B1, <- !app_assoc. reflexivity.
  - exact F1.
  - exact A1.
  - transitivity (gen_after (0 + wide_count (List.concat (map r_cells (m_rows mem)))));
      [subst d8; open_doc d1; reflexivity|].
    cbn [Nat.add]. f_equal. f_equal. unfold all_cells.
    subst d8. open_doc d1. cbn in *. rewrite Hmem. reflexivity.
  - unfold all_cells. subst d8. open_doc d1. cbn in *. rewrite Hmem. exact Hwide.
  - transitivity (flags d8); [subst d8; open_doc d1; reflexivity|].
    rewrite FL8. exact K2.
  - transitivity (table_view d8); [subst d8; open_doc d1; reflexivity|].
    rewrite V8. exact K1.
Qed.

Lemma flags_parts (a b : LaTeXDoc) :
  flags a = flags b ->
  in_table a = in_table b /\ numcols a = numcols b /\ pict a = pict b /\
  head_line a = head_line b /\ pict_width a = pict_width b.
Proof. unfold flags. intros H. repeat split; congruence. Qed.

(** *** A table without rows *)

Lemma write_table_empty (d : LaTeXDoc) (mem : TabMem) :
  numcols d <= 26 ->
  tabmem d = Some mem ->
  m_rows mem = [] ->
  exists out,
    write_table d
    = (Raise IndexError,
       set_pict "" (set_multcol_alph_counter (str_incr MULTCOL_COUNT_BASE)
         (set_backend (backend d ++ out) d))) /\
    filter is_fix out = [].
Proof.
  intros H26 Hmem Hrows. unfold write_table.
  open_doc d. norm_doc. subst d_tabmem.
  assert (Hidx : py_index (m_rows mem) 0 = @Raise TabRow IndexError)
    by (rewrite Hrows; reflexivity).
  exists ([Raw (PyStr.join0
          ["%"; NL; d_pict; "%"; NL; "%"; NL;
           "%  ==> Comment out one of the two lines ";
           "by a leading "; DQ; "%"; DQ; " (first position)"; NL;
           "{ \RaggedRight%      left align with hyphenation in table "; NL;
           "%{%                no left align in table "; NL; "%"; NL;
           "%  ==>  You may add pos or neg values ";
           "to the following "; PyStr.repr_int d_numcols; " column widths %"; NL])]
       ++ map (fun col => Raw (PyStr.join0 ["\addtolength{\grtempwidth"; letter col;
                                            "}{+0.0cm}%"; NL])) (py_range 0 d_numcols)
       ++ [Raw (String.append "%  === %" NL)]
       ++ (if String.eqb d_pict "" then []
           else [Raw (PyStr.join0 ["%"; NL; "\vspace{\grtabprepos}%"; NL;
                                   "\setlength{\grtabprepos}{0ex}%"; NL])])
       ++ [Raw (m_head mem)])%list.
  split.
  - do 3 step.
    unfold bind at 1. rewrite addto_loop.
    2:{ intros c Hc. apply py_range_bounds in Hc. lia. }
    norm_doc. do 2 step.
    destruct (String.eqb_spec d_pict "") as [->|Hp];
      repeat step; rewrite Hidx; norm_doc; rewrite <- !app_assoc; reflexivity.
  - rewrite !filter_app, filter_map_none by reflexivity.
    destruct (String.eqb d_pict ""); reflexivity.
Qed.

(** X12: The table-end event on a table without rows: the four passes of
    the width calculation are written for the columns, [write_table]
    begins to write and then raises [IndexError] when it asks for the
    first row. *)
Theorem table_end_without_rows (text : string) (span : Z) (d : LaTeXDoc)
    (mem : TabMem) :
  tabmem d = Some mem ->
  m_rows mem = [] ->
  numcols d <= 26 ->
  exists out,
    fst (handle_table text TAB_END span d) = Raise IndexError /\
    backend (snd (handle_table text TAB_END span d)) = (backend d ++ out)%list /\
    filter is_fix out = four_passes (column_letters (numcols d)).
Proof.
  intros Hmem Hrows H26.
  set (d0 := set_tabmem (Some (set_mtail text mem)) d).
  assert (E0 : handle_table text TAB_END span d
               = bind calc_latex_widths (fun _ => write_table) d0).
  { unfold handle_table. open_doc d. norm_doc. subst.
    unfold bind at 1. unfold attr at 1. norm_doc.
    unfold bind at 1. unfold modify at 1. reflexivity. }
  assert (Hok : table_ok d0 = true).
  { subst d0. open_doc d. unfold table_ok. norm_doc. subst. cbn [m_rows set_mtail].
    rewrite Hrows. cbn. rewrite !andb_true_r. apply Z.leb_le, H26. }
  assert (Hnn : spans_nonneg d0 = true).
  { subst d0. open_doc d. unfold spans_nonneg, all_cells. norm_doc. cbn [m_rows set_mtail].
    rewrite Hrows. reflexivity. }
  destruct (calc_latex_widths_exact d0 Hok Hnn)
    as [d1 [pass1 [mem1 [E1 [M1 [B1 [F1 [A1 [G1 [W1 [FL1 V1]]]]]]]]]]].
  destruct (view_cells d1 d0 V1) as [_ Rc].
  assert (Hrows1 : m_rows mem1 = []).
  { unfold rows_count in Rc. rewrite M1 in Rc. subst d0. open_doc d. norm_doc.
    cbn [m_rows set_mtail] in Rc. rewrite Hrows in Rc.
    destruct (m_rows mem1); [reflexivity|discriminate Rc]. }
  destruct (flags_parts d1 d0 FL1) as [I1 [N1 _]].
  replace (numcols d0) with (numcols d) in N1 by (subst d0; open_doc d; reflexivity).
  destruct (write_table_empty d1 mem1) as [out [Ew Xw]];
    [lia|exact M1|exact Hrows1|].
  assert (Eend : handle_table text TAB_END span d
                 = (Raise IndexError,
                    set_pict "" (set_multcol_alph_counter (str_incr MULTCOL_COUNT_BASE)
                      (set_backend (backend d1 ++ out) d1)))).
  { rewrite E0. unfold bind at 1. rewrite E1, Ew. reflexivity. }
  rewrite Eend. cbn [fst snd].
  exists (pass1 ++ later_passes (column_letters (numcols d)) ++ out)%list.
  repeat split.
  - transitivity (backend d1 ++ out)%list; [open_doc d1; reflexivity|].
    rewrite B1, Hrows1. cbn [span_instrs]. rewrite app_nil_r.
    replace (numcols d0) with (numcols d) by (subst d0; open_doc d; reflexivity).
    replace (backend d0) with (backend d) by (subst d0; open_doc d; reflexivity).
    rewrite <- !app_assoc. reflexivity.
  - rewrite !filter_app, F1, Xw, filter_later_passes, app_nil_r.
    replace (numcols d0) with (numcols d) by (subst d0; open_doc d; reflexivity).
    reflexivity.
Qed.

Lemma table_end_without_rows_witness :
  fst (handle_table TABLE_END_TEXT TAB_END 1 (begun_table 2)) = Raise IndexError.
Proof.
  destruct (table_end_without_rows TABLE_END_TEXT 1 (begun_table 2) _ eq_refl eq_refl
              ltac:(vm_compute; discriminate)) as [out [H1 _]].
  exact H1.
Defined.

(** *** A table with rows *)

Lemma renderable_parts (d : LaTeXDoc) :
  renderable d = true ->
  exists mem first_row rest,
    tabmem d = Some mem /\ m_rows mem = first_row :: rest /\
    numcols d <= 26 /\
    forallb cell_renderable (all_cells d) = true /\
    (wide_count (all_cells d) <= CAPACITY)%nat.
Proof.
  unfold renderable. intros H.
  apply andb_prop in H. destruct H as [H H4].
  apply andb_prop in H. destruct H as [H H3].
  apply andb_prop in H. destruct H as [H1 H2].
  apply Z.leb_le in H1. apply Nat.ltb_lt in H2. apply Nat.leb_le in H4.
  unfold rows_count in H2. destruct (tabmem d) as [mem|] eqn:Hmem; [|lia].
  destruct (m_rows mem) as [|first_row rest] eqn:Hrows; [cbn in H2; lia|].
  exists mem, first_row, rest. repeat split; auto.
Qed.

Lemma write_table_renderable (d : LaTeXDoc) :
  renderable d = true ->
  exists mem,
    tabmem d = Some mem /\
    write_table d
    = (Ok tt,
       set_pict "" (set_head_line false
         (set_multcol_alph_counter (gen_after (wide_count (all_cells d)))
            (set_backend
               (backend d ++ table_text (numcols d) (pict d) (head_line d) mem) d)))).
Proof.
  intros H. destruct (renderable_parts d H)
    as [mem [first_row [rest [Hmem [Hrows [H26 [Hcells Hcap]]]]]]].
  exists mem. split; [exact Hmem|].
  apply (write_table_run d mem first_row rest H26 Hmem Hrows); [|exact Hcap].
  unfold all_cells in Hcells. rewrite Hmem, Hrows in Hcells.
  cbn [map List.concat] in Hcells. rewrite forallb_app in Hcells.
  apply andb_prop in Hcells. apply Hcells.
Qed.

(** X13: On a table that it can handle, [write_table] returns, and what it
    writes is [table_text]: the lines for manual adjustment, the head of
    the table, the splitting row for the page breaks, the first row as the
    first head, every further row, and the tail of the table with the
    brace that closes the group.  The picture and the head line mark are
    used up, and the identifier generator stands behind the identifiers of
    the cells that span several columns. *)
Theorem write_table_writes (d : LaTeXDoc) :
  renderable d = true ->
  exists mem,
    tabmem d = Some mem /\
    write_table d
    = (Ok tt,
       set_pict "" (set_head_line false
         (set_multcol_alph_counter (gen_after (wide_count (all_cells d)))
            (set_backend
               (backend d ++ table_text (numcols d) (pict d) (head_line d) mem) d)))).
Proof. exact (write_table_renderable d). Qed.

Lemma write_table_writes_witness :
  fst (write_table two_by_two) = Ok tt /\
  List.length (backend (snd (write_table two_by_two))) = 15%nat.
Proof.
  destruct (write_table_writes two_by_two eq_refl) as [mem [Hmem E]].
  rewrite E. injection Hmem as <-. split; reflexivity.
Defined.

(** The run of the table-end event on a table that the width calculation
    and the rendering can handle. *)
Lemma table_end_run (text : string) (span : Z) (d : LaTeXDoc) (mem : TabMem) :
  tabmem d = Some mem ->
  table_ok d = true ->
  renderable d = true ->
  exists d' pass1 mem1,
    handle_table text TAB_END span d = (Ok tt, d') /\
    in_table d' = in_table d /\ pict d' = "" /\ head_line d' = false /\
    numcols d' = numcols d /\
    tabmem d' = Some mem1 /\
    mem_view mem1 = mem_view (set_mtail text mem) /\
    backend d'
    = (backend d ++ pass1 ++ later_passes (column_letters (numcols d))
       ++ span_instrs 0 (m_rows mem1)
       ++ table_text (numcols d) (pict d) (head_line d) mem1)%list /\
    filter is_fix pass1 = map GrColsFirstFix (column_letters (numcols d)) /\
    forallb is_pass1 pass1 = true.
Proof.
  intros Hmem Hok Hr.
  set (d0 := set_tabmem (Some (set_mtail text mem)) d).
  assert (E0 : handle_table text TAB_END span d
               = bind calc_latex_widths (fun _ => write_table) d0).
  { unfold handle_table. open_doc d. norm_doc. subst.
    unfold bind at 1. unfold attr at 1. norm_doc.
    unfold bind at 1. unfold modify at 1. reflexivity. }
  assert (H0 : table_ok d0 = table_ok d /\ renderable d0 = renderable d /\
               flags d0 = flags d /\ backend d0 = backend d /\
               table_view d0 = Some (mem_view (set_mtail text mem))).
  { subst d0. open_doc d. unfold table_ok, renderable, all_cells, rows_count, table_view.
    norm_doc. subst. repeat split. }
  destruct H0 as [T0 [R0 [F0 [B0 V0]]]].
  rewrite <- T0 in Hok. rewrite <- R0 in Hr.
  destruct (renderable_parts d0 Hr)
    as [mem0 [first0 [rest0 [Hmem0 [Hrows0 [H26 [Hcells0 Hcap0]]]]]]].
  assert (Hnn : spans_nonneg d0 = true).
  { unfold spans_nonneg. rewrite forallb_forall in Hcells0 |- *.
    intros c Hc. specialize (Hcells0 c Hc). unfold cell_renderable in Hcells0.
    apply andb_prop in Hcells0. apply Hcells0. }
  destruct (calc_latex_widths_exact d0 Hok Hnn)
    as [d1 [pass1 [mem1 [E1 [M1 [B1 [F1 [A1 [G1 [W1 [FL1 V1]]]]]]]]]]].
  destruct (view_cells d1 d0 V1) as [Vc Rc].
  destruct (flags_parts d1 d0 FL1) as [I1 [N1 [P1 [HL1 _]]]].
  destruct (flags_parts d0 d F0) as [I0 [N0 [P0 [HL0 _]]]].
  assert (Hr1 : renderable d1 = true).
  { unfold renderable in Hr |- *. rewrite N1, Rc.
    rewrite (forallb_view _ view_renderable _ _ Vc).
    unfold wide_count in *. rewrite (count_view _ view_wide _ _ Vc). exact Hr. }
  destruct (write_table_renderable d1 Hr1) as [mem1' [M1' E2]].
  assert (mem1' = mem1) by congruence. subst mem1'.
  exists (set_pict "" (set_head_line false
            (set_multcol_alph_counter (gen_after (wide_count (all_cells d1)))
               (set_backend
                  (backend d1 ++ table_text (numcols d1) (pict d1) (head_line d1) mem1)
                  d1)))), pass1, mem1.
  split; [|split; [|split; [|split; [|split; [|split; [|split; [|split; [|split]]]]]]]].
  - rewrite E0. unfold bind at 1. rewrite E1, E2. reflexivity.
  - rewrite <- I0, <- I1. open_doc d1. reflexivity.
  - open_doc d1. reflexivity.
  - open_doc d1. reflexivity.
  - rewrite <- N0, <- N1. open_doc d1. reflexivity.
  - rewrite <- M1. open_doc d1. reflexivity.
  - rewrite V0 in V1. unfold table_view in V1. rewrite M1 in V1.
    cbn [option_map] in V1. congruence.
  - transitivity (backend d1 ++ table_text (numcols d1) (pict d1) (head_line d1) mem1)%list;
      [open_doc d1; reflexivity|].
    rewrite B1, B0, N1, N0, P1, P0, HL1, HL0, <- !app_assoc. reflexivity.
  - rewrite F1, N0. reflexivity.
  - exact A1.
Qed.

(** X14: The table-end event on a table that the width calculation and the
    rendering can handle: it returns; the picture and the head line mark
    are used up.  What it writes is the first pass with its measurements,
    the three later passes, one span instruction for every cell that
    spans several columns, and then the text of the table.  The span
    instructions and the rows of the text count the identifiers in the
    same way, row by row from the first identifier, so a cell is rendered
    with the name that was defined for it.  The table memory differs from
    the one before the event in the tail of the table, which is the text
    of the event, and in the separation patterns of the contents, which
    are line breaks now. *)
Theorem table_end_renders (text : string) (span : Z) (d : LaTeXDoc) (mem : TabMem) :
  tabmem d = Some mem ->
  table_ok d = true ->
  renderable d = true ->
  exists d' pass1 mem1,
    handle_table text TAB_END span d = (Ok tt, d') /\
    in_table d' = in_table d /\ pict d' = "" /\ head_line d' = false /\
    numcols d' = numcols d /\
    tabmem d' = Some mem1 /\
    mem_view mem1 = mem_view (set_mtail text mem) /\
    backend d'
    = (backend d ++ pass1 ++ later_passes (column_letters (numcols d))
       ++ span_instrs 0 (m_rows mem1)
       ++ table_text (numcols d) (pict d) (head_line d) mem1)%list /\
    filter is_fix pass1 = map GrColsFirstFix (column_letters (numcols d)) /\
    forallb is_pass1 pass1 = true.
Proof. exact (table_end_run text span d mem). Qed.

Lemma table_end_renders_witness :
  fst (handle_table TABLE_END_TEXT TAB_END 1 two_by_two) = Ok tt /\
  pict (snd (handle_table TABLE_END_TEXT TAB_END 1 two_by_two)) = "".
Proof.
  destruct (table_end_renders TABLE_END_TEXT 1 two_by_two _ eq_refl eq_refl eq_refl)
    as [d' [pass1 [mem1 [E [_ [H1 _]]]]]].
  rewrite E. split; [reflexivity|exact H1].
Defined.
(** ** Rows and tables built with the methods of the interface *)

Lemma emit_texts (texts : list string) : forall d,
  in_table d = true ->
  foreach texts (fun t => emit t 0 CELL_TEXT 1) d
  = (Ok tt, set_textmem (textmem d ++ texts) d).
Proof.
  induction texts as [|t texts IH]; intros d Hin.
  - open_doc d. cbn. rewrite app_nil_r. reflexivity.
  - cbn [foreach]. unfold bind at 1. unfold emit at 1.
    unfold bind at 1. unfold read at 1. rewrite Hin. cbn [negb Z.eqb].
    unfold handle_table. unfold bind at 1. unfold read at 1. unfold modify at 1.
    rewrite IH by (open_doc d; exact Hin).
    open_doc d. norm_doc. rewrite <- app_assoc. reflexivity.
Qed.

(** A call of [emit] in which a routing constant stands in the place of
    the level: the text arrives as the text of a cell, behind as many
    levels of indentation as the number of the constant. *)
Lemma emit_at_level (text : string) (ev : tab_event) (d : LaTeXDoc) :
  in_table d = true ->
  ev <> CELL_BEG ->
  emit text (event_number ev) CELL_TEXT 1 d
  = (Ok tt,
     set_textmem
       (textmem d ++ [String.append (str_times (Z.to_nat (event_number ev)) "  ") text]) d).
Proof.
  intros Hin Hev. unfold emit.
  unfold bind at 1. unfold read at 1. rewrite Hin. cbn [negb].
  replace (event_number ev =? 0) with false by (destruct ev; try reflexivity; congruence).
  unfold handle_table. unfold bind at 1. unfold read at 1. unfold modify at 1.
  reflexivity.
Qed.

Lemma event_of_outside (sp : Z) :
  (sp <? 0) || (6 <? sp) = true -> event_of sp = None.
Proof.
  intros H. apply orb_prop in H. unfold event_of.
  destruct (Z.eqb_spec sp 0), (Z.eqb_spec sp 1), (Z.eqb_spec sp 2), (Z.eqb_spec sp 3),
    (Z.eqb_spec sp 4), (Z.eqb_spec sp 5), (Z.eqb_spec sp 6); try reflexivity;
    destruct H as [H|H]; first [apply Z.ltb_lt in H; lia].
Qed.

Lemma start_cell_quiet (st : CellStyle) (span : Z) (d : LaTeXDoc) :
  in_table d = true ->
  quiet_span span = true ->
  start_cell st span d
  = (Ok tt,
     let c := mkCall st span [] in
     let col' := curcol d + span in
     set_textmem (textmem d ++ (if span =? 1 then [cell_head c] else []))
       (set_head_line (head_line d || has_top c)
       (set_skipfirst (skipfirst d || (negb (has_bottom c) && (col' =? 1)))
       (set_doline (doline d || has_bottom c)
       (set_curcol col' (set_colspan span d)))))).
Proof.
  intros Hin Hq. unfold start_cell. cbv zeta.
  unfold cell_head, cell_format, has_bottom, has_top. cbn [cc_style cc_span].
  assert (Hemit : forall text d0, in_table d0 = true ->
            emit_as text (event_number CELL_BEG) span 1 d0
            = (Ok tt, set_textmem (textmem d0 ++ (if span =? 1 then [text] else [])) d0)).
  { intros text d0 Hin0. unfold emit_as. unfold quiet_span in Hq.
    destruct (Z.eqb_spec span 1) as [->|Hne].
    - cbn [event_of Z.eqb Pos.eqb]. unfold emit. cbn [event_number Z.eqb].
      unfold bind at 1. unfold read at 1. rewrite Hin0. cbn [negb].
      unfold handle_table. unfold bind at 1. unfold read at 1. unfold modify at 1.
      reflexivity.
    - cbn [orb] in Hq. rewrite (event_of_outside span Hq). cbn [event_number Z.eqb].
      unfold bind at 1. unfold read at 1. rewrite Hin0. cbn [negb ret].
      open_doc d0. norm_doc. rewrite app_nil_r. reflexivity. }
  open_doc d. norm_doc. subst.
  repeat step.
  destruct (bottom_border st =? 1) eqn:Hb; [|destruct (d_curcol + span =? 1) eqn:H1];
    destruct (top_border st =? 0) eqn:Ht; cbn [negb]; repeat step;
    rewrite Hemit by reflexivity;
    norm_doc; cbn [negb andb orb]; rewrite ?orb_true_r, ?orb_false_r; reflexivity.
Qed.

Lemma cell_method_run (c : CellCall) (d : LaTeXDoc) :
  in_table d = true ->
  quiet_span (cc_span c) = true ->
  cell_method c d = (Ok tt, after_cell c d).
Proof.
  intros Hin Hq. unfold cell_method, after_cell.
  destruct c as [st span texts]. cbn [cc_style cc_span cc_texts] in *.
  unfold bind at 1. rewrite (start_cell_quiet st span d Hin Hq).
  cbv zeta. unfold bind at 1.
  rewrite emit_texts by (open_doc d; exact Hin).
  unfold end_cell. rewrite emit_at_level by (first [open_doc d; exact Hin | discriminate]).
  unfold cell_texts, cell_head, has_bottom, has_top.
  cbn [cc_style cc_span cc_texts event_number Z.to_nat Pos.to_nat Pos.iter_op Nat.add].
  open_doc d. norm_doc. subst. rewrite <- !app_assoc. reflexivity.
Qed.

Lemma cells_run (calls : list CellCall) : forall d,
  in_table d = true ->
  forallb (fun c => quiet_span (cc_span c)) calls = true ->
  exists d',
    foreach calls cell_method d = (Ok tt, d') /\
    textmem d' = (textmem d ++ flat_map cell_texts calls)%list /\
    doline d' = doline d || existsb has_bottom calls /\
    skipfirst d' = skipfirst d || skips_first (curcol d) calls /\
    in_table d' = in_table d /\ numcols d' = numcols d /\ currow d' = currow d /\
    backend d' = backend d /\ tabmem d' = tabmem d /\
    tabrow d' = tabrow d /\ tabcell d' = tabcell d.
Proof.
  induction calls as [|c calls IH]; intros d Hin Hq.
  - exists d. cbn [foreach flat_map existsb skips_first ret].
    rewrite app_nil_r, !orb_false_r. repeat split.
  - cbn [forallb] in Hq. apply andb_prop in Hq. destruct Hq as [Hc Hq].
    cbn [foreach]. unfold bind at 1. rewrite (cell_method_run c d Hin Hc).
    destruct (IH (after_cell c d)) as [d' [E [T [D [S [I [N [R [B [M [W L]]]]]]]]]]];
      [open_doc d; exact Hin|exact Hq|].
    exists d'. split; [exact E|].
    cbn [flat_map existsb skips_first].
    rewrite T, D, S, I, N, R, B, M, W, L.
    unfold after_cell. open_doc d. norm_doc.
    rewrite <- !app_assoc, !orb_assoc. repeat split.
Qed.

Lemma start_row_run (d : LaTeXDoc) :
  in_table d = true ->
  start_row d
  = (Ok tt,
     set_currow (currow d + 1) (set_curcol 0 (set_skipfirst false (set_doline false
       (set_textmem (textmem d ++ [str_times 3 "  "]) d))))).
Proof.
  intros Hin. unfold start_row.
  unfold bind at 1. rewrite (emit_at_level "" ROW_BEG d Hin) by discriminate.
  open_doc d. norm_doc. repeat step.
  cbn [event_number Z.to_nat Pos.to_nat Pos.iter_op Nat.add].
  change (String.append (str_times 3 "  ") "") with (str_times 3 "  ").
  reflexivity.
Qed.

Lemma end_row_run (d : LaTeXDoc) :
  in_table d = true ->
  end_row d
  = (Ok tt,
     set_textmem
       (textmem d
        ++ ["\\ ";
            String.append (str_times 4 "  ")
              (if doline d
               then if skipfirst d
                    then PyStr.join0 ["\cline{2-"; PyStr.repr_int (numcols d); "}"; "%"; NL]
                    else String.append "\hline %" NL
               else String.append "%" NL);
            String.append "%" NL]) d).
Proof.
  intros Hin. unfold end_row.
  assert (E0 : forall text d0, in_table d0 = true ->
            emit text 0 CELL_TEXT 1 d0 = (Ok tt, set_textmem (textmem d0 ++ [text]) d0)).
  { intros text d0 H0. unfold emit. unfold bind at 1. unfold read at 1. rewrite H0.
    cbn [negb Z.eqb]. unfold handle_table. unfold bind at 1. unfold read at 1.
    unfold modify at 1. reflexivity. }
  unfold bind at 1. rewrite (E0 _ d Hin).
  open_doc d. norm_doc. subst. repeat step.
  destruct d_doline; [destruct d_skipfirst|]; repeat step;
    unfold bind at 1; rewrite emit_at_level by (first [reflexivity | discriminate]);
    rewrite E0 by reflexivity; norm_doc;
    cbn [event_number Z.to_nat Pos.to_nat Pos.iter_op Nat.add];
    rewrite <- !app_assoc; reflexivity.
Qed.

(** The run of the methods of one row whose spans are quiet. *)
Lemma row_method_run (calls : list CellCall) (d : LaTeXDoc) :
  in_table d = true ->
  forallb (fun c => quiet_span (cc_span c)) calls = true ->
  exists d',
    row_method calls d = (Ok tt, d') /\
    textmem d' = (textmem d ++ row_texts (numcols d) calls)%list /\
    in_table d' = true /\ numcols d' = numcols d /\ currow d' = currow d + 1 /\
    backend d' = backend d /\ tabmem d' = tabmem d /\
    tabrow d' = tabrow d /\ tabcell d' = tabcell d.
Proof.
  intros Hin Hq. unfold row_method.
  unfold bind at 1. rewrite (start_row_run d Hin).
  set (d0 := set_currow _ _).
  destruct (cells_run calls d0) as [d1 [E [T [D [S [I [N [R [B [M [W L]]]]]]]]]]];
    [subst d0; open_doc d; exact Hin|exact Hq|].
  unfold bind at 1. rewrite E.
  assert (Hin1 : in_table d1 = true) by (rewrite I; subst d0; open_doc d; exact Hin).
  rewrite (end_row_run d1 Hin1).
  eexists. split; [reflexivity|].
  rewrite D, S, N.
  replace (textmem (set_textmem _ d1)) with
    (textmem d1 ++ ["\\ ";
       String.append (str_times 4 "  ")
         (if doline d0 || existsb has_bottom calls
          then if skipfirst d0 || skips_first (curcol d0) calls
               then PyStr.join0 ["\cline{2-"; PyStr.repr_int (numcols d0); "}"; "%"; NL]
               else String.append "\hline %" NL
          else String.append "%" NL);
       String.append "%" NL])%list by (open_doc d1; reflexivity).
  rewrite T.
  replace (in_table (set_textmem _ d1)) with (in_table d1) by (open_doc d1; reflexivity).
  replace (numcols (set_textmem _ d1)) with (numcols d1) by (open_doc d1; reflexivity).
  replace (currow (set_textmem _ d1)) with (currow d1) by (open_doc d1; reflexivity).
  replace (backend (set_textmem _ d1)) with (backend d1) by (open_doc d1; reflexivity).
  replace (tabmem (set_textmem _ d1)) with (tabmem d1) by (open_doc d1; reflexivity).
  replace (tabrow (set_textmem _ d1)) with (tabrow d1) by (open_doc d1; reflexivity).
  replace (tabcell (set_textmem _ d1)) with (tabcell d1) by (open_doc d1; reflexivity).
  rewrite Hin1, N, R, B, M, W, L.
  subst d0. open_doc d. norm_doc. cbn [orb].
  unfold row_texts, row_rule. rewrite <- !app_assoc. repeat split.
Qed.

(** X15: The methods of one row buffer no row.  [start_row], [end_row] and
    [end_cell] call [emit] with the event in the place of the level, and
    [start_cell] with the span in the place of the event; with spans that
    are quiet (1, or no routing constant) every call arrives as the text
    of a cell or not at all.  Inside a table the methods of the row
    return; the texts of the row, indented by the numbers of the events,
    are appended to the text memory; the current row, the current cell,
    the table memory and the backend are as before. *)
Theorem row_method_buffers_nothing (calls : list CellCall) (d : LaTeXDoc) :
  in_table d = true ->
  forallb (fun c => quiet_span (cc_span c)) calls = true ->
  exists d',
    row_method calls d = (Ok tt, d') /\
    textmem d' = (textmem d ++ row_texts (numcols d) calls)%list /\
    in_table d' = true /\ numcols d' = numcols d /\ currow d' = currow d + 1 /\
    backend d' = backend d /\ tabmem d' = tabmem d /\
    tabrow d' = tabrow d /\ tabcell d' = tabcell d.
Proof. exact (row_method_run calls d). Qed.

Lemma row_method_buffers_nothing_witness :
  exists d',
    row_method [mkCall plain_style 1 ["x"]; mkCall (mkCellStyle 0 0 1 0) 1 ["y"]]
      (set_numcols 2 (set_in_table true opened_doc)) = (Ok tt, d') /\
    textmem d'
    = ["      "; "\multicolumn{1}{l}"; "x"; "    "; "\multicolumn{1}{l}"; "y"; "    ";
       "\\ "; String.append "        \cline{2-2}%" NL; String.append "%" NL] /\
    tabrow d' = None /\ tabmem d' = None /\ backend d' = [].
Proof.
  destruct (row_method_buffers_nothing
              [mkCall plain_style 1 ["x"]; mkCall (mkCellStyle 0 0 1 0) 1 ["y"]]
              (set_numcols 2 (set_in_table true opened_doc)) eq_refl eq_refl)
    as [d' [E [T [_ [_ [_ [B [M [W _]]]]]]]]].
  exists d'. split; [exact E|]. split; [exact T|]. split; [exact W|].
  split; [exact M|exact B].
Defined.

(** X22: [start_cell] with the span 2 sends the cell-end event, the span
    being passed in the place of the event: in a table in which no cell
    was begun it raises [AttributeError].  The span and the column cursor
    are set by then, the borders are taken into account, and nothing is
    written. *)
Theorem start_cell_of_span_two_raises (st : CellStyle) (d : LaTeXDoc) :
  in_table d = true ->
  tabcell d = None ->
  fst (start_cell st 2 d) = Raise AttributeError /\
  colspan (snd (start_cell st 2 d)) = 2 /\
  curcol (snd (start_cell st 2 d)) = curcol d + 2 /\
  backend (snd (start_cell st 2 d)) = backend d.
Proof.
  intros Hin Hcell. unfold start_cell. cbv zeta.
  open_doc d. norm_doc. subst.
  unfold emit_as. cbn [event_of Z.eqb Pos.eqb event_number]. unfold emit. cbn [Z.eqb].
  unfold handle_table. sim.
  destruct (bottom_border st =? 1); [|destruct (d_curcol + 2 =? 1)];
    destruct (top_border st =? 0); sim; repeat split.
Qed.

Lemma start_cell_of_span_two_raises_witness :
  fst (start_cell plain_style 2 (set_in_table true opened_doc)) = Raise AttributeError.
Proof.
  exact (proj1 (start_cell_of_span_two_raises plain_style
                  (set_in_table true opened_doc) eq_refl eq_refl)).
Defined.

(** ** Whole tables built with the methods of the interface *)

Lemma rows_run (rows : list (list CellCall)) : forall d,
  in_table d = true ->
  forallb (forallb (fun c => quiet_span (cc_span c))) rows = true ->
  exists d',
    foreach rows row_method d = (Ok tt, d') /\
    textmem d' = (textmem d ++ flat_map (row_texts (numcols d)) rows)%list /\
    in_table d' = true /\ numcols d' = numcols d /\
    currow d' = currow d + Z.of_nat (List.length rows) /\
    backend d' = backend d /\ tabmem d' = tabmem d /\
    tabrow d' = tabrow d /\ tabcell d' = tabcell d.
Proof.
  induction rows as [|calls rows IH]; intros d Hin Hq.
  - exists d. cbn [foreach flat_map ret List.length Z.of_nat].
    rewrite app_nil_r, Z.add_0_r. repeat split. exact Hin.
  - cbn [forallb] in Hq. apply andb_prop in Hq. destruct Hq as [Hc Hq].
    cbn [foreach]. unfold bind at 1.
    destruct (row_method_run calls d Hin Hc) as [d1 [E1 [T1 [I1 [N1 [R1 [B1 [M1 [W1 L1]]]]]]]]].
    rewrite E1.
    destruct (IH d1 I1 Hq) as [d2 [E2 [T2 [I2 [N2 [R2 [B2 [M2 [W2 L2]]]]]]]]].
    exists d2. split; [exact E2|].
    cbn [flat_map List.length].
    rewrite T2, T1, N2, N1, R2, R1, B2, B1, M2, M1, W2, W1, L2, L1, <- !app_assoc.
    repeat split; [exact I2|lia].
Qed.

(** The run of the methods of a whole table whose spans are quiet. *)
Lemma table_method_run (n : Z) (rows : list (list CellCall)) (d : LaTeXDoc) :
  forallb (forallb (fun c => quiet_span (cc_span c))) rows = true ->
  exists d',
    table_method n rows d = (Ok tt, d') /\
    textmem d' = (textmem d ++ table_texts n rows)%list /\
    in_table d' = false /\ numcols d' = n /\
    backend d' = backend d /\ tabmem d' = tabmem d /\
    tabrow d' = tabrow d /\ tabcell d' = tabcell d.
Proof.
  intros Hq. unfold table_method.
  unfold bind at 1. rewrite (start_table_begins n d).
  set (d0 := set_textmem _ _).
  destruct (rows_run rows d0) as [d1 [E1 [T1 [I1 [N1 [R1 [B1 [M1 [W1 L1]]]]]]]]];
    [subst d0; open_doc d; reflexivity|exact Hq|].
  unfold bind at 1. rewrite E1.
  unfold end_table. unfold bind at 1.
  rewrite (emit_at_level _ TAB_END d1 I1) by discriminate.
  eexists. split; [reflexivity|].
  cbn [modify snd].
  replace (numcols d0) with n in * by (subst d0; open_doc d; reflexivity).
  replace (textmem d0) with
    (textmem d ++ [String.append (str_times 5 "  ") (TABLE_HEAD n)])%list in T1
    by (subst d0; open_doc d; reflexivity).
  replace (backend d0) with (backend d) in B1 by (subst d0; open_doc d; reflexivity).
  replace (tabmem d0) with (tabmem d) in M1 by (subst d0; open_doc d; reflexivity).
  replace (tabrow d0) with (tabrow d) in W1 by (subst d0; open_doc d; reflexivity).
  replace (tabcell d0) with (tabcell d) in L1 by (subst d0; open_doc d; reflexivity).
  clearbody d0. open_doc d1. norm_doc. subst.
  cbn [event_number Z.to_nat Pos.to_nat Pos.iter_op Nat.add].
  unfold table_texts, TABLE_END_TEXT. rewrite <- !app_assoc. repeat split.
Qed.

(** X16: A table built with the methods of the interface is never
    rendered.  [start_table] and [end_table] call [emit] with the event in
    the place of the level, as the methods of the rows do, so no table
    event arrives: for every number of columns and all rows whose spans
    are quiet, the methods return, the texts of the whole table are
    appended to the text memory, the table mode is left, and the backend
    and the table memory are as before. *)
Theorem table_method_renders_nothing (n : Z) (rows : list (list CellCall))
    (d : LaTeXDoc) :
  forallb (forallb (fun c => quiet_span (cc_span c))) rows = true ->
  exists d',
    table_method n rows d = (Ok tt, d') /\
    textmem d' = (textmem d ++ table_texts n rows)%list /\
    in_table d' = false /\ numcols d' = n /\
    backend d' = backend d /\ tabmem d' = tabmem d /\
    tabrow d' = tabrow d /\ tabcell d' = tabcell d.
Proof. exact (table_method_run n rows d). Qed.

Lemma table_method_renders_nothing_witness :
  exists d',
    table_method 2 [[mkCall plain_style 1 ["x"]; mkCall plain_style 1 ["y"]]]
      opened_doc = (Ok tt, d') /\
    List.length (textmem d') = 12%nat /\ backend d' = [] /\ tabmem d' = None.
Proof.
  destruct (table_method_renders_nothing 2
              [[mkCall plain_style 1 ["x"]; mkCall plain_style 1 ["y"]]]
              opened_doc eq_refl)
    as [d' [E [T [_ [_ [B [M _]]]]]]].
  exists d'. split; [exact E|]. split; [rewrite T; reflexivity|].
  split; [exact B|exact M].
Defined.
(** ** The widths of the cells that span several columns *)

Section SpanWidths.

Import TeX.

Variable E : Engine.

Ltac split_ifs :=
  repeat match goal with
         | |- context [if ?b then _ else _] => destruct b eqn:?
         end.

Ltac regs :=
  repeat first [ rewrite wr_same | rewrite wr_other by congruence ].

Ltac macros :=
  unfold exec, grinittab, grsetreqpart, grsetreqfull, grdividelength,
    grtextneedwidth, grcolsfirstfix, grcolssecondfix, grcolsthirdfix,
    grcolsfourthfix, grgetspanwidth, grmaxvaltofirst, addtolength, grinitlength.

Lemma chain_ext (cols : list string) (s s' : Regs) : forall x,
  (forall c, In c cols ->
     s' (grcolbeg c) = s (grcolbeg c) /\ s' (grtempwidth c) = s (grtempwidth c)) ->
  chain_from s' x cols = chain_from s x cols.
Proof.
  induction cols as [|c cols IH]; intros x H; [reflexivity|].
  cbn [chain_from]. destruct (H c (or_introl eq_refl)) as [-> ->].
  rewrite IH; [reflexivity|]. intros c' Hc'. apply H. right. exact Hc'.
Qed.

Lemma sum_temp_ext (cols : list string) (s s' : Regs) :
  (forall c, In c cols -> s' (grtempwidth c) = s (grtempwidth c)) ->
  sum_temp cols s' = sum_temp cols s.
Proof.
  induction cols as [|c cols IH]; intros H; [reflexivity|].
  cbn [sum_temp fold_right]. rewrite (H c (or_introl eq_refl)).
  f_equal. apply IH. intros c' Hc'. apply H. right. exact Hc'.
Qed.

Lemma sum_temp_app (l1 l2 : list string) (s : Regs) :
  sum_temp (l1 ++ l2) s = sum_temp l1 s + sum_temp l2 s.
Proof.
  induction l1 as [|c l1 IH]; [reflexivity|].
  cbn [app]. unfold sum_temp in *. cbn [fold_right]. rewrite IH. lia.
Qed.

Lemma chain_app (l1 l2 : list string) (s : Regs) : forall x,
  chain_from s x (l1 ++ l2)
  = chain_from s x l1 && chain_from s (x + sum_temp l1 s) l2.
Proof.
  induction l1 as [|c l1 IH]; intros x.
  - cbn. rewrite Z.add_0_r. reflexivity.
  - cbn [app chain_from]. rewrite IH, <- andb_assoc. do 3 f_equal.
    unfold sum_temp. cbn [fold_right]. lia.
Qed.

(** *** The first pass *)

Lemma firstfix_colbeg c s :
  exec E (GrColsFirstFix c) s (grcolbeg c) = s grcurcolend.
Proof. macros. cbv zeta. split_ifs; regs; reflexivity. Qed.

Lemma firstfix_colbeg_other c c' s :
  c <> c' -> exec E (GrColsFirstFix c) s (grcolbeg c') = s (grcolbeg c').
Proof. intros H. macros. cbv zeta. split_ifs; regs; reflexivity. Qed.

Lemma pass1_colbeg_frame (p : list Instr) : forall cols s c,
  filter is_fix p = map GrColsFirstFix cols ->
  forallb is_pass1 p = true ->
  ~ In c cols ->
  run E p s (grcolbeg c) = s (grcolbeg c).
Proof.
  induction p as [|i p IH]; intros cols s c Hf Hp Hc; [reflexivity|].
  rewrite run_cons. cbn [forallb] in Hp. apply andb_prop in Hp. destruct Hp as [Hi Hp].
  cbn [filter] in Hf.
  destruct i; try discriminate Hi; cbn [is_fix] in Hf.
  5:{ destruct cols as [|c0 cols]; [discriminate|]. cbn [map] in Hf.
      inversion Hf; subst.
      rewrite (IH cols) by (auto; intros H; apply Hc; right; exact H).
      apply firstfix_colbeg_other. intros ->. apply Hc. left. reflexivity. }
  all: rewrite (IH cols) by auto; apply measure_frame; reflexivity.
Qed.

Lemma pass1_chain (p : list Instr) : forall cols s,
  filter is_fix p = map GrColsFirstFix cols ->
  forallb is_pass1 p = true ->
  NoDup cols ->
  chain_from (run E p s) (s grcurcolend) cols = true.
Proof.
  induction p as [|i p IH]; intros cols s Hf Hp Hnd.
  - destruct cols; [reflexivity|discriminate].
  - rewrite run_cons. cbn [forallb] in Hp. apply andb_prop in Hp. destruct Hp as [Hi Hp].
    cbn [filter] in Hf.
    destruct i; try discriminate Hi; cbn [is_fix] in Hf.
    5:{ destruct cols as [|c0 cols]; [discriminate|]. cbn [map] in Hf.
        inversion Hf; subst. inversion Hnd; subst.
        cbn [chain_from].
        rewrite (pass1_colbeg_frame p cols _ c0), (pass1_temp_frame E p cols _ c0) by auto.
        rewrite firstfix_colbeg, Z.eqb_refl. cbn [andb].
        rewrite <- firstfix_curcolend. apply IH; auto. }
    all: match goal with
         | |- context [exec E ?i ?s0] =>
             replace (s0 grcurcolend) with (exec E i s0 grcurcolend)
               by (apply measure_frame; reflexivity);
             apply IH; auto
         end.
Qed.

(** *** The later passes *)

Lemma later_fix_step (F : string -> Instr) (c : string) (s : Regs) :
  later_fix F ->
  exec E (F c) s (grcolbeg c) = s (grcolbeg c) - begin_shift s /\
  exec E (F c) s (grtempwidth c) + begin_shift (exec E (F c) s)
  = s (grtempwidth c) + begin_shift s /\
  (forall c', c' <> c ->
     exec E (F c) s (grcolbeg c') = s (grcolbeg c') /\
     exec E (F c) s (grtempwidth c') = s (grtempwidth c')).
Proof.
  intros [-> | [-> | ->]]; unfold begin_shift; macros; cbv zeta;
    destruct (s grcurcolend <? s grtabwidth) eqn:Hfit.
  all: repeat split; intros; split_ifs; regs;
    repeat match goal with
           | H : context [wr _ _ _ _] |- _ =>
               first [ rewrite wr_same in H | rewrite wr_other in H by congruence ]
           end;
    try congruence; try lia.
Qed.

Lemma later_fix_is_later (F : string -> Instr) (c : string) :
  later_fix F -> is_later (F c) = true.
Proof. intros [-> | [-> | ->]]; reflexivity. Qed.

Lemma later_pass_inv (F : string -> Instr) (HF : later_fix F) (R : list string) :
  forall P s x,
  NoDup (P ++ R) ->
  chain_from s x P = true ->
  chain_from s (x + sum_temp P s + begin_shift s) R = true ->
  chain_from (run E (map F R) s) x (P ++ R) = true.
Proof.
  induction R as [|c R IH]; intros P s x Hnd HP HR.
  - rewrite app_nil_r. exact HP.
  - cbn [map]. rewrite run_cons.
    destruct (later_fix_step F c s HF) as [S1 [S2 S3]].
    assert (HcP : ~ In c P).
    { intros Hin. apply NoDup_remove_2 in Hnd. apply Hnd, in_or_app. left. exact Hin. }
    assert (HcR : ~ In c R).
    { apply NoDup_app_remove_l in Hnd. inversion Hnd; assumption. }
    cbn [chain_from] in HR. apply andb_prop in HR. destruct HR as [Hc HR].
    apply Z.eqb_eq in Hc.
    assert (EP : sum_temp P (exec E (F c) s) = sum_temp P s).
    { apply sum_temp_ext. intros c' Hc'. apply S3. intros ->. contradiction. }
    replace (P ++ c :: R)%list with ((P ++ [c]) ++ R)%list
      by (rewrite <- app_assoc; reflexivity).
    apply IH.
    + rewrite <- app_assoc. exact Hnd.
    + rewrite chain_app. apply andb_true_intro. split.
      * rewrite (chain_ext P s); [exact HP|].
        intros c' Hc'. apply S3. intros ->. contradiction.
      * cbn [chain_from]. rewrite andb_true_r. apply Z.eqb_eq. rewrite S1, EP. lia.
    + rewrite (chain_ext R s).
      * rewrite sum_temp_app, EP. unfold sum_temp at 2. cbn [fold_right].
        replace (x + (sum_temp P s + (exec E (F c) s (grtempwidth c) + 0))
                 + begin_shift (exec E (F c) s))
          with (x + sum_temp P s + begin_shift s + s (grtempwidth c)) by lia.
        exact HR.
      * intros c' Hc'. apply S3. intros ->. contradiction.
Qed.

Lemma later_pass_chain (F : string -> Instr) (cols : list string) (s : Regs) (x : Z) :
  later_fix F -> NoDup cols ->
  chain_from s x cols = true ->
  chain_from (run E (map F cols) s) (x - begin_shift s) cols = true.
Proof.
  intros HF Hnd H.
  apply (later_pass_inv F HF cols [] s (x - begin_shift s)); [exact Hnd|reflexivity|].
  cbn [sum_temp fold_right].
  replace (x - begin_shift s + 0 + begin_shift s) with x by lia. exact H.
Qed.

Lemma divide_chain (cols : list string) (s : Regs) (x : Z) :
  chain_from (exec E GrDivideLength s) x cols = chain_from s x cols.
Proof.
  apply chain_ext. intros c _. macros. cbv zeta.
  split; split_ifs; regs; reflexivity.
Qed.

Lemma later_passes_chain (cols : list string) (s : Regs) (x : Z) :
  NoDup cols ->
  chain_from s x cols = true ->
  exists x', chain_from (run E (later_passes cols) s) x' cols = true.
Proof.
  intros Hnd H. unfold later_passes.
  rewrite !run_app. cbn [run fold_left].
  eexists.
  apply later_pass_chain; [right; right; reflexivity|exact Hnd|].
  rewrite divide_chain.
  apply later_pass_chain; [right; left; reflexivity|exact Hnd|].
  rewrite divide_chain.
  apply later_pass_chain; [left; reflexivity|exact Hnd|].
  rewrite divide_chain. exact H.
Qed.

(** *** From the chain to the width of a span *)

Lemma seq_from (n : nat) : forall a, seq a n = map (fun i => (a + i)%nat) (seq 0 n).
Proof.
  induction n as [|n IH]; intros a; [reflexivity|].
  cbn [seq map]. rewrite Nat.add_0_r. f_equal.
  rewrite (IH (S a)), (IH 1%nat), map_map. apply map_ext. intros i. lia.
Qed.

Lemma py_range_app (lo mid hi : Z) :
  lo <= mid <= hi -> py_range lo hi = (py_range lo mid ++ py_range mid hi)%list.
Proof.
  intros H. unfold py_range.
  replace (Z.to_nat (hi - lo)) with (Z.to_nat (mid - lo) + Z.to_nat (hi - mid))%nat by lia.
  rewrite seq_app, map_app. f_equal. cbn [Nat.add].
  rewrite seq_from, map_map. apply map_ext. intros i. lia.
Qed.

Lemma py_range_one (k : Z) : py_range k (k + 1) = [k].
Proof.
  unfold py_range. replace (Z.to_nat (k + 1 - k)) with 1%nat by lia.
  cbn. f_equal. lia.
Qed.

Lemma py_range_first (i k : Z) :
  i < k -> py_range i k = i :: py_range (i + 1) k.
Proof.
  intros H. rewrite (py_range_app i (i + 1) k) by lia. rewrite py_range_one. reflexivity.
Qed.

Lemma chain_span (s : Regs) (x lo hi i k : Z) :
  chain_from s x (map letter (py_range lo hi)) = true ->
  lo <= i -> i <= k -> k < hi ->
  s (grcolbeg (letter k)) - s (grcolbeg (letter i)) + s (grtempwidth (letter k))
  = sum_temp (map letter (py_range i (k + 1))) s.
Proof.
  intros H Hlo Hik Hk.
  rewrite (py_range_app lo i hi), (py_range_app i k hi), (py_range_app k (k + 1) hi)
    in H by lia.
  rewrite py_range_one, !map_app, !chain_app in H. cbn [map chain_from] in H.
  apply andb_prop in H. destruct H as [_ H].
  apply andb_prop in H. destruct H as [H1 H].
  apply andb_prop in H. destruct H as [H2 _].
  apply andb_prop in H2. destruct H2 as [H2 _]. apply Z.eqb_eq in H2.
  rewrite (py_range_app i k (k + 1)), py_range_one, map_app, sum_temp_app by lia.
  unfold sum_temp at 2. cbn [map fold_right].
  destruct (Z.eq_dec i k) as [-> | Hne].
  - replace (py_range k k) with (@nil Z)
      by (unfold py_range; rewrite Z.sub_diag; reflexivity).
    cbn [map sum_temp fold_right]. lia.
  - rewrite (py_range_first i k) in H1 by lia. cbn [map chain_from] in H1.
    apply andb_prop in H1. destruct H1 as [H1 _]. apply Z.eqb_eq in H1. lia.
Qed.

(** *** The span pass *)

Lemma place_instrs_frame (places : list (string * string)) : forall j s r,
  (forall i, (i < List.length places)%nat -> r <> grspanwidth (nth_id (j + i))) ->
  run E (place_instrs j places) s r = s r.
Proof.
  induction places as [|p places IH]; intros j s r H; [reflexivity|].
  cbn [place_instrs]. rewrite run_cons, IH.
  - macros. apply wr_other. intros Heq. apply (H 0%nat); [cbn; lia|].
    rewrite Nat.add_0_r. symmetry. exact Heq.
  - intros i Hi. replace (S j + i)%nat with (j + S i)%nat by lia.
    apply H. cbn [List.length]. lia.
Qed.

Lemma nth_id_decoded (j : nat) :
  (j < CAPACITY)%nat -> decode_id (nth_id j) = N.of_nat j.
Proof.
  intros Hj. pose proof decode_ids as D. rewrite map_map in D.
  apply (f_equal (fun l => nth j l (decode_id (id_of 0%N)))) in D.
  rewrite (map_nth (fun x => decode_id (id_of x))) in D.
  rewrite !(nth_count_from CAPACITY 0 j _ Hj), N.add_0_l in D. exact D.
Qed.

Lemma nth_id_inj (j j' : nat) :
  (j < CAPACITY)%nat -> (j' < CAPACITY)%nat -> nth_id j = nth_id j' -> j = j'.
Proof.
  intros Hj Hj' H. apply (f_equal decode_id) in H.
  rewrite !nth_id_decoded in H by assumption. lia.
Qed.

Lemma place_instrs_run (places : list (string * string)) : forall j s,
  (j + List.length places <= CAPACITY)%nat ->
  (forall c, run E (place_instrs j places) s (grcolbeg c) = s (grcolbeg c) /\
             run E (place_instrs j places) s (grtempwidth c) = s (grtempwidth c)) /\
  (forall i b c, nth_error places i = Some (b, c) ->
     run E (place_instrs j places) s (grspanwidth (nth_id (j + i)))
     = s (grcolbeg c) - s (grcolbeg b) + s (grtempwidth c)).
Proof.
  induction places as [|p places IH]; intros j s Hcap.
  - split; [intros c; split; reflexivity|]. intros [|i] b c H; discriminate H.
  - cbn [List.length] in Hcap. cbn [place_instrs]. rewrite run_cons.
    set (s1 := exec E (GrGetSpanWidth (nth_id j) (fst p) (snd p)) s).
    assert (F1 : forall c, s1 (grcolbeg c) = s (grcolbeg c) /\
                           s1 (grtempwidth c) = s (grtempwidth c)).
    { intros c. subst s1. macros. split; apply wr_other; discriminate. }
    destruct (IH (S j) s1 ltac:(lia)) as [I1 I2]. split.
    + intros c. destruct (I1 c) as [-> ->]. apply F1.
    + intros [|i] b c H.
      * cbn [nth_error] in H. injection H as ->. cbn [fst snd] in *.
        rewrite Nat.add_0_r, place_instrs_frame.
        -- subst s1. macros. rewrite wr_same. lia.
        -- intros i Hi Heq. injection Heq as Heq.
           apply nth_id_inj in Heq; lia.
      * cbn [nth_error] in H. replace (j + S i)%nat with (S j + i)%nat by lia.
        rewrite (I2 i b c H).
        destruct (F1 c) as [-> ->].
        destruct (F1 b) as [-> _]. reflexivity.
Qed.

Lemma raw_run (p : list Instr) (s : Regs) :
  forallb is_raw p = true -> run E p s = s.
Proof.
  revert s. induction p as [|i p IH]; intros s H; [reflexivity|].
  cbn [forallb] in H. apply andb_prop in H. destruct H as [Hi Hp].
  rewrite run_cons, IH by exact Hp. destruct i; try discriminate Hi. reflexivity.
Qed.

End SpanWidths.

(** *** The span pass of a buffered table *)

Lemma place_instrs_app (a b : list (string * string)) : forall j,
  place_instrs j (a ++ b)
  = (place_instrs j a ++ place_instrs (j + List.length a) b)%list.
Proof.
  induction a as [|p a IH]; intros j.
  - cbn. rewrite Nat.add_0_r. reflexivity.
  - cbn [app place_instrs List.length]. rewrite IH.
    replace (S j + List.length a)%nat with (j + S (List.length a))%nat by lia.
    reflexivity.
Qed.

Lemma span_cells_places (cells : list TabCell) : forall j,
  map span_instr (filter (fun p => is_wide (fst p)) (numbered j cells))
  = place_instrs j (map cell_ends (filter is_wide cells)).
Proof.
  induction cells as [|c cells IH]; intros j; [reflexivity|].
  cbn [numbered filter fst]. destruct (is_wide c).
  - cbn [map place_instrs]. rewrite IH. reflexivity.
  - apply IH.
Qed.

Lemma span_instrs_places (rows : list TabRow) : forall j,
  span_instrs j rows
  = place_instrs j (map cell_ends (filter is_wide (List.concat (map r_cells rows)))).
Proof.
  induction rows as [|row rows IH]; intros j; [reflexivity|].
  cbn [span_instrs map List.concat].
  rewrite filter_app, map_app, place_instrs_app, span_cells_places, IH.
  unfold wide_count. rewrite length_map. reflexivity.
Qed.

Lemma span_instrs_view (rows1 : list TabRow) : forall rows2 j,
  map row_view rows1 = map row_view rows2 ->
  span_instrs j rows1 = span_instrs j rows2.
Proof.
  assert (Hcells : forall l1 l2 j, map cell_view l1 = map cell_view l2 ->
            map span_instr (filter (fun p => is_wide (fst p)) (numbered j l1))
            = map span_instr (filter (fun p => is_wide (fst p)) (numbered j l2)) /\
            wide_count l1 = wide_count l2).
  { unfold wide_count.
    induction l1 as [|x l1 IH]; intros [|y l2] j H; try discriminate H;
      [split; reflexivity|].
    cbn [map] in H.
    assert (Hx : cell_view x = cell_view y) by congruence.
    assert (Hl : map cell_view l1 = map cell_view l2) by congruence.
    cbn [numbered filter fst]. rewrite (view_wide x y Hx).
    destruct (IH l2 (if is_wide y then S j else j) Hl) as [I1 I2].
    destruct (is_wide y); cbn [map List.length]; rewrite I1, I2; [|split; reflexivity].
    split; [|reflexivity]. f_equal.
    unfold span_instr, span_beg_char. cbn [fst snd].
    rewrite (view_span x y Hx), (view_colchar x y Hx). reflexivity. }
  induction rows1 as [|r1 rows1 IH]; intros [|r2 rows2] j H; try discriminate H;
    [reflexivity|].
  cbn [map] in H.
  assert (Hr : map cell_view (r_cells r1) = map cell_view (r_cells r2)).
  { unfold row_view in H. congruence. }
  assert (Hrest : map row_view rows1 = map row_view rows2) by congruence.
  cbn [span_instrs]. destruct (Hcells _ _ j Hr) as [-> ->].
  rewrite (IH rows2 _ Hrest). reflexivity.
Qed.

Lemma table_text_raw (n : Z) (pict0 : string) (hl : bool) (mem : TabMem) :
  forallb is_raw (table_text n pict0 hl mem) = true.
Proof.
  unfold table_text. destruct (m_rows mem) as [|first_row rest]; [reflexivity|].
  rewrite !forallb_app. cbn [forallb is_raw andb].
  assert (M : forall {A} (f : A -> string) l, forallb is_raw (map (fun x => Raw (f x)) l) = true).
  { intros A f l. induction l as [|a l IHl]; [reflexivity|exact IHl]. }
  rewrite M. rewrite (M _ (fun x => x)).
  destruct (String.eqb pict0 ""); reflexivity.
Qed.

(** X17: A buffered table, typeset: when the instructions that the
    table-end event wrote are run, the width of a cell that spans several
    columns and lies within the columns of the table is the sum of the
    widths of the columns it spans, whatever the negotiation of the four
    passes gave the columns, and whatever the lengths held before.  The
    cell is found by its identifier: the cells that span several columns
    are counted row by row. *)
Theorem spanning_cell_is_as_wide_as_its_columns
    (E : TeX.Engine) (s0 : TeX.Regs)
    (text : string) (span : Z) (d : LaTeXDoc) (mem : TabMem) :
  tabmem d = Some mem ->
  table_ok d = true ->
  renderable d = true ->
  fst (handle_table text TAB_END span d) = Ok tt /\
  forall j cell k,
    nth_error (filter is_wide (all_cells d)) j = Some cell ->
    c_colchar cell = letter k ->
    c_span cell <= k + 1 -> k < numcols d ->
    TeX.run E (backend (snd (handle_table text TAB_END span d))) s0
      (TeX.grspanwidth (nth_id j))
    = sum_temp (map letter (py_range (k - c_span cell + 1) (k + 1)))
        (TeX.run E (backend (snd (handle_table text TAB_END span d))) s0).
Proof.
  intros Hmem Hok Hr.
  destruct (table_end_run text span d mem Hmem Hok Hr)
    as [d' [pass1 [mem1 [Erun [_ [_ [_ [_ [_ [V [B [X A]]]]]]]]]]]].
  rewrite Erun. cbn [fst snd]. split; [reflexivity|].
  intros j cell k Hj Hch Hsp Hk.
  destruct (renderable_parts d Hr)
    as [mem0 [first0 [rest0 [Hmem0 [Hrows0 [H26 [Hcells Hcap]]]]]]].
  assert (mem0 = mem) by congruence. subst mem0.
  assert (Hin : In cell (all_cells d)).
  { apply nth_error_In in Hj. apply filter_In in Hj. apply Hj. }
  assert (Hw : is_wide cell = true).
  { apply nth_error_In in Hj. apply filter_In in Hj. apply Hj. }
  assert (Hs2 : 2 <= c_span cell).
  { rewrite forallb_forall in Hcells. specialize (Hcells cell Hin).
    unfold cell_renderable in Hcells. apply andb_prop in Hcells.
    destruct Hcells as [Hnn _]. apply Z.leb_le in Hnn.
    unfold is_wide in Hw. apply andb_prop in Hw. destruct Hw as [W0 W1].
    destruct (Z.eqb_spec (c_span cell) 0); [discriminate W0|].
    destruct (Z.eqb_spec (c_span cell) 1); [discriminate W1|]. lia. }
  assert (Hends : cell_ends cell = (letter (k - c_span cell + 1), letter k)).
  { unfold cell_ends, span_beg_char. rewrite Hch, letter_decoded by lia.
    cbn [rbind]. rewrite get_charform_letter by lia. reflexivity. }
  assert (Hspans : span_instrs 0 (m_rows mem1)
                   = place_instrs 0 (map cell_ends (filter is_wide (all_cells d)))).
  { unfold all_cells. rewrite Hmem, <- span_instrs_places.
    apply span_instrs_view. unfold mem_view in V. cbn [m_rows set_mtail] in V.
    replace (m_rows (set_mtail text mem)) with (m_rows mem) in V
      by (destruct mem; reflexivity).
    congruence. }
  rewrite B, Hspans, !run_app.
  rewrite (raw_run E _ _ (table_text_raw _ _ _ _)).
  set (sA := TeX.run E (backend d) s0).
  pose proof (pass1_chain E pass1 (column_letters (numcols d)) sA X A
                (column_letters_NoDup (numcols d) H26)) as C1.
  destruct (later_passes_chain E (column_letters (numcols d)) _ _
              (column_letters_NoDup (numcols d) H26) C1) as [x' C2].
  set (sC := TeX.run E (later_passes (column_letters (numcols d)))
               (TeX.run E pass1 sA)) in *.
  assert (Hlen : (0 + List.length (map cell_ends (filter is_wide (all_cells d)))
                  <= CAPACITY)%nat).
  { rewrite length_map. exact Hcap. }
  destruct (place_instrs_run E _ 0 sC Hlen) as [F1 F2].
  assert (Hj' : nth_error (map cell_ends (filter is_wide (all_cells d))) j
                = Some (letter (k - c_span cell + 1), letter k)).
  { rewrite nth_error_map, Hj. cbn [option_map]. rewrite Hends. reflexivity. }
  pose proof (F2 j _ _ Hj') as F. cbn [Nat.add] in F. rewrite F.
  rewrite (sum_temp_ext _ sC) by (intros c _; apply F1).
  apply (chain_span sC x' 0 (numcols d) (k - c_span cell + 1) k C2); lia.
Qed.

Lemma spanning_cell_is_as_wide_as_its_columns_witness :
  TeX.run demo_engine
    (backend (snd (handle_table TABLE_END_TEXT TAB_END 1 spanned_table))) zero_regs
    (TeX.grspanwidth "aaa")
  = sum_temp ["a"; "b"]
      (TeX.run demo_engine
         (backend (snd (handle_table TABLE_END_TEXT TAB_END 1 spanned_table)))
         zero_regs).
Proof.
  exact (proj2 (spanning_cell_is_as_wide_as_its_columns demo_engine zero_regs
                  TABLE_END_TEXT 1 spanned_table _ eq_refl eq_refl eq_refl)
           0%nat (mkCell "b" 2 "{l}" "x2") 1 eq_refl eq_refl
           ltac:(cbn; lia) ltac:(cbn; lia)).
Defined.
(** ** The required widths of the columns *)

Section RequiredWidths.

Import TeX.

Variable E : Engine.

Ltac split_ifs :=
  repeat match goal with
         | |- context [if ?b then _ else _] => destruct b eqn:?
         end.

Ltac regs :=
  repeat first [ rewrite wr_same | rewrite wr_other by congruence ].

Ltac macros :=
  unfold exec, grinittab, grsetreqpart, grsetreqfull, grdividelength,
    grtextneedwidth, grcolsfirstfix, grcolssecondfix, grcolsthirdfix,
    grcolsfourthfix, grgetspanwidth, grmaxvaltofirst, addtolength, grinitlength.

Lemma measure_requirement (i : Instr) (s : Regs) :
  is_measure i = true -> requirement E s <= requirement E (exec E i s).
Proof.
  intros Hi. unfold requirement.
  destruct i; try discriminate Hi; macros; cbv zeta; split_ifs; regs;
    repeat match goal with
           | H : context [wr _ _ _ _] |- _ =>
               first [ rewrite wr_same in H | rewrite wr_other in H by congruence ]
           end; lia.
Qed.

Lemma firstfix_requirement (c : string) (s : Regs) :
  exec E (GrColsFirstFix c) s (grtempwidth c) = requirement E s /\
  requirement E (exec E (GrColsFirstFix c) s) = requirement E s.
Proof.
  unfold requirement. macros. cbv zeta. split; split_ifs; regs;
    repeat match goal with
           | H : context [wr _ _ _ _] |- _ =>
               first [ rewrite wr_same in H | rewrite wr_other in H by congruence ]
           end; lia.
Qed.

Lemma pass1_at_least (p : list Instr) : forall cols s c,
  filter is_fix p = map GrColsFirstFix cols ->
  forallb is_pass1 p = true ->
  NoDup cols ->
  In c cols ->
  requirement E s <= run E p s (grtempwidth c).
Proof.
  induction p as [|i p IH]; intros cols s c Hf Hp Hnd Hc.
  - destruct cols; [destruct Hc|discriminate].
  - rewrite run_cons. cbn [forallb] in Hp. apply andb_prop in Hp. destruct Hp as [Hi Hp].
    cbn [filter] in Hf.
    destruct i; try discriminate Hi; cbn [is_fix] in Hf.
    5:{ destruct cols as [|c0 cols]; [discriminate|]. cbn [map] in Hf.
        inversion Hf; subst. inversion Hnd; subst.
        destruct (firstfix_requirement c0 s) as [R1 R2].
        destruct Hc as [-> | Hc].
        - rewrite (pass1_temp_frame E p cols _ c) by auto. lia.
        - rewrite <- R2. apply (IH cols); auto. }
    all: match goal with
         | |- context [exec E ?i ?s0] =>
             pose proof (measure_requirement i s0 eq_refl);
             pose proof (IH cols (exec E i s0) c Hf Hp Hnd Hc); lia
         end.
Qed.

Lemma pass1_monotone (p : list Instr) : forall l1 c l2 s c',
  filter is_fix p = map GrColsFirstFix (l1 ++ c :: l2) ->
  forallb is_pass1 p = true ->
  NoDup (l1 ++ c :: l2) ->
  In c' l2 ->
  run E p s (grtempwidth c) <= run E p s (grtempwidth c').
Proof.
  induction p as [|i p IH]; intros l1 c l2 s c' Hf Hp Hnd Hc.
  - destruct l1; discriminate.
  - rewrite !run_cons. cbn [forallb] in Hp. apply andb_prop in Hp. destruct Hp as [Hi Hp].
    cbn [filter] in Hf.
    destruct i; try discriminate Hi; cbn [is_fix] in Hf.
    5:{ destruct l1 as [|c0 l1]; cbn [app map] in Hf; inversion Hf; subst.
        - cbn [app] in Hnd. inversion Hnd; subst.
          destruct (firstfix_requirement c s) as [R1 R2].
          rewrite (pass1_temp_frame E p l2 _ c) by auto.
          rewrite R1, <- R2. apply (pass1_at_least p l2); auto.
        - cbn [app] in Hnd. inversion Hnd; subst. apply (IH l1 c l2); auto. }
    all: apply (IH l1 c l2); auto.
Qed.

End RequiredWidths.

(** X18: The first pass of the width calculation hands every column a required
    width that is not below the one of the column before it: the sizes
    that the measurements add up are never set back between the columns,
    so a column inherits the requirement of the columns before it. *)
Theorem required_widths_never_decrease
    (E : TeX.Engine) (s0 : TeX.Regs) (d : LaTeXDoc) :
  table_ok d = true ->
  exists d' pass1 spans,
    calc_latex_widths d = (Ok tt, d') /\
    backend d'
    = (backend d ++ pass1 ++ later_passes (column_letters (numcols d)) ++ spans)%list /\
    filter is_fix pass1 = map GrColsFirstFix (column_letters (numcols d)) /\
    forallb is_pass1 pass1 = true /\
    forall i j, 0 <= i -> i <= j -> j < numcols d ->
      TeX.run E pass1 s0 (TeX.grtempwidth (letter i))
      <= TeX.run E pass1 s0 (TeX.grtempwidth (letter j)).
Proof.
  intros Hok.
  destruct (calc_latex_widths_shape d Hok) as [d' [pass1 [spans [H1 [H2 [H3 [H4 _]]]]]]].
  exists d', pass1, spans. repeat split; auto.
  intros i j Hi Hij Hj.
  destruct (Z.eq_dec i j) as [-> | Hne]; [lia|].
  assert (H26 : numcols d <= 26).
  { unfold table_ok in Hok. destruct (tabmem d); [|discriminate].
    apply andb_prop in Hok. destruct Hok as [Hok _].
    apply andb_prop in Hok. destruct Hok as [Hok _]. apply Z.leb_le, Hok. }
  pose proof (column_letters_NoDup (numcols d) H26) as Hnd.
  unfold column_letters in *.
  rewrite (py_range_app 0 i (numcols d)), (py_range_first i (numcols d)) in H3, Hnd by lia.
  rewrite map_app in H3, Hnd. cbn [map] in H3, Hnd.
  apply (pass1_monotone E pass1 _ _ _ s0 (letter j) H3 H4 Hnd).
  apply in_map. unfold py_range. apply in_map_iff.
  exists (Z.to_nat (j - (i + 1))). split; [lia|]. apply in_seq. lia.
Qed.

Lemma required_widths_never_decrease_witness :
  exists d' pass1,
    calc_latex_widths two_by_two = (Ok tt, d') /\
    TeX.run demo_engine pass1 zero_regs (TeX.grtempwidth "a")
    <= TeX.run demo_engine pass1 zero_regs (TeX.grtempwidth "b").
Proof.
  destruct (required_widths_never_decrease demo_engine zero_regs two_by_two eq_refl)
    as [d' [pass1 [spans [H1 [_ [_ [_ H]]]]]]].
  exists d', pass1. split; [exact H1|].
  apply (H 0 1); [lia|lia|reflexivity].
Defined.
(** ** The required width of a column covers its texts *)

Section Covers.

Import TeX.

Variable E : Engine.

Ltac split_ifs :=
  repeat match goal with
         | |- context [if ?b then _ else _] => destruct b eqn:?
         end.

Ltac regs :=
  repeat first [ rewrite wr_same | rewrite wr_other by congruence ].

Ltac regs_in :=
  repeat match goal with
         | H : context [wr _ _ _ _] |- _ =>
             first [ rewrite wr_same in H | rewrite wr_other in H by congruence ]
         end.

Ltac macros :=
  unfold exec, grinittab, grsetreqpart, grsetreqfull, grdividelength,
    grtextneedwidth, grcolsfirstfix, grcolssecondfix, grcolsthirdfix,
    grcolsfourthfix, grgetspanwidth, grmaxvaltofirst, addtolength, grinitlength.

Lemma text_size_grows (parts : list string) : forall s,
  s grtextsize <= run E (map GrTextNeedWidth parts) s grtextsize.
Proof.
  induction parts as [|p parts IH]; intros s; [cbn; lia|].
  cbn [map]. rewrite run_cons.
  specialize (IH (exec E (GrTextNeedWidth p) s)).
  assert (s grtextsize <= exec E (GrTextNeedWidth p) s grtextsize).
  { macros. cbv zeta. split_ifs; regs; regs_in; lia. }
  lia.
Qed.

Lemma text_size_covers (parts : list string) (part : string) : forall s,
  In part parts ->
  settowidth E part <= run E (map GrTextNeedWidth parts) s grtextsize.
Proof.
  induction parts as [|p parts IH]; intros s Hin; [destruct Hin|].
  cbn [map]. rewrite run_cons. destruct Hin as [-> | Hin].
  - pose proof (text_size_grows parts (exec E (GrTextNeedWidth part) s)) as G.
    assert (settowidth E part <= exec E (GrTextNeedWidth part) s grtextsize).
    { macros. cbv zeta. split_ifs; regs; regs_in; lia. }
    lia.
  - apply IH, Hin.
Qed.

Lemma text_cell_covers (parts : list string) (part : string) :
  In part parts ->
  covers_requirement E (settowidth E part + 2 * tabcolsep E)
    (map GrTextNeedWidth parts ++ [GrSetReqFull]).
Proof.
  intros Hin s. rewrite run_app. cbn [run fold_left].
  pose proof (text_size_covers parts part s Hin) as C.
  set (s1 := run E (map GrTextNeedWidth parts) s) in *.
  unfold requirement. macros. cbv zeta. split_ifs; regs; regs_in; lia.
Qed.

Lemma pass1_requirement (p : list Instr) : forall s,
  forallb is_pass1 p = true -> requirement E s <= requirement E (run E p s).
Proof.
  induction p as [|i p IH]; intros s Hp; [cbn; lia|].
  cbn [forallb] in Hp. apply andb_prop in Hp. destruct Hp as [Hi Hp].
  rewrite run_cons. specialize (IH (exec E i s) Hp).
  assert (requirement E s <= requirement E (exec E i s)).
  { destruct (is_measure i) eqn:Hm; [apply measure_requirement, Hm|].
    destruct i as [t|n|w|w|p0| |b|c| |c|c|c|a b c];
      try discriminate Hi; try discriminate Hm.
    destruct (firstfix_requirement E c s) as [_ ->]. lia. }
  lia.
Qed.

Lemma covers_requirement_before (bound : Z) (pre out : list Instr) :
  covers_requirement E bound out -> covers_requirement E bound (pre ++ out).
Proof. intros H s. rewrite run_app. apply H. Qed.

Lemma covers_requirement_after (bound : Z) (out post : list Instr) :
  covers_requirement E bound out -> forallb is_pass1 post = true ->
  covers_requirement E bound (out ++ post).
Proof.
  intros H Hp s. rewrite run_app.
  pose proof (pass1_requirement post (run E out s) Hp). specialize (H s). lia.
Qed.

Lemma covers_width_fix (bound : Z) (c : string) (out : list Instr) :
  covers_requirement E bound out ->
  covers_width E bound c (out ++ [GrColsFirstFix c]).
Proof.
  intros H s. rewrite run_app. cbn [run fold_left].
  destruct (firstfix_requirement E c (run E out s)) as [-> _]. apply H.
Qed.

Lemma covers_width_before (bound : Z) (c : string) (pre out : list Instr) :
  covers_width E bound c out -> covers_width E bound c (pre ++ out).
Proof. intros H s. rewrite run_app. apply H. Qed.

Lemma covers_width_after (bound : Z) (c : string) (out post : list Instr)
    (cols : list string) :
  covers_width E bound c out ->
  filter is_fix post = map GrColsFirstFix cols ->
  forallb is_pass1 post = true ->
  ~ In c cols ->
  covers_width E bound c (out ++ post).
Proof.
  intros H Hf Hp Hc s. rewrite run_app.
  rewrite (pass1_temp_frame E post cols _ c Hf Hp Hc). apply H.
Qed.

End Covers.

(** *** The cell that is measured *)

Lemma list_update_nth_other {A} (f : A -> A) (l : list A) : forall n m,
  n <> m -> nth_error (list_update l n f) m = nth_error l m.
Proof.
  induction l as [|x l IH]; intros [|n] [|m] H; cbn; try reflexivity;
    try congruence.
  apply IH. congruence.
Qed.

Lemma list_update_nth_same {A} (f : A -> A) (l : list A) : forall n,
  nth_error (list_update l n f) n = option_map f (nth_error l n).
Proof.
  induction l as [|x l IH]; intros [|n]; cbn; try reflexivity. apply IH.
Qed.

Lemma cell_at_backend (b : list Instr) (d : LaTeXDoc) (r k : nat) :
  cell_at (set_backend b d) r k = cell_at d r k.
Proof. open_doc d. reflexivity. Qed.

Lemma measure_cell_keeps_cell (col_num : Z) (r' r k : nat) :
  r' <> r \/ Z.to_nat col_num <> k ->
  keeps (fun d => cell_at d r k) (measure_cell col_num r').
Proof.
  intros Hne d. unfold measure_cell.
  unfold bind at 1. unfold attr at 1.
  destruct (tabmem d) as [mem|] eqn:Hmem; [|reflexivity].
  unfold bind at 1. unfold lift at 1.
  destruct (py_index (m_rows mem) (Z.of_nat r')) as [row|] eqn:Hrow; [|reflexivity].
  unfold bind at 1. unfold lift at 1.
  destruct (py_index (r_cells row) col_num) as [cell|] eqn:Hcell; [|reflexivity].
  destruct (c_span cell =? 0); [reflexivity|].
  assert (Htail : keeps (fun d => cell_at d r k)
            (if c_span cell =? 1 then write GrSetReqFull
             else if c_span cell >? 1
                  then beg <- lift (span_beg_char cell) ;; write (GrSetReqPart beg)
                  else ret tt)).
  { repeat first [ apply keeps_if | apply keeps_ret | apply keeps_lift
                 | apply keeps_write; intros; apply cell_at_backend
                 | apply keeps_bind; [|intros ?] ]. }
  destruct (PyStr.startswith (c_content cell) PICT_MARK).
  - unfold bind at 1. unfold bind at 1. unfold read at 1.
    destruct (pict_width d) as [n|w]; [reflexivity|].
    unfold write at 1. cbn [modify]. rewrite Htail. apply cell_at_backend.
  - unfold bind at 1. unfold bind at 1. unfold lift at 1.
    change (PyStr.split (c_content cell) SEPARATION_PAT)
      with (Ok (PyStr.split_go SEPARATION_PAT (c_content cell) 0 "")).
    unfold bind at 1. rewrite write_loop.
    unfold assign_content. unfold bind at 1.
    rewrite (attr_some tabmem _ mem) by (open_doc d; exact Hmem).
    cbn [modify]. rewrite Htail.
    unfold cell_at. rewrite Hmem. open_doc d.
    cbn [tabmem set_tabmem set_backend]. unfold set_rows. cbn [m_rows].
    destruct (Nat.eq_dec r' r) as [-> | Hr].
    + destruct Hne as [Hne | Hne]; [congruence|].
      rewrite list_update_nth_same.
      destruct (nth_error (m_rows mem) r) as [row0|]; [|reflexivity].
      cbn [option_map]. unfold set_cells. cbn [r_cells].
      apply list_update_nth_other. exact Hne.
    + rewrite list_update_nth_other by exact Hr. reflexivity.
Qed.

Lemma is_measure_pass1 (out : list Instr) :
  forallb is_measure out = true -> forallb is_pass1 out = true.
Proof.
  apply forallb_weaken. intros i Hi. destruct i; try discriminate Hi; reflexivity.
Qed.

Section Measured.

Variable E : TeX.Engine.
Variables (r k : nat) (cell : TabCell) (part : string).
Hypothesis Hspan : c_span cell = 1.
Hypothesis Htext : PyStr.startswith (c_content cell) PICT_MARK = false.
Hypothesis Hpart : In part (PyStr.split_go SEPARATION_PAT (c_content cell) 0 "").

Lemma measure_cell_text (d : LaTeXDoc) :
  cell_at d r k = Some cell ->
  backend (snd (measure_cell (Z.of_nat k) r d))
  = (backend d
     ++ map GrTextNeedWidth (PyStr.split_go SEPARATION_PAT (c_content cell) 0 "")
     ++ [GrSetReqFull])%list.
Proof.
  intros Hat. unfold cell_at in Hat.
  destruct (tabmem d) as [mem|] eqn:Hmem; [|discriminate].
  destruct (nth_error (m_rows mem) r) as [row|] eqn:Hrow; [|discriminate].
  assert (Hr : (r < List.length (m_rows mem))%nat)
    by (apply nth_error_Some; congruence).
  assert (Hk : (k < List.length (r_cells row))%nat)
    by (apply nth_error_Some; congruence).
  unfold measure_cell.
  unfold bind at 1. rewrite (attr_some tabmem d mem Hmem).
  unfold bind at 1. unfold lift at 1.
  rewrite (py_index_nth _ _ new_TabRow) by lia. rewrite Nat2Z.id.
  rewrite (nth_error_nth _ _ new_TabRow Hrow).
  unfold bind at 1. unfold lift at 1.
  rewrite (py_index_nth _ _ no_cell) by lia. rewrite Nat2Z.id.
  rewrite (nth_error_nth _ _ no_cell Hat).
  rewrite Hspan, Htext. cbn [Z.eqb Pos.eqb].
  unfold bind at 1. unfold bind at 1. unfold lift at 1.
  change (PyStr.split (c_content cell) SEPARATION_PAT)
    with (Ok (PyStr.split_go SEPARATION_PAT (c_content cell) 0 "")).
  unfold bind at 1. rewrite write_loop.
  unfold assign_content. unfold bind at 1.
  rewrite (attr_some tabmem _ mem) by (open_doc d; exact Hmem).
  cbn [modify]. open_doc d. unfold write, modify. cbn [snd backend set_backend set_tabmem].
  rewrite <- app_assoc. reflexivity.
Qed.

Lemma measure_rows_cover (col : Z) (rs : list nat) : forall d,
  col = Z.of_nat k ->
  table_ok d = true ->
  (forall r', In r' rs -> (r' < rows_count d)%nat) ->
  0 <= col < numcols d ->
  In r rs ->
  cell_at d r k = Some cell ->
  exists d',
    foreach rs (measure_cell col) d = (Ok tt, d') /\
    emits_fixes is_measure d d' [] /\
    forall out, backend d' = (backend d ++ out)%list ->
                covers_requirement E (TeX.settowidth E part + 2 * TeX.tabcolsep E) out.
Proof.
  induction rs as [|r0 rs IH]; intros d Hcol Hok Hrs Hc Hin Hat; [destruct Hin|].
  destruct (measure_cell_run d col r0 Hok (Hrs r0 (or_introl eq_refl)) Hc)
    as [d1 [E1 R1]].
  pose proof R1 as [T1 [N1 [_ [C1 [out1 [B1 [_ A1]]]]]]].
  assert (Hrs1 : forall r', In r' rs -> (r' < rows_count d1)%nat).
  { intros r' Hr'. rewrite C1. apply Hrs. right. exact Hr'. }
  assert (Hc1 : 0 <= col < numcols d1) by (rewrite N1; exact Hc).
  destruct (Nat.eq_dec r0 r) as [-> | Hne].
  - destruct (measure_rows_run col rs d1 T1 Hrs1 Hc1) as [d2 [E2 R2]].
    exists d2. split; [|split].
    + cbn [foreach]. unfold bind. rewrite E1. exact E2.
    + change (@nil Instr) with ([] ++ @nil Instr)%list.
      eapply emits_trans; eassumption.
    + intros out Hout.
      destruct R2 as [_ [_ [_ [_ [out2 [B2 [_ A2]]]]]]].
      pose proof (measure_cell_text d Hat) as Bt.
      rewrite <- Hcol, E1 in Bt. cbn [snd] in Bt.
      rewrite B2, Bt, <- app_assoc in Hout. apply app_inv_head in Hout. subst out.
      apply covers_requirement_after; [|apply is_measure_pass1, A2].
      apply text_cell_covers. exact Hpart.
  - assert (Hat1 : cell_at d1 r k = Some cell).
    { pose proof (measure_cell_keeps_cell col r0 r k (or_introl Hne) d) as K.
      rewrite E1 in K. cbn [snd] in K. rewrite K. exact Hat. }
    destruct Hin as [Hin | Hin]; [contradiction|].
    destruct (IH d1 Hcol T1 Hrs1 Hc1 Hin Hat1) as [d2 [E2 [R2 Cov]]].
    exists d2. split; [|split].
    + cbn [foreach]. unfold bind. rewrite E1. exact E2.
    + change (@nil Instr) with ([] ++ @nil Instr)%list.
      eapply emits_trans; eassumption.
    + intros out Hout.
      destruct R2 as [_ [_ [_ [_ [out2 [B2 _]]]]]].
      rewrite B2, B1, <- app_assoc in Hout. apply app_inv_head in Hout. subst out.
      apply covers_requirement_before. apply Cov.
      rewrite B2. reflexivity.
Qed.

Lemma measure_column_cover (d : LaTeXDoc) (acc : list string) (col : Z) :
  col = Z.of_nat k ->
  table_ok d = true ->
  0 <= col < numcols d ->
  cell_at d r k = Some cell ->
  exists d',
    measure_column acc col d = (Ok (acc ++ [letter col])%list, d') /\
    emits_fixes is_pass1 d d' [GrColsFirstFix (letter col)] /\
    forall out, backend d' = (backend d ++ out)%list ->
                covers_width E (TeX.settowidth E part + 2 * TeX.tabcolsep E) (letter col) out.
Proof.
  intros Hcol Hok Hc Hat.
  destruct (table_ok_parts d Hok) as [mem [Hmem [H26 _]]].
  unfold measure_column.
  unfold bind at 1. unfold lift at 1. rewrite (get_charform_letter col) by lia.
  unfold bind at 1. rewrite (attr_some tabmem d mem Hmem).
  destruct (measure_rows_cover col (seq 0 (List.length (m_rows mem))) d Hcol Hok)
    as [d1 [E1 [R1 Cov]]]; [|exact Hc| |exact Hat|].
  { intros r' Hr. apply in_seq in Hr. unfold rows_count. rewrite Hmem. lia. }
  { apply in_seq. unfold cell_at in Hat. rewrite Hmem in Hat.
    destruct (nth_error (m_rows mem) r) eqn:Hr; [|discriminate].
    assert (r < List.length (m_rows mem))%nat by (apply nth_error_Some; congruence).
    lia. }
  unfold bind at 1. rewrite E1.
  unfold bind at 1. unfold write at 1. cbn [modify ret].
  eexists. split; [reflexivity|]. split.
  - change [GrColsFirstFix (letter col)]
      with ([] ++ filter is_fix [GrColsFirstFix (letter col)])%list.
    eapply emits_trans.
    + apply (emits_weaken is_measure); [|exact R1].
      intros i Hi. destruct i; try discriminate Hi; reflexivity.
    + apply emits_writes; [apply R1|reflexivity].
  - intros out Hout.
    destruct R1 as [_ [_ [_ [_ [out1 [B1 _]]]]]].
    assert (Hb : backend (set_backend (backend d1 ++ [GrColsFirstFix (letter col)]) d1)
                 = (backend d ++ out1 ++ [GrColsFirstFix (letter col)])%list).
    { open_doc d1. cbn [backend set_backend] in *. rewrite B1, <- app_assoc. reflexivity. }
    rewrite Hb in Hout. apply app_inv_head in Hout. subst out.
    apply covers_width_fix. apply Cov. exact B1.
Qed.

Lemma measure_column_keeps_cell (acc : list string) (col : Z) :
  0 <= col -> col <> Z.of_nat k ->
  keeps (fun d => cell_at d r k) (measure_column acc col).
Proof.
  intros H0 Hne. unfold measure_column.
  apply keeps_bind; [apply keeps_lift|intros ch].
  apply keeps_bind; [apply keeps_attr|intros mem].
  apply keeps_bind.
  - apply keeps_foreach. intros r'. apply measure_cell_keeps_cell. right. lia.
  - intros _. apply keeps_bind; [|intros _; apply keeps_ret].
    apply keeps_write. intros; apply cell_at_backend.
Qed.

Lemma measure_columns_cover (cols : list Z) : forall d acc,
  table_ok d = true ->
  (forall col, In col cols -> 0 <= col < numcols d) ->
  NoDup cols ->
  In (Z.of_nat k) cols ->
  cell_at d r k = Some cell ->
  exists d',
    foldM cols acc measure_column d = (Ok (acc ++ map letter cols)%list, d') /\
    emits_fixes is_pass1 d d' (map GrColsFirstFix (map letter cols)) /\
    forall out, backend d' = (backend d ++ out)%list ->
                covers_width E (TeX.settowidth E part + 2 * TeX.tabcolsep E)
                  (letter (Z.of_nat k)) out.
Proof.
  induction cols as [|col cols IH]; intros d acc Hok Hcols Hnd Hin Hat; [destruct Hin|].
  inversion Hnd as [|c0 l0 Hnotin Hnd']; subst.
  assert (H26 : numcols d <= 26)
    by (destruct (table_ok_parts d Hok) as [mem [_ [H26 _]]]; exact H26).
  destruct (Z.eq_dec col (Z.of_nat k)) as [Heq | Hne].
  - destruct (measure_column_cover d acc col Heq Hok (Hcols col (or_introl eq_refl)) Hat)
      as [d1 [E1 [R1 Cov]]].
    pose proof R1 as [T1 [N1 [_ [_ [out1 [B1 _]]]]]].
    destruct (measure_columns_run cols d1 (acc ++ [letter col])%list T1) as [d2 [E2 R2]].
    { intros c Hc. rewrite N1. apply Hcols. right. exact Hc. }
    exists d2. split; [|split].
    + cbn [foldM]. unfold bind. rewrite E1, E2. rewrite <- app_assoc. reflexivity.
    + change (map GrColsFirstFix (map letter (col :: cols)))
        with ([GrColsFirstFix (letter col)]
              ++ map GrColsFirstFix (map letter cols))%list.
      eapply emits_trans; eassumption.
    + intros out Hout.
      destruct R2 as [_ [_ [_ [_ [out2 [B2 [F2 A2]]]]]]].
      rewrite B2, B1, <- app_assoc in Hout. apply app_inv_head in Hout. subst out.
      rewrite <- Heq.
      apply (covers_width_after E _ _ _ _ (map letter cols));
        [apply Cov; exact B1|exact F2|exact A2|].
      intros Hl. apply in_map_iff in Hl. destruct Hl as [c' [Hl Hc']].
      assert (Hb' : 0 <= c' < numcols d) by (apply Hcols; right; exact Hc').
      assert (Hb : 0 <= col < numcols d) by (apply Hcols; left; reflexivity).
      apply (f_equal get_numform) in Hl.
      rewrite !letter_decoded in Hl by lia. injection Hl as ->. contradiction.
  - destruct Hin as [Hin | Hin]; [contradiction|].
    destruct (measure_column_run d acc col Hok (Hcols col (or_introl eq_refl)))
      as [d1 [E1 R1]].
    pose proof R1 as [T1 [N1 [_ [_ [out1 [B1 _]]]]]].
    assert (Hat1 : cell_at d1 r k = Some cell).
    { pose proof (measure_column_keeps_cell acc col
                    (proj1 (Hcols col (or_introl eq_refl))) Hne d) as K.
      rewrite E1 in K. cbn [snd] in K. rewrite K. exact Hat. }
    destruct (IH d1 (acc ++ [letter col])%list T1) as [d2 [E2 [R2 Cov]]]; auto.
    { intros c Hc. rewrite N1. apply Hcols. right. exact Hc. }
    exists d2. split; [|split].
    + cbn [foldM]. unfold bind. rewrite E1, E2. rewrite <- app_assoc. reflexivity.
    + change (map GrColsFirstFix (map letter (col :: cols)))
        with ([GrColsFirstFix (letter col)]
              ++ map GrColsFirstFix (map letter cols))%list.
      eapply emits_trans; eassumption.
    + intros out Hout.
      destruct R2 as [_ [_ [_ [_ [out2 [B2 _]]]]]].
      rewrite B2, B1, <- app_assoc in Hout. apply app_inv_head in Hout. subst out.
      apply covers_width_before. apply Cov. rewrite B2. reflexivity.
Qed.

End Measured.

Lemma calc_latex_widths_after_pass1 (d d1 : LaTeXDoc) (fixes : list Instr) :
  foldM (py_range 0 (numcols d)) [] measure_column d
  = (Ok (column_letters (numcols d)), d1) ->
  emits_fixes is_pass1 d d1 fixes ->
  exists d' spans,
    calc_latex_widths d = (Ok tt, d') /\
    backend d'
    = (backend d1 ++ later_passes (column_letters (numcols d)) ++ spans)%list.
Proof.
  intros E1 R1. unfold calc_latex_widths.
  unfold bind at 1. unfold read at 1.
  unfold bind at 1. rewrite E1.
  set (cols := column_letters (numcols d)) in *.
  destruct R1 as [T1 [N1 [P1 [C1 _]]]].
  unfold bind at 1. unfold write at 1. cbn [modify].
  unfold bind at 1. rewrite write_loop.
  unfold bind at 1. unfold write at 1. cbn [modify].
  unfold bind at 1. rewrite write_loop.
  unfold bind at 1. unfold write at 1. cbn [modify].
  unfold bind at 1. rewrite write_loop.
  unfold bind at 1. cbn [modify].
  match goal with |- context [bind (attr tabmem) _ ?s] => set (d8 := s) end.
  assert (B8 : backend d8 = (backend d1 ++ later_passes cols)%list).
  { subst d8. open_doc d1. unfold later_passes. cbn [backend set_backend set_multcol_alph_counter].
    rewrite <- !app_assoc. reflexivity. }
  assert (T8 : table_ok d8 = true /\ pict_width d8 = pict_width d1 /\
               multcol_alph_counter d8 = gen_after 0).
  { subst d8. open_doc d1. unfold table_ok in *. sim. auto. }
  destruct T8 as [T8 [P8 G8]].
  destruct (table_ok_parts d8 T8) as [mem [Hmem [_ [Hrows Hcount]]]].
  destruct (span_rows_run (m_rows mem) d8 0 T8 G8) as [d9 [E9 R9]].
  { rewrite forallb_forall in Hrows |- *. intros row Hrow.
    specialize (Hrows row Hrow). unfold row_ok in Hrows.
    apply andb_prop in Hrows. apply Hrows. }
  { cbn. exact Hcount. }
  destruct R9 as [_ [_ [_ [_ [spans [B9 _]]]]]].
  exists d9, spans. split.
  - unfold bind at 1. rewrite (attr_some tabmem d8 mem Hmem). exact E9.
  - rewrite B9, B8, <- !app_assoc. reflexivity.
Qed.

(** X19: The first pass of the width calculation asks enough for every text.
    For a cell of one column that holds no picture, whatever row it is in:
    when the first pass is run, the required width of the column of the
    cell is at least the width of every line of the cell, with the padding
    on both sides.  The lines are the parts between the separation
    patterns of the content. *)
Theorem column_requirement_covers_text
    (E : TeX.Engine) (s0 : TeX.Regs) (d : LaTeXDoc)
    (r k : nat) (cell : TabCell) (part : string) :
  table_ok d = true ->
  Z.of_nat k < numcols d ->
  cell_at d r k = Some cell ->
  c_span cell = 1 ->
  PyStr.startswith (c_content cell) PICT_MARK = false ->
  In part (PyStr.split_go SEPARATION_PAT (c_content cell) 0 "") ->
  exists d' pass1 spans,
    calc_latex_widths d = (Ok tt, d') /\
    backend d'
    = (backend d ++ pass1 ++ later_passes (column_letters (numcols d)) ++ spans)%list /\
    filter is_fix pass1 = map GrColsFirstFix (column_letters (numcols d)) /\
    forallb is_pass1 pass1 = true /\
    TeX.settowidth E part + 2 * TeX.tabcolsep E
    <= TeX.run E pass1 s0 (TeX.grtempwidth (letter (Z.of_nat k))).
Proof.
  intros Hok Hk Hat Hspan Htext Hpart.
  destruct (measure_columns_cover E r k cell part Hspan Htext Hpart
              (py_range 0 (numcols d)) d [] Hok) as [d1 [E1 [R1 Cov]]]; auto.
  { intros col Hc. apply py_range_bounds in Hc. exact Hc. }
  { apply py_range_NoDup. }
  { unfold py_range. apply in_map_iff. exists k. split; [lia|]. apply in_seq. lia. }
  cbn [app] in E1. fold (column_letters (numcols d)) in E1, R1.
  destruct (calc_latex_widths_after_pass1 d d1 _ E1 R1) as [d' [spans [H1 H2]]].
  pose proof R1 as [_ [_ [_ [_ [pass1 [B1 [F1 A1]]]]]]].
  exists d', pass1, spans. split; [exact H1|]. split; [|split; [exact F1|split; [exact A1|]]].
  - rewrite H2, B1, <- !app_assoc. reflexivity.
  - apply (Cov pass1 B1 s0).
Qed.

Lemma column_requirement_covers_text_witness :
  exists d' pass1 spans,
    calc_latex_widths two_by_two = (Ok tt, d') /\
    backend d'
    = (backend two_by_two ++ pass1 ++ later_passes ["a"; "b"] ++ spans)%list /\
    22 * pt <= TeX.run demo_engine pass1 zero_regs (TeX.grtempwidth "b").
Proof.
  destruct (column_requirement_covers_text demo_engine zero_regs two_by_two
              1 1 (mkCell "b" 1 "{l}" "y2") "y2"
              eq_refl eq_refl eq_refl eq_refl eq_refl (or_introl eq_refl))
    as [d' [pass1 [spans [H1 [H2 [_ [_ H]]]]]]].
  exists d', pass1, spans. split; [exact H1|]. split; [exact H2|exact H].
Defined.
(** ** The column format of a centered cell *)

Lemma uint_numeral (u : Decimal.uint) :
  all_chars is_numeral_char (NilEmpty.string_of_uint u) = true.
Proof. induction u; cbn [NilEmpty.string_of_uint all_chars]; try rewrite IHu; reflexivity. Qed.

Lemma repr_int_numeral (n : Z) : all_chars is_numeral_char (PyStr.repr_int n) = true.
Proof.
  unfold PyStr.repr_int, NilZero.string_of_int.
  assert (U : forall u, all_chars is_numeral_char (NilZero.string_of_uint u) = true).
  { intros u. unfold NilZero.string_of_uint. destruct u; try apply uint_numeral. reflexivity. }
  destruct (Z.to_int n); cbn [all_chars]; rewrite U; reflexivity.
Qed.

Lemma tblfmt_other (c : ascii) (rest : string) :
  c <> "{"%char -> tblfmt_go (String c rest) 0 = String c (tblfmt_go rest 0).
Proof.
  intros Hc. cbn [tblfmt_go]. unfold TBLFMT_ALTS. cbn [tblfmt_match prefix].
  destruct (ascii_dec "{" c) as [Heq | _]; [congruence|]. reflexivity.
Qed.

Lemma tblfmt_brace (x : ascii) (rest : string) :
  x <> "l"%char -> x <> "|"%char ->
  tblfmt_go (String "{" (String x rest)) 0
  = String "{" (tblfmt_go (String x rest) 0).
Proof.
  intros Hl Hb. cbn [tblfmt_go]. unfold TBLFMT_ALTS. cbn [tblfmt_match prefix].
  destruct (ascii_dec "{" "{") as [_ | N]; [|congruence].
  destruct (ascii_dec "|" x) as [Heq | _]; [congruence|].
  destruct (ascii_dec "l" x) as [Heq | _]; [congruence|]. reflexivity.
Qed.

Lemma numeral_char_facts (c : ascii) :
  is_numeral_char c = true ->
  c <> "{"%char /\ c <> "l"%char /\ c <> "|"%char.
Proof.
  intros H. repeat split; intros ->; discriminate H.
Qed.

Lemma tblfmt_numeral (ds rest : string) :
  all_chars is_numeral_char ds = true ->
  tblfmt_go (ds ++ rest) 0 = ds ++ tblfmt_go rest 0.
Proof.
  induction ds as [|c ds IH]; intros H; [reflexivity|].
  cbn [all_chars] in H. apply andb_prop in H. destruct H as [Hc Hds].
  cbn [append]. rewrite tblfmt_other by apply (numeral_char_facts c Hc).
  rewrite IH by exact Hds. reflexivity.
Qed.

Lemma tblfmt_head (span : Z) (st : CellStyle) :
  tblfmt_sub (PyStr.join0 ["\multicolumn{"; PyStr.repr_int span; "}{";
                           cell_format st; "}"])
  = PyStr.join0 ["\multicolumn{"; PyStr.repr_int span; "}{";
                 centered_format st; "}"].
Proof.
  unfold tblfmt_sub, PyStr.join0. cbn [fold_right].
  pose proof (repr_int_numeral span) as Hn.
  set (ds := PyStr.repr_int span) in *.
  change ("\multicolumn{" ++ ds ++ "}{" ++ cell_format st ++ "}" ++ "")
    with ("\multicolumn" ++ String "{" (ds ++ "}{" ++ cell_format st ++ "}")).
  change ("\multicolumn{" ++ ds ++ "}{" ++ centered_format st ++ "}" ++ "")
    with ("\multicolumn" ++ String "{" (ds ++ "}{" ++ centered_format st ++ "}")).
  cbn [append].
  repeat (rewrite tblfmt_other by discriminate).
  do 12 f_equal.
  assert (Htail : tblfmt_go ("}{" ++ cell_format st ++ "}") 0
                  = "}{" ++ centered_format st ++ "}").
  { unfold cell_format, centered_format.
    destruct (left_border st =? 1), (right_border st =? 1); reflexivity. }
  cbn [append] in Htail.
  destruct ds as [|x ds'].
  - cbn [append]. rewrite tblfmt_brace by discriminate.
    f_equal. exact Htail.
  - cbn [all_chars] in Hn. apply andb_prop in Hn. destruct Hn as [Hx Hds].
    destruct (numeral_char_facts x Hx) as [H1 [H2 H3]].
    cbn [append]. rewrite tblfmt_brace by assumption.
    rewrite tblfmt_other by exact H1. rewrite tblfmt_numeral by exact Hds.
    rewrite Htail. reflexivity.
Qed.

Lemma cell_end_run (text : string) (span : Z) (d : LaTeXDoc) (cell : TabCell)
    (row : TabRow) :
  tabcell d = Some cell ->
  tabrow d = Some row ->
  handle_table text CELL_END span d
  = (Ok tt,
     let content := PyStr.strip (PyStr.join0 (textmem d)) in
     let cell' :=
       if PyStr.contains content "\centering"
       then mkCell (c_colchar cell) (c_span cell) (tblfmt_sub (c_head cell))
              (PyStr.replace content "\centering" "")
       else mkCell (c_colchar cell) (c_span cell) (c_head cell) content in
     set_textmem []
       (set_tabrow (Some (set_cells (r_cells row ++ [cell']) row))
          (set_tabcell (Some cell') d))).
Proof.
  intros Hcell Hrow. unfold handle_table. cbv zeta.
  open_doc d. norm_doc. subst.
  repeat step.
  cbn [set_content set_head c_content c_head c_colchar c_span].
  destruct (PyStr.contains (PyStr.strip (PyStr.join0 d_textmem)) "\centering");
    repeat step; destruct cell as [cc0 cs0 ch0 ct0]; reflexivity.
Qed.

(** X20: A cell whose text holds [\centering] is centered by its column
    format.  At the cell-end event of a cell whose head is the one that
    [start_cell] makes of a span and the borders, the [l] of the format
    becomes a [c], the borders and the span stay, and [\centering] is
    taken out of the content, which is the collected text without the
    white space around it; the cell is put into the row and the text
    memory is emptied. *)
Theorem centering_changes_column_format
    (text : string) (span : Z) (d : LaTeXDoc) (cell : TabCell) (row : TabRow)
    (n : Z) (st : CellStyle) :
  tabcell d = Some cell ->
  tabrow d = Some row ->
  c_head cell = PyStr.join0 ["\multicolumn{"; PyStr.repr_int n; "}{";
                             cell_format st; "}"] ->
  PyStr.contains (PyStr.strip (PyStr.join0 (textmem d))) "\centering" = true ->
  exists d' cell',
    handle_table text CELL_END span d = (Ok tt, d') /\
    cell' = mkCell (c_colchar cell) (c_span cell)
              (PyStr.join0 ["\multicolumn{"; PyStr.repr_int n; "}{";
                            centered_format st; "}"])
              (PyStr.replace (PyStr.strip (PyStr.join0 (textmem d)))
                 "\centering" "") /\
    tabcell d' = Some cell' /\
    tabrow d' = Some (set_cells (r_cells row ++ [cell']) row) /\
    textmem d' = [].
Proof.
  intros Hcell Hrow Hhead Hcen.
  rewrite (cell_end_run text span d cell row Hcell Hrow). cbv zeta.
  rewrite Hcen, Hhead, tblfmt_head.
  eexists. eexists. split; [reflexivity|]. split; [reflexivity|].
  open_doc d. norm_doc. split; [reflexivity|]. split; reflexivity.
Qed.

Lemma centering_changes_column_format_witness :
  exists d',
    handle_table "" CELL_END 1
      (set_textmem ["\centering "; "x"]
         (set_tabcell (Some (mkCell "a" 1 "\multicolumn{1}{|l}" ""))
            (set_tabrow (Some new_TabRow) (begun_table 2)))) = (Ok tt, d') /\
    tabcell d' = Some (mkCell "a" 1 "\multicolumn{1}{|c}" " x").
Proof.
  destruct (centering_changes_column_format "" 1
              (set_textmem ["\centering "; "x"]
                 (set_tabcell (Some (mkCell "a" 1 "\multicolumn{1}{|l}" ""))
                    (set_tabrow (Some new_TabRow) (begun_table 2))))
              (mkCell "a" 1 "\multicolumn{1}{|l}" "") new_TabRow
              1 (mkCellStyle 1 0 0 0) eq_refl eq_refl eq_refl eq_refl)
    as [d' [cell' [H1 [H2 [H3 _]]]]].
  exists d'. split; [exact H1|]. rewrite H3, H2. reflexivity.
Defined.
(** ** The final width of a column and the width that is used *)

Section FinalWidths.

Import TeX.

Variable E : Engine.

Ltac split_ifs :=
  repeat match goal with
         | |- context [if ?b then _ else _] => destruct b eqn:?
         end.

Ltac regs :=
  repeat first [ rewrite wr_same | rewrite wr_other by congruence ].

Ltac regs_in :=
  repeat match goal with
         | H : context [wr _ _ _ _] |- _ =>
             first [ rewrite wr_same in H | rewrite wr_other in H by congruence ]
         end.

Ltac macros :=
  unfold exec, grinittab, grsetreqpart, grsetreqfull, grdividelength,
    grtextneedwidth, grcolsfirstfix, grcolssecondfix, grcolsthirdfix,
    grcolsfourthfix, grgetspanwidth, grmaxvaltofirst, addtolength, grinitlength.

Ltac by_column c :=
  match goal with
  | |- context [exec E (_ ?c') _] =>
      destruct (string_dec c' c) as [-> | ?]
  end.

Ltac crunch :=
  macros; cbv zeta; split_ifs; regs; regs_in;
  repeat match goal with
         | H : (_ =? _) = true |- _ => apply Z.eqb_eq in H
         | H : (_ && _) = true |- _ => apply andb_prop in H; destruct H
         end;
  first [ congruence | lia | (left; congruence) | (right; congruence)
        | (left; lia) | (right; lia) | idtac ].

Lemma firstfix_final_other c c' s :
  c <> c' ->
  exec E (GrColsFirstFix c) s (grfinalwidth c') = s (grfinalwidth c').
Proof. intros H. macros. cbv zeta. split_ifs; regs; reflexivity. Qed.

Lemma pass1_final_frame (p : list Instr) : forall cols s c,
  filter is_fix p = map GrColsFirstFix cols ->
  forallb is_pass1 p = true ->
  ~ In c cols ->
  run E p s (grfinalwidth c) = s (grfinalwidth c).
Proof.
  induction p as [|i p IH]; intros cols s c Hf Hp Hc; [reflexivity|].
  rewrite run_cons. cbn [forallb] in Hp. apply andb_prop in Hp. destruct Hp as [Hi Hp].
  cbn [filter] in Hf.
  destruct i; try discriminate Hi; cbn [is_fix] in Hf.
  5:{ destruct cols as [|c0 cols]; [discriminate|]. cbn [map] in Hf.
      inversion Hf; subst.
      rewrite (IH cols) by (auto; intros H; apply Hc; right; exact H).
      apply firstfix_final_other. intros ->. apply Hc. left. reflexivity. }
  all: rewrite (IH cols) by auto; apply measure_frame; reflexivity.
Qed.

Lemma firstfix_unset_or_set (c : string) (s : Regs) :
  unset_or_set c (exec E (GrColsFirstFix c) s).
Proof. unfold unset_or_set. crunch. Qed.

Lemma pass1_unset_or_set (p : list Instr) : forall cols s c,
  filter is_fix p = map GrColsFirstFix cols ->
  forallb is_pass1 p = true ->
  NoDup cols ->
  In c cols ->
  unset_or_set c (run E p s).
Proof.
  induction p as [|i p IH]; intros cols s c Hf Hp Hnd Hc.
  - destruct cols; [destruct Hc|discriminate].
  - rewrite run_cons. cbn [forallb] in Hp. apply andb_prop in Hp. destruct Hp as [Hi Hp].
    cbn [filter] in Hf.
    destruct i; try discriminate Hi; cbn [is_fix] in Hf.
    5:{ destruct cols as [|c0 cols]; [discriminate|]. cbn [map] in Hf.
        inversion Hf; subst. inversion Hnd; subst.
        destruct Hc as [-> | Hc]; [|apply (IH cols); auto].
        unfold unset_or_set.
        rewrite (pass1_final_frame p cols _ c), (pass1_temp_frame E p cols _ c) by auto.
        apply firstfix_unset_or_set. }
    all: apply (IH cols); auto.
Qed.

Lemma later_unset_or_set (i : Instr) (c : string) (s : Regs) :
  is_later i = true -> unset_or_set c s -> unset_or_set c (exec E i s).
Proof.
  unfold unset_or_set. intros Hi H.
  destruct i; try discriminate Hi; try by_column c; crunch.
Qed.

Lemma later_is_set (i : Instr) (c : string) (s : Regs) :
  is_later i = true -> is_set c s -> is_set c (exec E i s).
Proof.
  unfold is_set. intros Hi H.
  destruct i; try discriminate Hi; try by_column c; crunch.
Qed.

Lemma secondfix_sets (c : string) (s : Regs) :
  fits s -> is_set c (exec E (GrColsSecondFix c) s).
Proof.
  unfold fits, is_set. intros Hfit. apply Z.ltb_lt in Hfit.
  macros. rewrite Hfit. regs. reflexivity.
Qed.

Lemma fourthfix_sets (c : string) (s : Regs) :
  ~ fits s -> unset_or_set c s -> is_set c (exec E (GrColsFourthFix c) s).
Proof.
  unfold fits, is_set, unset_or_set. intros Hfit H.
  assert (Hb : (s grcurcolend <? s grtabwidth) = false) by (apply Z.ltb_ge; lia).
  macros. rewrite Hb. crunch.
Qed.

Lemma later_run_unset_or_set (p : list Instr) (c : string) : forall s,
  forallb is_later p = true -> unset_or_set c s -> unset_or_set c (run E p s).
Proof.
  induction p as [|i p IH]; intros s Hp H; [exact H|].
  cbn [forallb] in Hp. apply andb_prop in Hp. destruct Hp as [Hi Hp].
  rewrite run_cons. apply IH; [exact Hp|]. apply later_unset_or_set; assumption.
Qed.

Lemma later_run_is_set (p : list Instr) (c : string) : forall s,
  forallb is_later p = true -> is_set c s -> is_set c (run E p s).
Proof.
  induction p as [|i p IH]; intros s Hp H; [exact H|].
  cbn [forallb] in Hp. apply andb_prop in Hp. destruct Hp as [Hi Hp].
  rewrite run_cons. apply IH; [exact Hp|]. apply later_is_set; assumption.
Qed.

Lemma later_program_sets (p : list Instr) (c : string) (s : Regs) :
  forallb is_later p = true ->
  unset_or_set c s ->
  In (GrColsSecondFix c) p ->
  In (GrColsFourthFix c) p ->
  is_set c (run E p s).
Proof.
  intros Hp H H2 H4.
  assert (Hsplit : forall x, In x p -> exists a b,
            p = (a ++ x :: b)%list /\ forallb is_later a = true /\
            forallb is_later b = true).
  { intros x Hx. destruct (in_split x p Hx) as [a [b ->]]. exists a, b.
    rewrite forallb_app in Hp. apply andb_prop in Hp. destruct Hp as [Ha Hb].
    cbn [forallb] in Hb. apply andb_prop in Hb. destruct Hb as [_ Hb].
    repeat split; assumption. }
  destruct (Z_lt_dec (s grcurcolend) (s grtabwidth)) as [Hfit | Hfit].
  - destruct (Hsplit _ H2) as [a [b [-> [Ha Hb]]]].
    rewrite run_app, run_cons. apply later_run_is_set; [exact Hb|].
    apply secondfix_sets. unfold fits.
    destruct (later_run_frame E a s Ha) as [-> ->]. exact Hfit.
  - destruct (Hsplit _ H4) as [a [b [-> [Ha Hb]]]].
    rewrite run_app, run_cons. apply later_run_is_set; [exact Hb|].
    apply fourthfix_sets.
    + unfold fits. destruct (later_run_frame E a s Ha) as [-> ->]. exact Hfit.
    + apply later_run_unset_or_set; assumption.
Qed.

End FinalWidths.

(** X21: When the instructions that [calc_latex_widths] writes are run, every
    column ends with its final width equal to the width that the text of
    the table uses for it: whichever pass fixes a column, the final width
    is set to the width kept for the column, and no later instruction
    changes one without the other. *)
Theorem final_width_is_the_width_used
    (E : TeX.Engine) (s0 : TeX.Regs) (d : LaTeXDoc) :
  table_ok d = true ->
  exists d' out,
    calc_latex_widths d = (Ok tt, d') /\
    backend d' = (backend d ++ out)%list /\
    forall i, 0 <= i < numcols d ->
      TeX.run E out s0 (TeX.grfinalwidth (letter i))
      = TeX.run E out s0 (TeX.grtempwidth (letter i)).
Proof.
  intros Hok.
  destruct (calc_latex_widths_shape d Hok)
    as [d' [pass1 [spans [H1 [H2 [H3 [H4 [H5 _]]]]]]]].
  exists d', (pass1 ++ later_passes (column_letters (numcols d)) ++ spans)%list.
  split; [exact H1|]. split; [exact H2|].
  intros i Hi.
  assert (H26 : numcols d <= 26).
  { unfold table_ok in Hok. destruct (tabmem d); [|discriminate].
    apply andb_prop in Hok. destruct Hok as [Hok _].
    apply andb_prop in Hok. destruct Hok as [Hok _]. apply Z.leb_le, Hok. }
  assert (Hin : In (letter i) (column_letters (numcols d))).
  { unfold column_letters, py_range. apply in_map. apply in_map_iff.
    exists (Z.to_nat i). split; [lia|]. apply in_seq. lia. }
  rewrite !(run_app E pass1).
  change (is_set (letter i)
            (TeX.run E (later_passes (column_letters (numcols d)) ++ spans)
               (TeX.run E pass1 s0))).
  apply later_program_sets.
  - rewrite forallb_app. apply andb_true_intro. split.
    + rewrite later_passes_split, forallb_app, three_passes_later.
      apply forallb_map_const. reflexivity.
    + revert H5. apply forallb_weaken. intros x Hx.
      destruct x; try discriminate Hx; reflexivity.
  - apply (pass1_unset_or_set E pass1 (column_letters (numcols d))); auto.
    apply column_letters_NoDup, H26.
  - apply in_or_app. left. unfold later_passes.
    apply in_or_app. right. apply in_or_app. left. apply in_map, Hin.
  - apply in_or_app. left. unfold later_passes.
    do 5 (apply in_or_app; right). apply in_map, Hin.
Qed.

Lemma final_width_is_the_width_used_witness :
  exists d' out,
    calc_latex_widths two_by_two = (Ok tt, d') /\
    TeX.run demo_engine out zero_regs (TeX.grfinalwidth "b")
    = TeX.run demo_engine out zero_regs (TeX.grtempwidth "b").
Proof.
  destruct (final_width_is_the_width_used demo_engine zero_regs two_by_two eq_refl)
    as [d' [out [H1 [_ H]]]].
  exists d', out. split; [exact H1|]. apply (H 1). split; [lia|reflexivity].
Defined.
